(** * EasyClangComplete: plugin/completion/compiler_variant.py

    A shallow embedding of the three diagnostic parsers of
    [compiler_variant.py] and of the part of Python they run on:
    [str.splitlines], the backtracking matcher behind [re.search] for the
    constructs the four patterns use, [groupdict] and [dict.update].

    Text is modelled as [string], one [ascii] per character, so the model
    covers the code points 0..255.  On that range [\d] is exactly [0-9],
    [\s] and the line boundaries of [splitlines] are the sets listed
    below, and [.] is every character but the line feed. *)

From Stdlib Require Import Ascii String List Arith Lia Bool.
From stdpp Require Import base option list strings gmap fin_maps.

Local Open Scope string_scope.
Local Open Scope list_scope.

(** ** Characters and character classes *)

Module Char.

Definition code (c : ascii) : nat := nat_of_ascii c.

Definition LF : ascii := ascii_of_nat 10.
Definition CR : ascii := ascii_of_nat 13.
Definition quote : ascii := ascii_of_nat 34.

(** [.] without DOTALL: anything but a line feed. *)
Definition any (c : ascii) : bool := negb (Ascii.eqb c LF).

(** [\d] of a str pattern, on code points below 256. *)
Definition digit (c : ascii) : bool :=
  ((48 <=? code c) && (code c <=? 57))%nat.

(** [\s] of a str pattern, on code points below 256: tab, LF, VT, FF,
    CR, FS, GS, RS, US, space, NEL and the no-break space. *)
Definition space (c : ascii) : bool :=
  let n := code c in
  (((9 <=? n) && (n <=? 13)) || ((28 <=? n) && (n <=? 32))
   || (n =? 133) || (n =? 160))%nat.

(** The line boundaries of [str.splitlines], on code points below 256:
    LF, VT, FF, CR, FS, GS, RS and NEL. *)
Definition linebreak (c : ascii) : bool :=
  let n := code c in
  (((10 <=? n) && (n <=? 13)) || ((28 <=? n) && (n <=? 30))
   || (n =? 133))%nat.

(** A one-character literal, as a class. *)
Definition only (a : ascii) (c : ascii) : bool := Ascii.eqb c a.

End Char.

(** ** Strings *)

(** The characters of [s] all satisfy [p]. *)
Fixpoint all_chars (p : ascii -> bool) (s : string) : bool :=
  match s with
  | EmptyString => true
  | String c s' => p c && all_chars p s'
  end.

(** [taken s s'] is the text consumed between the position where [s]
    remains and the later position where [s'] remains. *)
Definition taken (s s' : string) : string :=
  substring 0 (String.length s - String.length s') s.

(** [sub] occurs in [s]. *)
Definition occurs (sub s : string) : Prop :=
  exists a b, s = a +:+ sub +:+ b.

(** ** str.splitlines() *)

(** [splitlines_from cur s]: [cur] is the line read so far.  A CR
    directly followed by LF is one boundary; a text that ends with a
    boundary has no empty last line. *)
Fixpoint splitlines_from (cur : string) (s : string) : list string :=
  match s with
  | EmptyString =>
      match cur with
      | EmptyString => []
      | _ => [cur]
      end
  | String c s' =>
      if Char.linebreak c then
        match s' with
        | String c' s'' =>
            if Ascii.eqb c Char.CR && Ascii.eqb c' Char.LF
            then cur :: splitlines_from "" s''
            else cur :: splitlines_from "" s'
        | EmptyString => [cur]
        end
      else splitlines_from (cur +:+ String c "") s'
  end.

Definition splitlines (s : string) : list string := splitlines_from "" s.

(** ** Regular expressions *)

(** Python values stored in a [groupdict]: the text of a group or [None]
    for a group that took no part in the match. *)
Inductive value : Type :=
| VNone
| VStr (s : string).

#[global] Instance value_eq_dec : EqDecision value.
Proof. solve_decision. Defined.

(** The constructs of the four patterns.  Every quantifier of the source
    is greedy and applies to a single character or class, which is what
    [Rep] holds: [Rep p 0] is [p*] and [Rep p 1] is [p+].  [Cls p] is one
    character of the class [p]. *)
Inductive regex : Type :=
| Eps
| Lit (c : ascii)
| Cls (p : ascii -> bool)
| Rep (p : ascii -> bool) (min : nat)
| Group (name : string) (r : regex)
| Cat (r1 r2 : regex).

(** A run of literal characters. *)
Fixpoint Str (s : string) : regex :=
  match s with
  | EmptyString => Eps
  | String c s' => Cat (Lit c) (Str s')
  end.

(** The items of a pattern, one after the other. *)
Definition cat_all (rs : list regex) : regex := fold_right Cat Eps rs.

(** The named groups of a pattern, in order. *)
Fixpoint group_names (r : regex) : list string :=
  match r with
  | Eps | Lit _ | Cls _ | Rep _ _ => []
  | Group n r => n :: group_names r
  | Cat r1 r2 => group_names r1 ++ group_names r2
  end.

Section Matcher.

Context {A : Type}.

(** Greedy repetition with backtracking: take characters of [p] while
    they last, then hand the rest to [k]; when [k] fails give back one
    character at a time, never going below [min]. *)
Fixpoint greedy (p : ascii -> bool) (min : nat) (s : string)
         (k : string -> option A) : option A :=
  match s with
  | String c s' =>
      if p c then
        match greedy p (pred min) s' k with
        | Some a => Some a
        | None => match min with 0 => k s | S _ => None end
        end
      else match min with 0 => k s | S _ => None end
  | EmptyString => match min with 0 => k s | S _ => None end
  end.

(** The backtracking matcher, in continuation-passing style: [exec r s
    g k] matches [r] at the start of [s] with the groups [g] closed so
    far, and passes what remains and the groups to [k]; the first
    alternative on which [k] succeeds is the result. *)
Fixpoint exec (r : regex) (s : string) (g : gmap string string)
         (k : string -> gmap string string -> option A) : option A :=
  match r with
  | Eps => k s g
  | Lit c =>
      match s with
      | String c' s' => if Ascii.eqb c' c then k s' g else None
      | EmptyString => None
      end
  | Cls p =>
      match s with
      | String c' s' => if p c' then k s' g else None
      | EmptyString => None
      end
  | Rep p min => greedy p min s (fun s' => k s' g)
  | Group n r => exec r s g (fun s' g' => k s' (<[n := taken s s']> g'))
  | Cat r1 r2 => exec r1 s g (fun s1 g1 => exec r2 s1 g1 k)
  end.

End Matcher.

(** [pattern.match]: a match anchored at the start of [s]. *)
Definition match_at (r : regex) (s : string) : option (gmap string string) :=
  exec r s ∅ (fun _ g => Some g).

(** [pattern.search]: the match at the leftmost position that has one. *)
Fixpoint search (r : regex) (s : string) : option (gmap string string) :=
  match match_at r s with
  | Some g => Some g
  | None =>
      match s with
      | EmptyString => None
      | String _ s' => search r s'
      end
  end.

(** [match.groupdict()]: every named group of the pattern, with [None]
    for the groups that did not take part. *)
Definition groupdict (r : regex) (g : gmap string string) : gmap string value :=
  list_to_map
    (map (fun n => (n, match g !! n with Some t => VStr t | None => VNone end))
         (group_names r)).

(** ** The module

    [re.compile] keeps the text of the pattern next to the compiled
    program; the log messages of the LibClang variant print the text. *)
Record Pattern : Type := {
  pattern : string;
  program : regex
}.

Definition Pattern_search (re : Pattern) (s : string)
  : option (gmap string string) :=
  search (program re) s.

Definition Match_groupdict (re : Pattern) (m : gmap string string)
  : gmap string value :=
  groupdict (program re) m.

(** An error record is a dict from key to captured text. *)
Abbreviation ErrorRecord := (gmap string value).

(** [d.update(e)]: the keys of [e] win. *)
Definition dict_update (d e : gmap string value) : gmap string value := e ∪ d.

Inductive exn : Type :=
| NotImplementedError (msg : string)
| AttributeError (name : string).

Inductive result (A : Type) : Type :=
| Ok (a : A)
| Raise (e : exn).
Arguments Ok {A} a.
Arguments Raise {A} e.

(** A call of [log.error(fmt, *args)]. *)
Record log_record : Type := {
  log_fmt : string;
  log_args : list string
}.

(** A computation returns or raises, and leaves the records it logged. *)
Definition M (A : Type) : Type := (result A * list log_record)%type.

Definition ret {A} (a : A) : M A := (Ok a, []).
Definition raise {A} (e : exn) : M A := (Raise e, []).
Definition log_error (fmt : string) (args : list string) : M unit :=
  (Ok tt, [{| log_fmt := fmt; log_args := args |}]).
Definition bind {A B} (f : A -> M B) (m : M A) : M B :=
  match m with
  | (Ok a, l) => let '(r, l') := f a in (r, l ++ l')
  | (Raise e, l) => (Raise e, l)
  end.

#[global] Instance M_ret : MRet M := @ret.
#[global] Instance M_bind : MBind M := @bind.

(** What a parser is handed: the text printed by the compiler binary, or
    the diagnostics of a libclang translation unit, of which the code
    reads [str(diag.location)] and [str(diag.spelling)]. *)
Record Diagnostic : Type := {
  location : string;
  spelling : string
}.

Inductive output : Type :=
| Text (s : string)
| Diagnostics (ds : list Diagnostic).

(** [output.splitlines()]: a list has no such method. *)
Definition output_splitlines (o : output) : M (list string) :=
  match o with
  | Text s => ret (splitlines s)
  | Diagnostics _ => raise (AttributeError "splitlines")
  end.

(** The items [for diag in output] runs over: the diagnostics of a list,
    the characters of a text. *)
Inductive item : Type :=
| ItemChar (c : ascii)
| ItemDiag (d : Diagnostic).

Definition output_iter (o : output) : list item :=
  match o with
  | Text s => map ItemChar (list_ascii_of_string s)
  | Diagnostics ds => map ItemDiag ds
  end.

Definition item_location (i : item) : M string :=
  match i with
  | ItemDiag d => ret (location d)
  | ItemChar _ => raise (AttributeError "location")
  end.

Definition item_spelling (i : item) : M string :=
  match i with
  | ItemDiag d => ret (spelling d)
  | ItemChar _ => raise (AttributeError "spelling")
  end.

(** *** The classes and their attributes *)

Inductive cls : Type :=
| CompilerVariant
| ClangCompilerVariant
| ClangClCompilerVariant
| LibClangCompilerVariant.

#[global] Instance cls_eq_dec : EqDecision cls.
Proof. solve_decision. Defined.

(** The method resolution order: the class, then its bases. *)
Definition mro (c : cls) : list cls :=
  match c with
  | CompilerVariant => [CompilerVariant]
  | ClangCompilerVariant => [ClangCompilerVariant; CompilerVariant]
  | ClangClCompilerVariant =>
      [ClangClCompilerVariant; ClangCompilerVariant; CompilerVariant]
  | LibClangCompilerVariant => [LibClangCompilerVariant; CompilerVariant]
  end.

(** Attribute lookup: the first class of the order that defines it. *)
Definition getattr {A} (name : string) (own : cls -> option A) (self : cls)
  : M A :=
  match omap own (mro self) with
  | a :: _ => ret a
  | [] => raise (AttributeError name)
  end.

Module ClangCompilerVariant_.

Definition init_flags : list string := ["-c"; "-fsyntax-only"; "-x c++"].

Definition error_regex : Pattern := {|
  pattern := "(?P<file>.*)" +:+
             ":(?P<row>\d+):(?P<col>\d+)" +:+
             ":\s*.*error: (?P<error>.*)";
  program := cat_all [
    Group "file" (Rep Char.any 0);
    Lit ":"; Group "row" (Rep Char.digit 1);
    Lit ":"; Group "col" (Rep Char.digit 1);
    Lit ":"; Rep Char.space 0; Rep Char.any 0; Str "error: ";
    Group "error" (Rep Char.any 0) ]
|}.

End ClangCompilerVariant_.

Module ClangClCompilerVariant_.

Definition init_flags : list string := ["-c"; "-fsyntax-only"].

Definition error_regex : Pattern := {|
  pattern := "(?P<file>.*)" +:+
             "\((?P<row>\d+),(?P<col>\d+)\)\s*" +:+
             ":\s*.*error: (?P<error>.*)";
  program := cat_all [
    Group "file" (Rep Char.any 0);
    Lit "("; Group "row" (Rep Char.digit 1);
    Lit ","; Group "col" (Rep Char.digit 1);
    Lit ")"; Rep Char.space 0;
    Lit ":"; Rep Char.space 0; Rep Char.any 0; Str "error: ";
    Group "error" (Rep Char.any 0) ]
|}.

End ClangClCompilerVariant_.

Module LibClangCompilerVariant_.

Definition pos_regex : Pattern := {|
  pattern := "'(?P<file>.+)'.*" +:+
             "line\s(?P<row>\d+), " +:+
             "column\s(?P<col>\d+)";
  program := cat_all [
    Lit "'"; Group "file" (Rep Char.any 1); Lit "'"; Rep Char.any 0;
    Str "line"; Cls Char.space; Group "row" (Rep Char.digit 1); Str ", ";
    Str "column"; Cls Char.space; Group "col" (Rep Char.digit 1) ]
|}.

Definition msg_regex : Pattern := {|
  pattern := String Char.quote "*(?P<error>.+)" +:+ String Char.quote "*";
  program := cat_all [
    Rep (Char.only Char.quote) 0;
    Group "error" (Rep Char.any 1);
    Rep (Char.only Char.quote) 0 ]
|}.

End LibClangCompilerVariant_.

(** The attributes each class body defines itself. *)
Definition own_init_flags (c : cls) : option (list string) :=
  match c with
  | ClangCompilerVariant => Some ClangCompilerVariant_.init_flags
  | ClangClCompilerVariant => Some ClangClCompilerVariant_.init_flags
  | _ => None
  end.

Definition own_error_regex (c : cls) : option Pattern :=
  match c with
  | ClangCompilerVariant => Some ClangCompilerVariant_.error_regex
  | ClangClCompilerVariant => Some ClangClCompilerVariant_.error_regex
  | _ => None
  end.

Definition own_pos_regex (c : cls) : option Pattern :=
  match c with
  | LibClangCompilerVariant => Some LibClangCompilerVariant_.pos_regex
  | _ => None
  end.

Definition own_msg_regex (c : cls) : option Pattern :=
  match c with
  | LibClangCompilerVariant => Some LibClangCompilerVariant_.msg_regex
  | _ => None
  end.

Definition init_flags : cls -> M (list string) :=
  getattr "init_flags" own_init_flags.
Definition error_regex : cls -> M Pattern :=
  getattr "error_regex" own_error_regex.
Definition pos_regex : cls -> M Pattern := getattr "pos_regex" own_pos_regex.
Definition msg_regex : cls -> M Pattern := getattr "msg_regex" own_msg_regex.

(** *** CompilerVariant.errors_from_output *)

Definition CompilerVariant_errors_from_output (self : cls) (o : output)
  : M (list ErrorRecord) :=
  raise (NotImplementedError "calling abstract method").

(** *** ClangCompilerVariant.errors_from_output *)

(** The body of [for line in output.splitlines()], with the list
    [errors] built so far. *)
Fixpoint clang_loop (self : cls) (lines : list string)
         (errors : list ErrorRecord) : M (list ErrorRecord) :=
  match lines with
  | [] => mret errors
  | line :: lines' =>
      re ← error_regex self;
      let error_search := Pattern_search re line in
      match error_search with
      | None => clang_loop self lines' errors
      | Some m =>
          let error_dict := Match_groupdict re m in
          clang_loop self lines' (errors ++ [error_dict])
      end
  end.

Definition ClangCompilerVariant_errors_from_output (self : cls) (o : output)
  : M (list ErrorRecord) :=
  lines ← output_splitlines o;
  clang_loop self lines [].

(** *** LibClangCompilerVariant.errors_from_output *)

Fixpoint libclang_loop (self : cls) (items : list item)
         (errors : list ErrorRecord) : M (list ErrorRecord) :=
  match items with
  | [] => mret errors
  | diag :: items' =>
      location ← item_location diag;
      spelling ← item_spelling diag;
      pos_re ← pos_regex self;
      let pos_search := Pattern_search pos_re location in
      msg_re ← msg_regex self;
      let msg_search := Pattern_search msg_re spelling in
      match pos_search with
      | None =>
          log_error "regex %s failed to match location: %s"
                    [pattern pos_re; location];;
          libclang_loop self items' errors
      | Some pm =>
          match msg_search with
          | None =>
              log_error "regex %s failed to match error: %s"
                        [pattern msg_re; spelling];;
              libclang_loop self items' errors
          | Some mm =>
              let error_dict := Match_groupdict pos_re pm in
              let error_dict :=
                dict_update error_dict (Match_groupdict msg_re mm) in
              libclang_loop self items' (errors ++ [error_dict])
          end
      end
  end.

Definition LibClangCompilerVariant_errors_from_output (self : cls)
           (o : output) : M (list ErrorRecord) :=
  libclang_loop self (output_iter o) [].

(** *** Method dispatch *)

Definition own_errors_from_output (c : cls)
  : option (cls -> output -> M (list ErrorRecord)) :=
  match c with
  | CompilerVariant => Some CompilerVariant_errors_from_output
  | ClangCompilerVariant => Some ClangCompilerVariant_errors_from_output
  | ClangClCompilerVariant => None
  | LibClangCompilerVariant => Some LibClangCompilerVariant_errors_from_output
  end.

(** [self.errors_from_output(output)] on an instance of class [self]. *)
Definition errors_from_output (self : cls) (o : output)
  : M (list ErrorRecord) :=
  method ← getattr "errors_from_output" own_errors_from_output self;
  method self o.

(** The three classes a caller instantiates. *)
Definition concrete (c : cls) : bool :=
  match c with
  | CompilerVariant => false
  | _ => true
  end.

(** The input each parser is written for. *)
Definition expected_input (c : cls) (o : output) : bool :=
  match c, o with
  | (ClangCompilerVariant | ClangClCompilerVariant), Text _ => true
  | LibClangCompilerVariant, Diagnostics _ => true
  | _, _ => false
  end.

(** A record with the four keys. *)
Definition error_record (file row col error : string) : ErrorRecord :=
  {[ "file" := VStr file; "row" := VStr row; "col" := VStr col;
     "error" := VStr error ]}.

(** ** What a match is

    [matches r s g s' g']: the pattern [r] matches a prefix of [s],
    leaving [s'], and the groups go from [g] to [g'].  This is the
    relation the matcher searches; it says nothing of the order in which
    the alternatives are tried. *)
Inductive matches : regex -> string -> gmap string string ->
                    string -> gmap string string -> Prop :=
| matches_Eps s g : matches Eps s g s g
| matches_Lit c s g : matches (Lit c) (String c s) g s g
| matches_Cls p c s g : p c = true -> matches (Cls p) (String c s) g s g
| matches_Rep p min t s g :
    all_chars p t = true -> min <= String.length t ->
    matches (Rep p min) (t +:+ s) g s g
| matches_Group n r s g s' g' :
    matches r s g s' g' ->
    matches (Group n r) s g s' (<[n := taken s s']> g')
| matches_Cat r1 r2 s g s1 g1 s2 g2 :
    matches r1 s g s1 g1 -> matches r2 s1 g1 s2 g2 ->
    matches (Cat r1 r2) s g s2 g2.

(** The record a line of compiler output contributes, if any. *)
Definition line_record (re : Pattern) (line : string) : option ErrorRecord :=
  Match_groupdict re <$> Pattern_search re line.

(** The record a diagnostic contributes, if any. *)
Definition diag_record (pos_re msg_re : Pattern) (d : Diagnostic)
  : option ErrorRecord :=
  pm ← Pattern_search pos_re (location d);
  mm ← Pattern_search msg_re (spelling d);
  Some (dict_update (Match_groupdict pos_re pm) (Match_groupdict msg_re mm)).

(** What is logged for a diagnostic. *)
Definition diag_log (pos_re msg_re : Pattern) (d : Diagnostic)
  : list log_record :=
  match Pattern_search pos_re (location d) with
  | None => [{| log_fmt := "regex %s failed to match location: %s";
                log_args := [pattern pos_re; location d] |}]
  | Some _ =>
      match Pattern_search msg_re (spelling d) with
      | None => [{| log_fmt := "regex %s failed to match error: %s";
                    log_args := [pattern msg_re; spelling d] |}]
      | Some _ => []
      end
  end.

(** The units of input a parser looks at one by one: the lines of a
    text, the diagnostics of a list. *)
Inductive entry : Type :=
| LineEntry (line : string)
| DiagEntry (d : Diagnostic).

Definition entries (o : output) : list entry :=
  match o with
  | Text s => LineEntry <$> splitlines s
  | Diagnostics ds => DiagEntry <$> ds
  end.

(** The record a variant makes of one entry, if any. *)
Definition entry_record (self : cls) (e : entry) : option ErrorRecord :=
  match self, e with
  | ClangCompilerVariant, LineEntry l =>
      line_record ClangCompilerVariant_.error_regex l
  | ClangClCompilerVariant, LineEntry l =>
      line_record ClangClCompilerVariant_.error_regex l
  | LibClangCompilerVariant, DiagEntry d =>
      diag_record LibClangCompilerVariant_.pos_regex
                  LibClangCompilerVariant_.msg_regex d
  | _, _ => None
  end.

(** No line boundary is left in a line. *)
Definition no_linebreak (s : string) : bool :=
  all_chars (fun c => negb (Char.linebreak c)) s.

(** The Clang pattern after its file group. *)
Definition clang_after_file : regex :=
  cat_all [ Lit ":"; Group "row" (Rep Char.digit 1);
            Lit ":"; Group "col" (Rep Char.digit 1);
            Lit ":"; Rep Char.space 0; Rep Char.any 0; Str "error: ";
            Group "error" (Rep Char.any 0) ].

(** What both text patterns end with: white space, any text, the
    literal [error: ] and the error group. *)
Definition error_tail : regex :=
  cat_all [ Rep Char.space 0; Rep Char.any 0; Str "error: ";
            Group "error" (Rep Char.any 0) ].

(** The ClangCl pattern after its file group. *)
Definition clang_cl_after_file : regex :=
  cat_all [ Lit "("; Group "row" (Rep Char.digit 1);
            Lit ","; Group "col" (Rep Char.digit 1);
            Lit ")"; Rep Char.space 0;
            Lit ":"; Rep Char.space 0; Rep Char.any 0; Str "error: ";
            Group "error" (Rep Char.any 0) ].

(** ** The file field as the specification words it

    "file = everything up to the first [:row:col] triple": a triple is a
    colon, a run of digits, a colon and a run of digits. *)
Fixpoint skip_digits (s : string) : string :=
  match s with
  | String c s' => if Char.digit c then skip_digits s' else s
  | EmptyString => s
  end.

(** [s] starts with a run of digits; what follows the run. *)
Definition after_number (s : string) : option string :=
  match s with
  | String c s' => if Char.digit c then Some (skip_digits s') else None
  | EmptyString => None
  end.

Definition starts_with_triple (s : string) : bool :=
  match s with
  | String c s1 =>
      if Ascii.eqb c ":" then
        match after_number s1 with
        | Some (String c2 s2) =>
            Ascii.eqb c2 ":" && bool_decide (is_Some (after_number s2))
        | _ => false
        end
      else false
  | EmptyString => false
  end.

Fixpoint before_first_triple (s : string) : option string :=
  if starts_with_triple s then Some ""
  else match s with
       | String c s' => String c <$> before_first_triple s'
       | EmptyString => None
       end.

(** * The parsers on Unicode text

    A Python [str] is a sequence of code points, up to 0x10FFFF.  The
    definitions above hold text as [string], one [ascii] per character,
    and stop at code point 255; on that range they are exact.  The
    classes of a str pattern go further: [\d] is every decimal digit of
    the Unicode database (category Nd), [\s] every white space of the
    database, and [str.splitlines] knows two more line boundaries.

    This module is the same code over sequences of code points of any
    size.  The tables are those of version 14.0 of the database; an
    older or newer database differs in the runs of digits it knows. *)
Module Unicode.

Local Open Scope N_scope.

(** A text: its code points. *)
Definition text : Type := list N.

(** A literal of the source, which holds ASCII characters only. *)
Definition of_string (s : string) : text :=
  N_of_ascii <$> list_ascii_of_string s.

Module Char.

Definition LF : N := 10.
Definition CR : N := 13.
Definition quote : N := 34.

(** [.] without DOTALL: anything but a line feed. *)
Definition any (c : N) : bool := negb (c =? LF).

(** The digit zero of every run of ten decimal digits (category Nd). *)
Definition decimal_zeros : list N :=
  [ 0x30; 0x660; 0x6F0; 0x7C0; 0x966; 0x9E6; 0xA66; 0xAE6; 0xB66; 0xBE6;
    0xC66; 0xCE6; 0xD66; 0xDE6; 0xE50; 0xED0; 0xF20; 0x1040; 0x1090;
    0x17E0; 0x1810; 0x1946; 0x19D0; 0x1A80; 0x1A90; 0x1B50; 0x1BB0;
    0x1C40; 0x1C50; 0xA620; 0xA8D0; 0xA900; 0xA9D0; 0xA9F0; 0xAA50;
    0xABF0; 0xFF10; 0x104A0; 0x10D30; 0x11066; 0x110F0; 0x11136; 0x111D0;
    0x112F0; 0x11450; 0x114D0; 0x11650; 0x116C0; 0x11730; 0x118E0;
    0x11950; 0x11C50; 0x11D50; 0x11DA0; 0x16A60; 0x16AC0; 0x16B50;
    0x1D7CE; 0x1D7D8; 0x1D7E2; 0x1D7EC; 0x1D7F6; 0x1E140; 0x1E2F0;
    0x1E950; 0x1FBF0 ].

(** [\d] of a str pattern: a Unicode decimal digit. *)
Definition digit (c : N) : bool :=
  existsb (fun zero => (zero <=? c) && (c <? zero + 10)) decimal_zeros.

(** [\s] of a str pattern: Unicode white space. *)
Definition space (c : N) : bool :=
  ((9 <=? c) && (c <=? 13)) || ((28 <=? c) && (c <=? 32))
  || (c =? 0x85) || (c =? 0xA0) || (c =? 0x1680)
  || ((0x2000 <=? c) && (c <=? 0x200A))
  || (c =? 0x2028) || (c =? 0x2029) || (c =? 0x202F) || (c =? 0x205F)
  || (c =? 0x3000).

(** The line boundaries of [str.splitlines]. *)
Definition linebreak (c : N) : bool :=
  ((10 <=? c) && (c <=? 13)) || ((28 <=? c) && (c <=? 30))
  || (c =? 0x85) || (c =? 0x2028) || (c =? 0x2029).

(** A one-character literal, as a class. *)
Definition only (a : N) (c : N) : bool := c =? a.

End Char.

(** [taken s s'] is the text consumed between the position where [s]
    remains and the later position where [s'] remains. *)
Definition taken (s s' : text) : text :=
  take (length s - length s')%nat s.

(** [str.splitlines()]: [cur] is the line read so far.  A CR directly
    followed by LF is one boundary; a text that ends with a boundary has
    no empty last line. *)
Fixpoint splitlines_from (cur : text) (s : text) : list text :=
  match s with
  | [] =>
      match cur with
      | [] => []
      | _ => [cur]
      end
  | c :: s' =>
      if Char.linebreak c then
        match s' with
        | c' :: s'' =>
            if (c =? Char.CR) && (c' =? Char.LF)
            then cur :: splitlines_from [] s''
            else cur :: splitlines_from [] s'
        | [] => [cur]
        end
      else splitlines_from (cur ++ [c]) s'
  end.

Definition splitlines (s : text) : list text := splitlines_from [] s.

(** Python values stored in a [groupdict]. *)
Inductive value : Type :=
| VNone
| VStr (s : text).

(** The constructs of the four patterns, as above. *)
Inductive regex : Type :=
| Eps
| Lit (c : N)
| Cls (p : N -> bool)
| Rep (p : N -> bool) (min : nat)
| Group (name : string) (r : regex)
| Cat (r1 r2 : regex).

Fixpoint Str (s : text) : regex :=
  match s with
  | [] => Eps
  | c :: s' => Cat (Lit c) (Str s')
  end.

Definition cat_all (rs : list regex) : regex := fold_right Cat Eps rs.

Fixpoint group_names (r : regex) : list string :=
  match r with
  | Eps | Lit _ | Cls _ | Rep _ _ => []
  | Group n r => n :: group_names r
  | Cat r1 r2 => group_names r1 ++ group_names r2
  end.

Section Matcher.

Context {A : Type}.

(** Greedy repetition with backtracking. *)
Fixpoint greedy (p : N -> bool) (min : nat) (s : text)
         (k : text -> option A) : option A :=
  match s with
  | c :: s' =>
      if p c then
        match greedy p (pred min) s' k with
        | Some a => Some a
        | None => match min with 0%nat => k s | S _ => None end
        end
      else match min with 0%nat => k s | S _ => None end
  | [] => match min with 0%nat => k s | S _ => None end
  end.

(** The backtracking matcher, in continuation-passing style. *)
Fixpoint exec (r : regex) (s : text) (g : gmap string text)
         (k : text -> gmap string text -> option A) : option A :=
  match r with
  | Eps => k s g
  | Lit c =>
      match s with
      | c' :: s' => if c' =? c then k s' g else None
      | [] => None
      end
  | Cls p =>
      match s with
      | c' :: s' => if p c' then k s' g else None
      | [] => None
      end
  | Rep p min => greedy p min s (fun s' => k s' g)
  | Group n r => exec r s g (fun s' g' => k s' (<[n := taken s s']> g'))
  | Cat r1 r2 => exec r1 s g (fun s1 g1 => exec r2 s1 g1 k)
  end.

End Matcher.

(** [pattern.match]: a match anchored at the start of [s]. *)
Definition match_at (r : regex) (s : text) : option (gmap string text) :=
  exec r s ∅ (fun _ g => Some g).

(** [pattern.search]: the match at the leftmost position that has one. *)
Fixpoint search (r : regex) (s : text) : option (gmap string text) :=
  match match_at r s with
  | Some g => Some g
  | None =>
      match s with
      | [] => None
      | _ :: s' => search r s'
      end
  end.

(** [match.groupdict()]. *)
Definition groupdict (r : regex) (g : gmap string text) : gmap string value :=
  list_to_map
    (map (fun n => (n, match g !! n with Some t => VStr t | None => VNone end))
         (group_names r)).

Record Pattern : Type := {
  pattern : text;
  program : regex
}.

Definition Pattern_search (re : Pattern) (s : text)
  : option (gmap string text) :=
  search (program re) s.

Definition Match_groupdict (re : Pattern) (m : gmap string text)
  : gmap string value :=
  groupdict (program re) m.

Abbreviation ErrorRecord := (gmap string value).

(** [d.update(e)]: the keys of [e] win. *)
Definition dict_update (d e : gmap string value) : gmap string value := e ∪ d.

(** A call of [log.error(fmt, *args)]. *)
Record log_record : Type := {
  log_fmt : string;
  log_args : list text
}.

(** A computation returns or raises, and leaves the records it logged. *)
Definition M (A : Type) : Type := (result A * list log_record)%type.

Definition ret {A} (a : A) : M A := (Ok a, []).
Definition raise {A} (e : exn) : M A := (Raise e, []).
Definition log_error (fmt : string) (args : list text) : M unit :=
  (Ok tt, [{| log_fmt := fmt; log_args := args |}]).
Definition bind {A B} (f : A -> M B) (m : M A) : M B :=
  match m with
  | (Ok a, l) => let '(r, l') := f a in (r, l ++ l')
  | (Raise e, l) => (Raise e, l)
  end.

#[global] Instance M_ret : MRet M := @ret.
#[global] Instance M_bind : MBind M := @bind.

Record Diagnostic : Type := {
  location : text;
  spelling : text
}.

Inductive output : Type :=
| Text (s : text)
| Diagnostics (ds : list Diagnostic).

(** [output.splitlines()]: a list has no such method. *)
Definition output_splitlines (o : output) : M (list text) :=
  match o with
  | Text s => ret (splitlines s)
  | Diagnostics _ => raise (AttributeError "splitlines")
  end.

(** The items [for diag in output] runs over. *)
Inductive item : Type :=
| ItemChar (c : N)
| ItemDiag (d : Diagnostic).

Definition output_iter (o : output) : list item :=
  match o with
  | Text s => map ItemChar s
  | Diagnostics ds => map ItemDiag ds
  end.

Definition item_location (i : item) : M text :=
  match i with
  | ItemDiag d => ret (location d)
  | ItemChar _ => raise (AttributeError "location")
  end.

Definition item_spelling (i : item) : M text :=
  match i with
  | ItemDiag d => ret (spelling d)
  | ItemChar _ => raise (AttributeError "spelling")
  end.

(** Attribute lookup: the first class of the order that defines it. *)
Definition getattr {A} (name : string) (own : cls -> option A) (self : cls)
  : M A :=
  match omap own (mro self) with
  | a :: _ => ret a
  | [] => raise (AttributeError name)
  end.

Module ClangCompilerVariant_.

Definition error_regex : Pattern := {|
  pattern := of_string ("(?P<file>.*)" +:+
                        ":(?P<row>\d+):(?P<col>\d+)" +:+
                        ":\s*.*error: (?P<error>.*)");
  program := cat_all [
    Group "file" (Rep Char.any 0);
    Lit 58; Group "row" (Rep Char.digit 1);
    Lit 58; Group "col" (Rep Char.digit 1);
    Lit 58; Rep Char.space 0; Rep Char.any 0; Str (of_string "error: ");
    Group "error" (Rep Char.any 0) ]
|}.

End ClangCompilerVariant_.

Module ClangClCompilerVariant_.

Definition error_regex : Pattern := {|
  pattern := of_string ("(?P<file>.*)" +:+
                        "\((?P<row>\d+),(?P<col>\d+)\)\s*" +:+
                        ":\s*.*error: (?P<error>.*)");
  program := cat_all [
    Group "file" (Rep Char.any 0);
    Lit 40; Group "row" (Rep Char.digit 1);
    Lit 44; Group "col" (Rep Char.digit 1);
    Lit 41; Rep Char.space 0;
    Lit 58; Rep Char.space 0; Rep Char.any 0; Str (of_string "error: ");
    Group "error" (Rep Char.any 0) ]
|}.

End ClangClCompilerVariant_.

Module LibClangCompilerVariant_.

Definition pos_regex : Pattern := {|
  pattern := of_string ("'(?P<file>.+)'.*" +:+
                        "line\s(?P<row>\d+), " +:+
                        "column\s(?P<col>\d+)");
  program := cat_all [
    Lit 39; Group "file" (Rep Char.any 1); Lit 39; Rep Char.any 0;
    Str (of_string "line"); Cls Char.space;
    Group "row" (Rep Char.digit 1); Str (of_string ", ");
    Str (of_string "column"); Cls Char.space;
    Group "col" (Rep Char.digit 1) ]
|}.

Definition msg_regex : Pattern := {|
  pattern := Char.quote :: of_string "*(?P<error>.+)"
             ++ Char.quote :: of_string "*";
  program := cat_all [
    Rep (Char.only Char.quote) 0;
    Group "error" (Rep Char.any 1);
    Rep (Char.only Char.quote) 0 ]
|}.

End LibClangCompilerVariant_.

(** The attributes each class body defines itself. *)
Definition own_error_regex (c : cls) : option Pattern :=
  match c with
  | ClangCompilerVariant => Some ClangCompilerVariant_.error_regex
  | ClangClCompilerVariant => Some ClangClCompilerVariant_.error_regex
  | _ => None
  end.

Definition own_pos_regex (c : cls) : option Pattern :=
  match c with
  | LibClangCompilerVariant => Some LibClangCompilerVariant_.pos_regex
  | _ => None
  end.

Definition own_msg_regex (c : cls) : option Pattern :=
  match c with
  | LibClangCompilerVariant => Some LibClangCompilerVariant_.msg_regex
  | _ => None
  end.

Definition error_regex : cls -> M Pattern :=
  getattr "error_regex" own_error_regex.
Definition pos_regex : cls -> M Pattern := getattr "pos_regex" own_pos_regex.
Definition msg_regex : cls -> M Pattern := getattr "msg_regex" own_msg_regex.

(** [CompilerVariant.errors_from_output] *)
Definition CompilerVariant_errors_from_output (self : cls) (o : output)
  : M (list ErrorRecord) :=
  raise (NotImplementedError "calling abstract method").

(** [ClangCompilerVariant.errors_from_output] *)
Fixpoint clang_loop (self : cls) (lines : list text)
         (errors : list ErrorRecord) : M (list ErrorRecord) :=
  match lines with
  | [] => mret errors
  | line :: lines' =>
      re ← error_regex self;
      let error_search := Pattern_search re line in
      match error_search with
      | None => clang_loop self lines' errors
      | Some m =>
          let error_dict := Match_groupdict re m in
          clang_loop self lines' (errors ++ [error_dict])
      end
  end.

Definition ClangCompilerVariant_errors_from_output (self : cls) (o : output)
  : M (list ErrorRecord) :=
  lines ← output_splitlines o;
  clang_loop self lines [].

(** [LibClangCompilerVariant.errors_from_output] *)
Fixpoint libclang_loop (self : cls) (items : list item)
         (errors : list ErrorRecord) : M (list ErrorRecord) :=
  match items with
  | [] => mret errors
  | diag :: items' =>
      location ← item_location diag;
      spelling ← item_spelling diag;
      pos_re ← pos_regex self;
      let pos_search := Pattern_search pos_re location in
      msg_re ← msg_regex self;
      let msg_search := Pattern_search msg_re spelling in
      match pos_search with
      | None =>
          log_error "regex %s failed to match location: %s"
                    [pattern pos_re; location];;
          libclang_loop self items' errors
      | Some pm =>
          match msg_search with
          | None =>
              log_error "regex %s failed to match error: %s"
                        [pattern msg_re; spelling];;
              libclang_loop self items' errors
          | Some mm =>
              let error_dict := Match_groupdict pos_re pm in
              let error_dict :=
                dict_update error_dict (Match_groupdict msg_re mm) in
              libclang_loop self items' (errors ++ [error_dict])
          end
      end
  end.

Definition LibClangCompilerVariant_errors_from_output (self : cls)
           (o : output) : M (list ErrorRecord) :=
  libclang_loop self (output_iter o) [].

(** Method dispatch. *)
Definition own_errors_from_output (c : cls)
  : option (cls -> output -> M (list ErrorRecord)) :=
  match c with
  | CompilerVariant => Some CompilerVariant_errors_from_output
  | ClangCompilerVariant => Some ClangCompilerVariant_errors_from_output
  | ClangClCompilerVariant => None
  | LibClangCompilerVariant => Some LibClangCompilerVariant_errors_from_output
  end.

(** [self.errors_from_output(output)] on an instance of class [self]. *)
Definition errors_from_output (self : cls) (o : output)
  : M (list ErrorRecord) :=
  method ← getattr "errors_from_output" own_errors_from_output self;
  method self o.

(** The input each parser is written for. *)
Definition expected_input (c : cls) (o : output) : bool :=
  match c, o with
  | (ClangCompilerVariant | ClangClCompilerVariant), Text _ => true
  | LibClangCompilerVariant, Diagnostics _ => true
  | _, _ => false
  end.

(** A record with the four keys. *)
Definition error_record (file row col error : text) : ErrorRecord :=
  {[ "file" := VStr file; "row" := VStr row; "col" := VStr col;
     "error" := VStr error ]}.

(** The record a line of compiler output contributes, if any. *)
Definition line_record (re : Pattern) (line : text) : option ErrorRecord :=
  Match_groupdict re <$> Pattern_search re line.

(** The record a diagnostic contributes, if any. *)
Definition diag_record (pos_re msg_re : Pattern) (d : Diagnostic)
  : option ErrorRecord :=
  pm ← Pattern_search pos_re (location d);
  mm ← Pattern_search msg_re (spelling d);
  Some (dict_update (Match_groupdict pos_re pm) (Match_groupdict msg_re mm)).

(** What is logged for a diagnostic. *)
Definition diag_log (pos_re msg_re : Pattern) (d : Diagnostic)
  : list log_record :=
  match Pattern_search pos_re (location d) with
  | None => [{| log_fmt := "regex %s failed to match location: %s";
                log_args := [pattern pos_re; location d] |}]
  | Some _ =>
      match Pattern_search msg_re (spelling d) with
      | None => [{| log_fmt := "regex %s failed to match error: %s";
                    log_args := [pattern msg_re; spelling d] |}]
      | Some _ => []
      end
  end.

(** The decimal digits when read as the ten characters [0] to [9],
    the reading of the specification that the code does not keep. *)
Definition digit_0_to_9 (c : N) : bool := (48 <=? c) && (c <=? 57).

End Unicode.

(** * Properties *)

(** ** Strings *)

Section Strings.

Implicit Types (s t u : string) (c : ascii) (p : ascii -> bool).

Lemma sapp_cons c s t : String c s +:+ t = String c (s +:+ t).
Proof. reflexivity. Qed.

Lemma sapp_nil_l s : "" +:+ s = s.
Proof. reflexivity. Qed.

Lemma sapp_nil_r s : s +:+ "" = s.
Proof. induction s as [|c s IH]; [done|]. by rewrite sapp_cons, IH. Qed.

Lemma sapp_assoc s t u : (s +:+ t) +:+ u = s +:+ t +:+ u.
Proof. induction s as [|c s IH]; [done|]. by rewrite !sapp_cons, IH. Qed.

Lemma length_sapp s t :
  String.length (s +:+ t) = String.length s + String.length t.
Proof. induction s as [|c s IH]; [done|]. rewrite sapp_cons. simpl. lia. Qed.

Lemma substring_app s t : substring 0 (String.length s) (s +:+ t) = s.
Proof.
  induction s as [|c s IH].
  - by destruct t.
  - rewrite sapp_cons. simpl. by rewrite IH.
Qed.

Lemma taken_app t s : taken (t +:+ s) s = t.
Proof.
  unfold taken. rewrite length_sapp.
  replace (String.length t + String.length s - String.length s)
    with (String.length t) by lia.
  apply substring_app.
Qed.

Lemma sapp_eq_nil s t : s +:+ t = "" -> s = "" /\ t = "".
Proof. destruct s; [done|]. by rewrite sapp_cons. Qed.

Lemma all_chars_app p s t :
  all_chars p (s +:+ t) = all_chars p s && all_chars p t.
Proof.
  induction s as [|c s IH]; [done|].
  rewrite sapp_cons. simpl. by rewrite IH, andb_assoc.
Qed.

(** Two ways of cutting one text: one cut is a prefix of the other. *)
Lemma sapp_eq_app s1 t1 s2 t2 :
  s1 +:+ t1 = s2 +:+ t2 ->
  String.length s1 <= String.length s2 ->
  exists u, s2 = s1 +:+ u /\ t1 = u +:+ t2.
Proof.
  revert s2. induction s1 as [|c s1 IH]; intros s2 Heq Hlen.
  - exists s2. by rewrite !sapp_nil_l in *.
  - destruct s2 as [|c2 s2]; simpl in Hlen; [lia|].
    rewrite !sapp_cons in Heq. injection Heq as -> Heq.
    destruct (IH s2 Heq) as (u & -> & ->); [lia|].
    by exists u.
Qed.

Lemma sapp_inv_length s1 t1 s2 t2 :
  s1 +:+ t1 = s2 +:+ t2 -> String.length s1 = String.length s2 ->
  s1 = s2 /\ t1 = t2.
Proof.
  intros Heq Hlen.
  destruct (sapp_eq_app _ _ _ _ Heq) as (u & Hs & Ht); [lia|].
  assert (u = "") as ->.
  { apply (f_equal String.length) in Hs. rewrite length_sapp in Hs.
    destruct u; [done|]. simpl in Hs. lia. }
  by rewrite sapp_nil_r in Hs.
Qed.

End Strings.

(** ** The greedy repetition *)

Section Greedy.

Context {A : Type}.
Implicit Types (k : string -> option A) (p : ascii -> bool).

(** A success of [greedy] is a success of the continuation after a run
    of [p] of at least [min] characters. *)
Lemma greedy_sound p min s k a :
  greedy p min s k = Some a ->
  exists t s', s = t +:+ s' /\ all_chars p t = true /\
               min <= String.length t /\ k s' = Some a.
Proof.
  revert min. induction s as [|c s IH]; intros min; simpl.
  - destruct min; [|done]. intros Hk. by exists "", "".
  - destruct (p c) eqn:Hc.
    + destruct (greedy p (pred min) s k) as [a'|] eqn:Hg.
      * intros [= ->]. destruct (IH _ Hg) as (t & s' & -> & Ht & Hmin & Hk).
        exists (String c t), s'. simpl. rewrite Hc, Ht.
        repeat split; [lia|done].
      * destruct min; [|done]. intros Hk. by exists "", (String c s).
    + destruct min; [|done]. intros Hk. by exists "", (String c s).
Qed.

(** Every run of [p] of at least [min] characters is tried. *)
Lemma greedy_complete p min t s' k :
  all_chars p t = true -> min <= String.length t -> is_Some (k s') ->
  is_Some (greedy p min (t +:+ s') k).
Proof.
  revert min. induction t as [|c t IH]; intros min Ht Hmin Hk.
  - simpl in Hmin. assert (min = 0) as -> by lia. rewrite sapp_nil_l.
    destruct s' as [|c s]; simpl; [done|].
    destruct (p c); [|done]. by destruct (greedy p 0 s k).
  - rewrite sapp_cons. simpl in *. apply andb_prop in Ht as [Hc Ht].
    rewrite Hc. destruct (IH (pred min) Ht ltac:(lia) Hk) as [a ->]. done.
Qed.

(** The run that [greedy] settles on is the longest one on which the
    continuation succeeds. *)
Lemma greedy_longest p min s k a :
  greedy p min s k = Some a ->
  exists t s', s = t +:+ s' /\ all_chars p t = true /\
               min <= String.length t /\ k s' = Some a /\
               forall t2 s2, s = t2 +:+ s2 -> all_chars p t2 = true ->
                             String.length t < String.length t2 ->
                             k s2 = None.
Proof.
  revert min. induction s as [|c s IH]; intros min; simpl.
  - destruct min; [|done]. intros Hk. exists "", "".
    repeat split; [done..|]. intros t2 s2 Heq _ Hlen.
    symmetry in Heq. apply sapp_eq_nil in Heq as [-> _]. simpl in Hlen. lia.
  - assert (Hshort : match min with 0 => k (String c s) | S _ => None end
                     = Some a ->
            (forall t2 s2, String c s = t2 +:+ s2 -> all_chars p t2 = true ->
                           0 < String.length t2 -> k s2 = None) ->
            exists t s', String c s = t +:+ s' /\ all_chars p t = true /\
               min <= String.length t /\ k s' = Some a /\
               forall t2 s2, String c s = t2 +:+ s2 ->
                             all_chars p t2 = true ->
                             String.length t < String.length t2 ->
                             k s2 = None).
    { destruct min; [|done]. intros Hk Hno. exists "", (String c s).
      repeat split; [done..|]. exact Hno. }
    destruct (p c) eqn:Hc.
    + destruct (greedy p (pred min) s k) as [a'|] eqn:Hg.
      * intros [= ->].
        destruct (IH _ Hg) as (t & s' & -> & Ht & Hmin & Hk & Hmax).
        exists (String c t), s'. simpl. rewrite Hc, Ht.
        repeat split; [lia|done|].
        intros [|c2 t2] s2 Heq Hall Hlen; simpl in Hlen; [lia|].
        rewrite sapp_cons in Heq. injection Heq as <- Heq.
        simpl in Hall. apply andb_prop in Hall as [_ Hall].
        apply (Hmax t2 s2 Heq Hall). lia.
      * intros Hk. apply Hshort; [done|].
        intros [|c2 t2] s2 Heq Hall Hlen; simpl in Hlen; [lia|].
        rewrite sapp_cons in Heq. injection Heq as <- Heq.
        simpl in Hall. apply andb_prop in Hall as [_ Hall].
        destruct (k s2) eqn:Hk2; [|done].
        destruct (greedy_complete p (pred min) t2 s2 k Hall) as [x Hx].
        { destruct min; [simpl; lia|done]. }
        { by rewrite Hk2. }
        rewrite <- Heq in Hx. congruence.
    + intros Hk. apply Hshort; [done|].
      intros [|c2 t2] s2 Heq Hall Hlen; simpl in Hlen; [lia|].
      rewrite sapp_cons in Heq. injection Heq as <- Heq.
      simpl in Hall. rewrite Hc in Hall. done.
Qed.

End Greedy.

(** ** The matcher against the relation *)

Section Exec.

Context {A : Type}.
Implicit Types (k : string -> gmap string string -> option A).

Lemma exec_sound r s g k a :
  exec r s g k = Some a ->
  exists s' g', matches r s g s' g' /\ k s' g' = Some a.
Proof.
  revert s g k. induction r as [|c|p|p min|n r IH|r1 IH1 r2 IH2];
    intros s g k; simpl.
  - intros Hk. exists s, g. split; [constructor|done].
  - destruct s as [|c' s]; [done|].
    destruct (Ascii.eqb_spec c' c) as [->|]; [|done].
    intros Hk. exists s, g. split; [constructor|done].
  - destruct s as [|c' s]; [done|]. destruct (p c') eqn:Hc; [|done].
    intros Hk. exists s, g. split; [by constructor|done].
  - intros Hg. apply greedy_sound in Hg as (t & s' & -> & Ht & Hmin & Hk).
    exists s', g. split; [by constructor|done].
  - intros He. apply IH in He as (s' & g' & Hm & Hk).
    eexists _, _. split; [by constructor|done].
  - intros He. apply IH1 in He as (s1 & g1 & Hm1 & He).
    apply IH2 in He as (s2 & g2 & Hm2 & Hk).
    exists s2, g2. split; [by econstructor|done].
Qed.

Lemma exec_complete r s g s' g' k :
  matches r s g s' g' -> is_Some (k s' g') -> is_Some (exec r s g k).
Proof.
  intros Hm. revert k.
  induction Hm as [s g|c s g|p c s g Hc|p min t s g Ht Hmin
                   |n r s g s' g' Hm IH
                   |r1 r2 s g s1 g1 s2 g2 Hm1 IH1 Hm2 IH2];
    intros k Hk; simpl.
  - done.
  - by rewrite Ascii.eqb_refl.
  - by rewrite Hc.
  - by apply greedy_complete.
  - by apply IH.
  - apply IH1. by apply IH2.
Qed.

End Exec.

(** What a match consumes is a prefix of the text. *)
Lemma matches_prefix r s g s' g' :
  matches r s g s' g' -> exists t, s = t +:+ s'.
Proof.
  induction 1 as [s g|c s g|p c s g Hc|p min t s g Ht Hmin
                  |n r s g s' g' Hm IH
                  |r1 r2 s g s1 g1 s2 g2 Hm1 IH1 Hm2 IH2].
  - by exists "".
  - by exists (String c "").
  - by exists (String c "").
  - by exists t.
  - done.
  - destruct IH1 as [t1 ->], IH2 as [t2 ->]. exists (t1 +:+ t2).
    by rewrite sapp_assoc.
Qed.

(** Every group of the pattern is closed by a match. *)
Lemma matches_groups r s g s' g' :
  matches r s g s' g' ->
  forall n, (n ∈ group_names r \/ is_Some (g !! n)) -> is_Some (g' !! n).
Proof.
  induction 1 as [s g|c s g|p c s g Hc|p min t s g Ht Hmin
                  |n r s g s' g' Hm IH
                  |r1 r2 s g s1 g1 s2 g2 Hm1 IH1 Hm2 IH2];
    intros m; simpl; rewrite ?elem_of_nil; try tauto.
  - rewrite elem_of_cons. destruct (decide (n = m)) as [->|Hne].
    + intros _. by rewrite lookup_insert_eq.
    + rewrite lookup_insert_ne by done. intros [[?|?]|?]; [done|..];
        apply IH; auto.
  - rewrite elem_of_app. intros [[?|?]|?]; apply IH2; auto.
Qed.

(** ** search *)

Lemma match_at_sound r s g :
  match_at r s = Some g -> exists s', matches r s ∅ s' g.
Proof.
  unfold match_at. intros He.
  apply exec_sound in He as (s' & g' & Hm & [= ->]). by exists s'.
Qed.

Lemma match_at_complete r s s' g :
  matches r s ∅ s' g -> is_Some (match_at r s).
Proof. intros Hm. unfold match_at. by eapply exec_complete. Qed.

Lemma search_sound r s g :
  search r s = Some g ->
  exists pre rest s', s = pre +:+ rest /\ matches r rest ∅ s' g.
Proof.
  induction s as [|c s IH]; simpl.
  - destruct (match_at r "") eqn:Hm; [|done]. intros [= ->].
    apply match_at_sound in Hm as [s' Hm]. by exists "", "", s'.
  - destruct (match_at r (String c s)) eqn:Hm.
    + intros [= ->]. apply match_at_sound in Hm as [s' Hm].
      by exists "", (String c s), s'.
    + intros Hs. destruct (IH Hs) as (pre & rest & s' & -> & Hm').
      by exists (String c pre), rest, s'.
Qed.

Lemma search_complete r pre rest s' g :
  matches r rest ∅ s' g -> is_Some (search r (pre +:+ rest)).
Proof.
  intros Hm. induction pre as [|c pre IH].
  - rewrite sapp_nil_l. apply match_at_complete in Hm as [g' Hg'].
    destruct rest; simpl; by rewrite Hg'.
  - rewrite sapp_cons. simpl.
    destruct (match_at r (String c (pre +:+ rest))); [done|]. exact IH.
Qed.

(** The match found at the start of the text, when there is one, is the
    result of the search. *)
Lemma search_at_start r s g :
  match_at r s = Some g -> search r s = Some g.
Proof. intros Hm. destruct s; simpl; by rewrite Hm. Qed.

(** ** Inverting and building matches *)

Section MatchesInv.

Implicit Types (s t : string) (g : gmap string string).

Lemma matches_Eps_inv s g s' g' :
  matches Eps s g s' g' -> s = s' /\ g' = g.
Proof. by inversion 1. Qed.

Lemma matches_Lit_inv c s g s' g' :
  matches (Lit c) s g s' g' -> s = String c s' /\ g' = g.
Proof. by inversion 1. Qed.

Lemma matches_Cls_inv p s g s' g' :
  matches (Cls p) s g s' g' ->
  exists c, s = String c s' /\ p c = true /\ g' = g.
Proof. inversion 1; subst. by eexists. Qed.

Lemma matches_Rep_inv p min s g s' g' :
  matches (Rep p min) s g s' g' ->
  exists t, s = t +:+ s' /\ all_chars p t = true /\
            min <= String.length t /\ g' = g.
Proof. inversion 1; subst. by eexists. Qed.

Lemma matches_Group_inv n r s g s' g' :
  matches (Group n r) s g s' g' ->
  exists g1, matches r s g s' g1 /\ g' = <[n := taken s s']> g1.
Proof. inversion 1; subst. by eexists. Qed.

Lemma matches_Cat_inv r1 r2 s g s' g' :
  matches (Cat r1 r2) s g s' g' ->
  exists s1 g1, matches r1 s g s1 g1 /\ matches r2 s1 g1 s' g'.
Proof. inversion 1; subst. by eexists _, _. Qed.

(** A named group around a repetition: the shape of every group of the
    four patterns. *)
Lemma matches_GroupRep_inv n p min s g s' g' :
  matches (Group n (Rep p min)) s g s' g' ->
  exists t, s = t +:+ s' /\ all_chars p t = true /\
            min <= String.length t /\ g' = <[n := t]> g.
Proof.
  intros (g1 & Hm & ->)%matches_Group_inv.
  apply matches_Rep_inv in Hm as (t & -> & Ht & Hmin & ->).
  exists t. by rewrite taken_app.
Qed.

Lemma matches_Str_inv t s g s' g' :
  matches (Str t) s g s' g' -> s = t +:+ s' /\ g' = g.
Proof.
  revert s. induction t as [|c t IH]; intros s; simpl.
  - by intros [-> ->]%matches_Eps_inv.
  - intros (s1 & g1 & Hc & Ht)%matches_Cat_inv.
    apply matches_Lit_inv in Hc as [-> ->].
    by apply IH in Ht as [-> ->].
Qed.

Lemma matches_Rep_intro p min t s g :
  all_chars p t = true -> min <= String.length t ->
  matches (Rep p min) (t +:+ s) g s g.
Proof. by constructor. Qed.

Lemma matches_GroupRep_intro n p min t s g :
  all_chars p t = true -> min <= String.length t ->
  matches (Group n (Rep p min)) (t +:+ s) g s (<[n := t]> g).
Proof.
  intros Ht Hmin. rewrite <- (taken_app t s) at 2.
  constructor. by constructor.
Qed.

Lemma matches_Str_intro t s g : matches (Str t) (t +:+ s) g s g.
Proof.
  induction t as [|c t IH]; simpl.
  - constructor.
  - rewrite sapp_cons. econstructor; [constructor|exact IH].
Qed.

End MatchesInv.

(** Takes a hypothesis [matches r ...] on a pattern written out and cuts
    it into the facts about its items. *)
Ltac invert_matches :=
  repeat match goal with
    | H : matches (Cat _ _) _ _ _ _ |- _ =>
        apply matches_Cat_inv in H as (? & ? & ? & ?)
    | H : matches (Group _ (Rep _ _)) _ _ _ _ |- _ =>
        apply matches_GroupRep_inv in H as (? & ? & ? & ? & ?)
    | H : matches (Rep _ _) _ _ _ _ |- _ =>
        apply matches_Rep_inv in H as (? & ? & ? & ? & ?)
    | H : matches (Str _) _ _ _ _ |- _ =>
        apply matches_Str_inv in H as (? & ?)
    | H : matches (Lit _) _ _ _ _ |- _ =>
        apply matches_Lit_inv in H as (? & ?)
    | H : matches (Cls _) _ _ _ _ |- _ =>
        apply matches_Cls_inv in H as (? & ? & ? & ?)
    | H : matches Eps _ _ _ _ |- _ =>
        apply matches_Eps_inv in H as (? & ?)
    end.

(** ** The loops *)

(** The Clang loop appends, line after line, the record of each line that
    has one. *)
Lemma clang_loop_spec self re lines errors :
  error_regex self = (Ok re, []) ->
  clang_loop self lines errors
  = (Ok (errors ++ omap (line_record re) lines), []).
Proof.
  intros Hre. revert errors.
  induction lines as [|line lines IH]; intros errors; simpl.
  - by rewrite List.app_nil_r.
  - rewrite Hre. unfold mbind, M_bind, bind, line_record. simpl.
    destruct (Pattern_search re line) as [m|]; simpl.
    + rewrite IH. by rewrite <- List.app_assoc.
    + by rewrite IH.
Qed.

(** The LibClang loop appends the record of each diagnostic that has one
    and logs the others. *)
Lemma libclang_loop_spec self pos_re msg_re ds errors :
  pos_regex self = (Ok pos_re, []) ->
  msg_regex self = (Ok msg_re, []) ->
  libclang_loop self (map ItemDiag ds) errors
  = (Ok (errors ++ omap (diag_record pos_re msg_re) ds),
     concat (map (diag_log pos_re msg_re) ds)).
Proof.
  intros Hpos Hmsg. revert errors.
  induction ds as [|d ds IH]; intros errors; simpl.
  - by rewrite List.app_nil_r.
  - rewrite Hpos, Hmsg. unfold mbind, M_bind, bind, diag_record, diag_log.
    simpl. destruct (Pattern_search pos_re (location d)) as [pm|]; simpl.
    + destruct (Pattern_search msg_re (spelling d)) as [mm|]; simpl.
      * rewrite IH. by rewrite <- List.app_assoc.
      * by rewrite IH.
    + by rewrite IH.
Qed.

(** ** errors_from_output, variant by variant *)

Lemma Clang_method_Text self re s :
  error_regex self = (Ok re, []) ->
  ClangCompilerVariant_errors_from_output self (Text s)
  = (Ok (omap (line_record re) (splitlines s)), []).
Proof.
  intros Hre. unfold ClangCompilerVariant_errors_from_output.
  unfold mbind, M_bind, bind. simpl.
  by rewrite (clang_loop_spec self re).
Qed.

Lemma LibClang_method_Diagnostics self pos_re msg_re ds :
  pos_regex self = (Ok pos_re, []) ->
  msg_regex self = (Ok msg_re, []) ->
  LibClangCompilerVariant_errors_from_output self (Diagnostics ds)
  = (Ok (omap (diag_record pos_re msg_re) ds),
     concat (map (diag_log pos_re msg_re) ds)).
Proof.
  intros Hpos Hmsg. unfold LibClangCompilerVariant_errors_from_output.
  simpl. by rewrite (libclang_loop_spec self pos_re msg_re).
Qed.

Lemma errors_from_output_Clang s :
  errors_from_output ClangCompilerVariant (Text s)
  = (Ok (omap (line_record ClangCompilerVariant_.error_regex) (splitlines s)),
     []).
Proof.
  unfold errors_from_output, mbind, M_bind, bind. simpl.
  by rewrite (Clang_method_Text _ ClangCompilerVariant_.error_regex).
Qed.

Lemma errors_from_output_ClangCl s :
  errors_from_output ClangClCompilerVariant (Text s)
  = (Ok (omap (line_record ClangClCompilerVariant_.error_regex)
              (splitlines s)), []).
Proof.
  unfold errors_from_output, mbind, M_bind, bind. simpl.
  by rewrite (Clang_method_Text _ ClangClCompilerVariant_.error_regex).
Qed.

Lemma errors_from_output_LibClang ds :
  errors_from_output LibClangCompilerVariant (Diagnostics ds)
  = (Ok (omap (diag_record LibClangCompilerVariant_.pos_regex
                           LibClangCompilerVariant_.msg_regex) ds),
     concat (map (diag_log LibClangCompilerVariant_.pos_regex
                           LibClangCompilerVariant_.msg_regex) ds)).
Proof.
  unfold errors_from_output, mbind, M_bind, bind. simpl.
  by rewrite (LibClang_method_Diagnostics _
                LibClangCompilerVariant_.pos_regex
                LibClangCompilerVariant_.msg_regex).
Qed.

Lemma omap_fmap_entries {X Y Z : Type} (g : X -> Y) (f : Y -> option Z)
      (l : list X) :
  omap f (g <$> l) = omap (fun x => f (g x)) l.
Proof.
  induction l as [|x l IH]; simpl; [done|].
  destruct (f (g x)); [f_equal|]; exact IH.
Qed.

(** On the input it is written for, a concrete variant returns the
    records of the entries, entry by entry. *)
Lemma errors_from_output_entries self o :
  concrete self = true -> expected_input self o = true ->
  exists lg, errors_from_output self o
             = (Ok (omap (entry_record self) (entries o)), lg).
Proof.
  intros Hc Hin. destruct self, o as [s|ds]; try discriminate; simpl.
  - rewrite errors_from_output_Clang. eexists. by rewrite omap_fmap_entries.
  - rewrite errors_from_output_ClangCl. eexists. by rewrite omap_fmap_entries.
  - rewrite errors_from_output_LibClang. eexists. by rewrite omap_fmap_entries.
Qed.

(** ** Lists: what [omap] keeps, it keeps in order *)

Section Omap.

Context {X Y : Type} (f : X -> option Y).

(** The entry at position [i], when it has an image, lands at the
    position that counts the entries with an image before it. *)
Lemma omap_lookup (l : list X) (i : nat) (x : X) (y : Y) :
  l !! i = Some x -> f x = Some y ->
  omap f l !! length (omap f (take i l)) = Some y.
Proof.
  intros Hi Hx.
  assert (Hl : omap f l
               = omap f (take i l) ++ y :: omap f (drop (S i) l)).
  { rewrite <- (take_drop_middle l i x Hi) at 1.
    rewrite omap_app. simpl. by rewrite Hx. }
  rewrite Hl, lookup_app_r by lia. by rewrite Nat.sub_diag.
Qed.

Lemma omap_take_lt (l : list X) (i j : nat) (x : X) (y : Y) :
  i < j -> l !! i = Some x -> f x = Some y ->
  length (omap f (take i l)) < length (omap f (take j l)).
Proof.
  intros Hij Hi Hx.
  assert (Hlen : length (take i l) = i).
  { apply length_take_le. apply lookup_lt_Some in Hi. lia. }
  assert (Hj : take j l = take i l ++ x :: take (j - S i) (drop (S i) l)).
  { rewrite <- (take_drop_middle l i x Hi) at 1.
    rewrite take_app_ge by lia. rewrite Hlen.
    replace (j - i) with (S (j - S i)) by lia. done. }
  rewrite Hj, omap_app, length_app. simpl. rewrite Hx. simpl. lia.
Qed.

End Omap.

(** ** The shape of what the patterns match *)

Lemma clang_error_regex_shape s g s' g' :
  matches (program ClangCompilerVariant_.error_regex) s g s' g' ->
  exists file row col ws mid err,
    s = file +:+ ":" +:+ row +:+ ":" +:+ col +:+ ":" +:+ ws +:+ mid
        +:+ "error: " +:+ err +:+ s' /\
    all_chars Char.any file = true /\
    all_chars Char.digit row = true /\ 1 <= String.length row /\
    all_chars Char.digit col = true /\ 1 <= String.length col /\
    all_chars Char.space ws = true /\
    all_chars Char.any mid = true /\ all_chars Char.any err = true /\
    g' = <["error" := err]> (<["col" := col]> (<["row" := row]>
           (<["file" := file]> g))).
Proof.
  cbn [program ClangCompilerVariant_.error_regex cat_all fold_right].
  intros Hm. invert_matches. subst.
  eexists _, _, _, _, _, _. repeat split; eauto.
Qed.

Lemma clang_cl_error_regex_shape s g s' g' :
  matches (program ClangClCompilerVariant_.error_regex) s g s' g' ->
  exists file row col ws1 ws2 mid err,
    s = file +:+ "(" +:+ row +:+ "," +:+ col +:+ ")" +:+ ws1 +:+ ":"
        +:+ ws2 +:+ mid +:+ "error: " +:+ err +:+ s' /\
    all_chars Char.any file = true /\
    all_chars Char.digit row = true /\ 1 <= String.length row /\
    all_chars Char.digit col = true /\ 1 <= String.length col /\
    all_chars Char.space ws1 = true /\ all_chars Char.space ws2 = true /\
    all_chars Char.any mid = true /\ all_chars Char.any err = true /\
    g' = <["error" := err]> (<["col" := col]> (<["row" := row]>
           (<["file" := file]> g))).
Proof.
  cbn [program ClangClCompilerVariant_.error_regex cat_all fold_right].
  intros Hm. invert_matches. subst.
  eexists _, _, _, _, _, _, _. repeat split; eauto.
Qed.

Lemma pos_regex_shape s g s' g' :
  matches (program LibClangCompilerVariant_.pos_regex) s g s' g' ->
  exists file mid sp1 row sp2 col,
    s = "'" +:+ file +:+ "'" +:+ mid +:+ "line" +:+ String sp1 row
        +:+ ", " +:+ "column" +:+ String sp2 col +:+ s' /\
    all_chars Char.any file = true /\ 1 <= String.length file /\
    all_chars Char.any mid = true /\
    Char.space sp1 = true /\ Char.space sp2 = true /\
    all_chars Char.digit row = true /\ 1 <= String.length row /\
    all_chars Char.digit col = true /\ 1 <= String.length col /\
    g' = <["col" := col]> (<["row" := row]> (<["file" := file]> g)).
Proof.
  cbn [program LibClangCompilerVariant_.pos_regex cat_all fold_right].
  intros Hm. invert_matches. subst.
  eexists _, _, _, _, _, _. repeat split; eauto.
Qed.

Lemma msg_regex_shape s g s' g' :
  matches (program LibClangCompilerVariant_.msg_regex) s g s' g' ->
  exists q1 err q2,
    s = q1 +:+ err +:+ q2 +:+ s' /\
    all_chars (Char.only Char.quote) q1 = true /\
    all_chars Char.any err = true /\ 1 <= String.length err /\
    all_chars (Char.only Char.quote) q2 = true /\
    g' = <["error" := err]> g.
Proof.
  cbn [program LibClangCompilerVariant_.msg_regex cat_all fold_right].
  intros Hm. invert_matches. subst.
  eexists _, _, _. repeat split; eauto.
Qed.

(** ** groupdict of the matches *)

Lemma groupdict_error_regex re file row col err :
  group_names (program re) = ["file"; "row"; "col"; "error"] ->
  Match_groupdict re
    (<["error" := err]> (<["col" := col]> (<["row" := row]>
       (<["file" := file]> ∅))))
  = error_record file row col err.
Proof.
  intros Hn. unfold Match_groupdict, groupdict, error_record. rewrite Hn.
  simpl. by simplify_map_eq.
Qed.

(** ** The record of one line, of one diagnostic *)

Lemma clang_line_record line d :
  line_record ClangCompilerVariant_.error_regex line = Some d ->
  exists pre file row col ws mid err post,
    line = pre +:+ file +:+ ":" +:+ row +:+ ":" +:+ col +:+ ":" +:+ ws
           +:+ mid +:+ "error: " +:+ err +:+ post /\
    all_chars Char.digit row = true /\ 1 <= String.length row /\
    all_chars Char.digit col = true /\ 1 <= String.length col /\
    d = error_record file row col err.
Proof.
  unfold line_record, Pattern_search.
  destruct (search _ line) as [g|] eqn:Hs; [|done]. intros [= <-].
  apply search_sound in Hs as (pre & rest & post & -> & Hm).
  apply clang_error_regex_shape in Hm
    as (file & row & col & ws & mid & err & -> & _ & Hr & Hr1 & Hc & Hc1
        & _ & _ & _ & ->).
  exists pre, file, row, col, ws, mid, err, post.
  repeat split; first [done | by apply groupdict_error_regex].
Qed.

Lemma clang_cl_line_record line d :
  line_record ClangClCompilerVariant_.error_regex line = Some d ->
  exists pre file row col ws1 ws2 mid err post,
    line = pre +:+ file +:+ "(" +:+ row +:+ "," +:+ col +:+ ")" +:+ ws1
           +:+ ":" +:+ ws2 +:+ mid +:+ "error: " +:+ err +:+ post /\
    all_chars Char.digit row = true /\ 1 <= String.length row /\
    all_chars Char.digit col = true /\ 1 <= String.length col /\
    d = error_record file row col err.
Proof.
  unfold line_record, Pattern_search.
  destruct (search _ line) as [g|] eqn:Hs; [|done]. intros [= <-].
  apply search_sound in Hs as (pre & rest & post & -> & Hm).
  apply clang_cl_error_regex_shape in Hm
    as (file & row & col & ws1 & ws2 & mid & err & -> & _ & Hr & Hr1 & Hc
        & Hc1 & _ & _ & _ & _ & ->).
  exists pre, file, row, col, ws1, ws2, mid, err, post.
  repeat split; first [done | by apply groupdict_error_regex].
Qed.

Lemma libclang_diag_record diag d :
  diag_record LibClangCompilerVariant_.pos_regex
              LibClangCompilerVariant_.msg_regex diag = Some d ->
  exists pre file mid sp1 row sp2 col post pre' q1 err q2 post',
    location diag = pre +:+ "'" +:+ file +:+ "'" +:+ mid +:+ "line"
                    +:+ String sp1 row +:+ ", " +:+ "column"
                    +:+ String sp2 col +:+ post /\
    spelling diag = pre' +:+ q1 +:+ err +:+ q2 +:+ post' /\
    all_chars Char.digit row = true /\ 1 <= String.length row /\
    all_chars Char.digit col = true /\ 1 <= String.length col /\
    all_chars (Char.only Char.quote) q1 = true /\
    all_chars (Char.only Char.quote) q2 = true /\
    1 <= String.length err /\
    d = error_record file row col err.
Proof.
  unfold diag_record, Pattern_search.
  destruct (search _ (location diag)) as [pm|] eqn:Hp; [|done].
  destruct (search _ (spelling diag)) as [mm|] eqn:Hm; [|done].
  simpl. intros [= <-].
  apply search_sound in Hp as (pre & rest & post & Hloc & Hp).
  apply search_sound in Hm as (pre' & rest' & post' & Hsp & Hm).
  apply pos_regex_shape in Hp
    as (file & mid & sp1 & row & sp2 & col & -> & _ & _ & _ & _ & _
        & Hr & Hr1 & Hc & Hc1 & ->).
  apply msg_regex_shape in Hm
    as (q1 & err & q2 & -> & Hq1 & _ & He & Hq2 & ->).
  exists pre, file, mid, sp1, row, sp2, col, post, pre', q1, err, q2, post'.
  repeat split; done.
Qed.

(** The fields of every record a variant makes of an entry. *)
Lemma entry_record_fields self e d :
  entry_record self e = Some d ->
  exists file row col err,
    d = error_record file row col err /\
    all_chars Char.digit row = true /\ 1 <= String.length row /\
    all_chars Char.digit col = true /\ 1 <= String.length col.
Proof.
  destruct self, e as [line|diag]; simpl; try done.
  - intros (pre & file & row & col & ws & mid & err & post & _ & ? & ? & ?
            & ? & ->)%clang_line_record.
    by exists file, row, col, err.
  - intros (pre & file & row & col & ws1 & ws2 & mid & err & post & _ & ?
            & ? & ? & ? & ->)%clang_cl_line_record.
    by exists file, row, col, err.
  - intros (pre & file & mid & sp1 & row & sp2 & col & post & pre' & q1 & err
            & q2 & post' & _ & _ & ? & ? & ? & ? & _ & _ & _ & ->)
             %libclang_diag_record.
    by exists file, row, col, err.
Qed.

Lemma dom_error_record file row col err :
  dom (error_record file row col err)
  = ({["file"; "row"; "col"; "error"]} : gset string).
Proof. unfold error_record. rewrite !dom_insert_L, dom_singleton_L. set_solver. Qed.

(** ** splitlines *)

Lemma splitlines_from_no_linebreak n : forall s cur,
  String.length s <= n -> no_linebreak cur = true ->
  Forall (fun l => no_linebreak l = true) (splitlines_from cur s).
Proof.
  induction n as [|n IH]; intros s cur Hlen Hcur.
  - destruct s; simpl in *; [|lia].
    destruct cur; [constructor|]. by repeat constructor.
  - destruct s as [|c s]; simpl in *.
    { destruct cur; [constructor|]. by repeat constructor. }
    destruct (Char.linebreak c) eqn:Hc.
    + destruct s as [|c' s]; [by repeat constructor|]. simpl in Hlen.
      destruct (Ascii.eqb c Char.CR && Ascii.eqb c' Char.LF);
        constructor; try done; apply IH; simpl; try done; lia.
    + apply IH; [lia|]. unfold no_linebreak in *.
      rewrite all_chars_app, Hcur. simpl. by rewrite Hc.
Qed.

Lemma splitlines_no_linebreak s line :
  In line (splitlines s) -> no_linebreak line = true.
Proof.
  intros Hin.
  pose proof (splitlines_from_no_linebreak (String.length s) s ""
                ltac:(lia) eq_refl) as Hall.
  rewrite Forall_forall in Hall. apply Hall. by apply list_elem_of_In.
Qed.

Lemma any_of_no_linebreak c : Char.linebreak c = false -> Char.any c = true.
Proof.
  unfold Char.any. destruct (Ascii.eqb_spec c Char.LF) as [->|]; [|done].
  by vm_compute.
Qed.

Lemma all_any_of_no_linebreak s :
  no_linebreak s = true -> all_chars Char.any s = true.
Proof.
  unfold no_linebreak. induction s as [|c s IH]; simpl; [done|].
  intros [Hc Hs]%andb_prop. apply negb_true_iff in Hc.
  by rewrite any_of_no_linebreak, IH.
Qed.

(** Every line that [splitlines] hands to the pattern is free of line
    feeds: [.] matches each of its characters. *)
Lemma splitlines_all_any s line :
  In line (splitlines s) -> all_chars Char.any line = true.
Proof. intros Hin. by eapply all_any_of_no_linebreak, splitlines_no_linebreak. Qed.

(** ** The Clang pattern is greedy in its file group *)

Lemma clang_program_split :
  program ClangCompilerVariant_.error_regex
  = Cat (Group "file" (Rep Char.any 0)) clang_after_file.
Proof. reflexivity. Qed.

(** A group around a repetition at the head of a pattern runs the greedy
    loop with the rest of the pattern as continuation. *)
Lemma exec_Cat_GroupRep {A} n p min r s g
      (k : string -> gmap string string -> option A) :
  exec (Cat (Group n (Rep p min)) r) s g k
  = greedy p min s (fun s' => exec r s' (<[n := taken s s']> g) k).
Proof. reflexivity. Qed.

Lemma clang_after_file_shape s g s' g' :
  matches clang_after_file s g s' g' ->
  exists row col ws mid err,
    s = ":" +:+ row +:+ ":" +:+ col +:+ ":" +:+ ws +:+ mid +:+ "error: "
        +:+ err +:+ s' /\
    all_chars Char.digit row = true /\ 1 <= String.length row /\
    all_chars Char.digit col = true /\ 1 <= String.length col /\
    all_chars Char.space ws = true /\
    g' = <["error" := err]> (<["col" := col]> (<["row" := row]> g)).
Proof.
  unfold clang_after_file. cbn [cat_all fold_right].
  intros Hm. invert_matches. subst.
  eexists _, _, _, _, _. split; [reflexivity|]. by repeat split.
Qed.

(** What follows the file group matches every text [:row:col:rest]
    whose [rest] holds [error: ] and no line feed. *)
Lemma clang_after_file_matches row col a b g :
  all_chars Char.digit row = true -> 1 <= String.length row ->
  all_chars Char.digit col = true -> 1 <= String.length col ->
  all_chars Char.any a = true -> all_chars Char.any b = true ->
  exists g',
    matches clang_after_file
            (":" +:+ row +:+ ":" +:+ col +:+ ":" +:+ a +:+ "error: " +:+ b)
            g "" g'.
Proof.
  intros Hr Hr1 Hc Hc1 Ha Hb. eexists.
  unfold clang_after_file. cbn [cat_all fold_right].
  eapply matches_Cat; [apply matches_Lit|].
  eapply matches_Cat; [by apply matches_GroupRep_intro|].
  eapply matches_Cat; [apply matches_Lit|].
  eapply matches_Cat; [by apply matches_GroupRep_intro|].
  eapply matches_Cat; [apply matches_Lit|].
  eapply matches_Cat; [by apply (matches_Rep_intro Char.space 0 "")|].
  eapply matches_Cat; [apply matches_Rep_intro; [done|lia]|].
  eapply matches_Cat; [apply matches_Str_intro|].
  eapply matches_Cat; [|apply matches_Eps].
  rewrite <- (sapp_nil_r b) at 1.
  apply matches_GroupRep_intro; [done|lia].
Qed.

(** A match of the Clang pattern at the start of a text without line
    feed: the file group is everything before the last [:row:col:] that
    is followed by [error: ]. *)
Lemma clang_match_at_longest line g :
  all_chars Char.any line = true ->
  match_at (program ClangCompilerVariant_.error_regex) line = Some g ->
  exists file row col rest err,
    line = file +:+ ":" +:+ row +:+ ":" +:+ col +:+ ":" +:+ rest /\
    all_chars Char.digit row = true /\ 1 <= String.length row /\
    all_chars Char.digit col = true /\ 1 <= String.length col /\
    occurs "error: " rest /\
    g = <["error" := err]> (<["col" := col]> (<["row" := row]>
          (<["file" := file]> ∅))) /\
    forall file' row' col' rest',
      line = file' +:+ ":" +:+ row' +:+ ":" +:+ col' +:+ ":" +:+ rest' ->
      all_chars Char.digit row' = true -> 1 <= String.length row' ->
      all_chars Char.digit col' = true -> 1 <= String.length col' ->
      occurs "error: " rest' ->
      String.length file' <= String.length file.
Proof.
  intros Hany. unfold match_at.
  rewrite clang_program_split, exec_Cat_GroupRep. intros Hg.
  apply greedy_longest in Hg as (file & s' & -> & Ht & _ & Hk & Hmax).
  apply exec_sound in Hk as (s'' & g' & Hm & [= ->]).
  rewrite taken_app in Hm.
  apply clang_after_file_shape in Hm
    as (row & col & ws & mid & err & -> & Hr & Hr1 & Hc & Hc1 & _ & ->).
  exists file, row, col, (ws +:+ mid +:+ "error: " +:+ err +:+ s''), err.
  split; [reflexivity|]. repeat split; try done.
  { exists (ws +:+ mid), (err +:+ s''). by rewrite !sapp_assoc. }
  intros file' row' col' rest' Heq Hr' Hr1' Hc' Hc1' (a & b & ->).
  destruct (Nat.le_gt_cases (String.length file') (String.length file))
    as [|Hlt]; [done|exfalso].
  assert (Hall : all_chars Char.any
                   (file' +:+ ":" +:+ row' +:+ ":" +:+ col' +:+ ":" +:+ a
                    +:+ "error: " +:+ b) = true) by by rewrite <- Heq.
  rewrite !all_chars_app in Hall.
  apply andb_prop in Hall as [Hf' Hall].
  apply andb_prop in Hall as [_ Hall]. apply andb_prop in Hall as [_ Hall].
  apply andb_prop in Hall as [_ Hall]. apply andb_prop in Hall as [_ Hall].
  apply andb_prop in Hall as [_ Hall]. apply andb_prop in Hall as [Ha Hall].
  apply andb_prop in Hall as [_ Hb].
  pose proof (Hmax file' _ Heq Hf' Hlt) as Hnone.
  destruct (clang_after_file_matches row' col' a b
              (<["file" := taken
                   (file +:+ ":" +:+ row +:+ ":" +:+ col +:+ ":" +:+ ws
                    +:+ mid +:+ "error: " +:+ err +:+ s'')
                   (":" +:+ row' +:+ ":" +:+ col' +:+ ":" +:+ a
                    +:+ "error: " +:+ b)]> ∅))
    as [g' Hm]; try done.
  eapply (exec_complete _ _ _ _ _ (fun _ g => Some g)) in Hm; [|done].
  rewrite Hnone in Hm. by destruct Hm.
Qed.

(** Whether a pattern matches does not depend on the groups closed
    before. *)
Lemma matches_any_groups r s g s' g' h :
  matches r s g s' g' -> exists h', matches r s h s' h'.
Proof.
  intros Hm. revert h.
  induction Hm as [s g|c s g|p c s g Hc|p min t s g Ht Hmin
                   |n r s g s' g' Hm IH
                   |r1 r2 s g s1 g1 s2 g2 Hm1 IH1 Hm2 IH2]; intros h.
  - eexists. constructor.
  - eexists. constructor.
  - eexists. by constructor.
  - eexists. by constructor.
  - destruct (IH h) as [h' Hh']. eexists. by constructor.
  - destruct (IH1 h) as [h1 Hh1]. destruct (IH2 h1) as [h2 Hh2].
    eexists. by econstructor.
Qed.

(** On a text without line feed the search stops at the start: a match
    further right extends to one at the start, the file group taking the
    skipped characters. *)
Lemma clang_search_at_start line g :
  all_chars Char.any line = true ->
  search (program ClangCompilerVariant_.error_regex) line = Some g ->
  match_at (program ClangCompilerVariant_.error_regex) line = Some g.
Proof.
  intros Hany Hs.
  destruct (match_at _ line) as [g0|] eqn:Hm.
  { by rewrite (search_at_start _ _ _ Hm) in Hs. }
  exfalso. apply search_sound in Hs as (pre & rest & post & -> & Hr).
  rewrite clang_program_split in Hr.
  apply matches_Cat_inv in Hr as (s1 & g1 & Hf & Ht).
  apply matches_GroupRep_inv in Hf as (file & -> & Hfile & _ & ->).
  rewrite all_chars_app in Hany. apply andb_prop in Hany as [Hpre _].
  destruct (matches_any_groups _ _ _ _ _ (<["file" := pre +:+ file]> ∅) Ht)
    as [h' Ht'].
  assert (Hfull : matches (program ClangCompilerVariant_.error_regex)
                          ((pre +:+ file) +:+ s1) ∅ post h').
  { rewrite clang_program_split. econstructor; [|exact Ht'].
    apply matches_GroupRep_intro; [|lia].
    by rewrite all_chars_app, Hpre, Hfile. }
  apply match_at_complete in Hfull as [g2 Hg2].
  rewrite sapp_assoc in Hg2. congruence.
Qed.

Lemma omap_cons_Some {X Y} (f : X -> option Y) x y l :
  f x = Some y -> omap f (x :: l) = y :: omap f l.
Proof. intros H. simpl. by rewrite H. Qed.

Lemma omap_cons_None {X Y} (f : X -> option Y) x l :
  f x = None -> omap f (x :: l) = omap f l.
Proof. intros H. simpl. by rewrite H. Qed.

(** ** The message pattern of LibClang *)

(** When the run of [p] at the start of the text is given and the
    continuation succeeds right after it, that is where [greedy] stops. *)
Lemma greedy_whole_run {A} p min t s' (k : string -> option A) a :
  all_chars p t = true -> min <= String.length t ->
  match s' with String c _ => p c = false | EmptyString => True end ->
  k s' = Some a ->
  greedy p min (t +:+ s') k = Some a.
Proof.
  revert min. induction t as [|c t IH]; intros min Ht Hmin Hstop Hk.
  - simpl in Hmin. assert (min = 0) as -> by lia. rewrite sapp_nil_l.
    destruct s' as [|c s]; simpl; [done|]. by rewrite Hstop.
  - rewrite sapp_cons. simpl in *. apply andb_prop in Ht as [Hc Ht].
    rewrite Hc. by rewrite (IH (pred min) Ht ltac:(lia) Hstop Hk).
Qed.

Lemma greedy_whole_text {A} p min t (k : string -> option A) a :
  all_chars p t = true -> min <= String.length t ->
  k "" = Some a ->
  greedy p min t k = Some a.
Proof.
  intros Ht Hmin Hk. rewrite <- (sapp_nil_r t).
  by apply greedy_whole_run.
Qed.

Lemma taken_all t : taken t "" = t.
Proof. pose proof (taken_app t "") as H. by rewrite sapp_nil_r in H. Qed.

(** What the message pattern does to a spelling without line feed: the
    quotes at its start are dropped, everything else is the error text,
    the quotes at its end included. *)
Lemma msg_regex_keeps_all_but_leading_quotes quotes text :
  all_chars (Char.only Char.quote) quotes = true ->
  all_chars Char.any text = true ->
  match text with
  | String c _ => Char.only Char.quote c = false
  | EmptyString => False
  end ->
  Pattern_search LibClangCompilerVariant_.msg_regex (quotes +:+ text)
  = Some (<["error" := text]> ∅).
Proof.
  intros Hq Hany Hfirst. unfold Pattern_search. apply search_at_start.
  unfold match_at.
  cbn [program LibClangCompilerVariant_.msg_regex cat_all fold_right exec].
  apply greedy_whole_run; [done|lia|by destruct text|].
  apply greedy_whole_text; [done|by destruct text; [|simpl; lia]|].
  simpl. by rewrite taken_all.
Qed.

(** ** What a diagnostic without record leaves *)

Lemma pos_search_needs_line_and_column loc g :
  Pattern_search LibClangCompilerVariant_.pos_regex loc = Some g ->
  occurs "line" loc /\ occurs "column" loc.
Proof.
  unfold Pattern_search. intros Hs.
  apply search_sound in Hs as (pre & rest & post & -> & Hm).
  apply pos_regex_shape in Hm
    as (file & mid & sp1 & row & sp2 & col & -> & _).
  split.
  - exists (pre +:+ "'" +:+ file +:+ "'" +:+ mid),
           (String sp1 row +:+ ", " +:+ "column" +:+ String sp2 col
            +:+ post).
    by rewrite !sapp_assoc.
  - exists (pre +:+ "'" +:+ file +:+ "'" +:+ mid +:+ "line"
            +:+ String sp1 row +:+ ", "),
           (String sp2 col +:+ post).
    by rewrite !sapp_assoc.
Qed.

Lemma diag_without_record pos_re msg_re d :
  Pattern_search pos_re (location d) = None \/
  Pattern_search msg_re (spelling d) = None ->
  diag_record pos_re msg_re d = None /\
  length (diag_log pos_re msg_re d) = 1.
Proof.
  unfold diag_record, diag_log.
  destruct (Pattern_search pos_re (location d)) as [pm|]; [|done].
  destruct (Pattern_search msg_re (spelling d)) as [mm|]; [|done].
  by intros [|].
Qed.

(** ** The parsers on Unicode text *)

Section UnicodeMatcher.

Context {A : Type}.
Implicit Types (s t : Unicode.text) (g : gmap string Unicode.text).
Implicit Types (k : Unicode.text -> gmap string Unicode.text -> option A).

(** A success of the greedy repetition is a success of the continuation
    after a run of the class of at least [min] characters. *)
Lemma unicode_greedy_sound p min s (k0 : Unicode.text -> option A) a :
  Unicode.greedy p min s k0 = Some a ->
  exists t s', s = t ++ s' /\ forallb p t = true /\
               min <= length t /\ k0 s' = Some a.
Proof.
  revert min. induction s as [|c s IH]; intros min; simpl.
  - destruct min; [|done]. intros Hk. by exists [], [].
  - destruct (p c) eqn:Hc.
    + destruct (Unicode.greedy p (pred min) s k0) as [a'|] eqn:Hg.
      * intros [= ->]. destruct (IH _ Hg) as (t & s' & -> & Ht & Hmin & Hk).
        exists (c :: t), s'. simpl. rewrite Hc, Ht.
        repeat split; [lia|done].
      * destruct min; [|done]. intros Hk. by exists [], (c :: s).
    + destruct min; [|done]. intros Hk. by exists [], (c :: s).
Qed.

Lemma unicode_taken_app t s : Unicode.taken (t ++ s) s = t.
Proof.
  unfold Unicode.taken. rewrite length_app.
  replace (length t + length s - length s) with (length t) by lia.
  apply take_app_length.
Qed.

Lemma unicode_exec_Cat r1 r2 s g k :
  Unicode.exec (Unicode.Cat r1 r2) s g k
  = Unicode.exec r1 s g (fun s1 g1 => Unicode.exec r2 s1 g1 k).
Proof. reflexivity. Qed.

Lemma unicode_exec_Lit c s g k a :
  Unicode.exec (Unicode.Lit c) s g k = Some a ->
  exists s', s = c :: s' /\ k s' g = Some a.
Proof.
  destruct s as [|c' s]; simpl; [done|].
  destruct (N.eqb_spec c' c) as [->|]; [|done]. by exists s.
Qed.

Lemma unicode_exec_Cls p s g k a :
  Unicode.exec (Unicode.Cls p) s g k = Some a ->
  exists c s', s = c :: s' /\ p c = true /\ k s' g = Some a.
Proof.
  destruct s as [|c s]; simpl; [done|].
  destruct (p c) eqn:Hc; [|done]. by exists c, s.
Qed.

Lemma unicode_exec_Rep p min s g k a :
  Unicode.exec (Unicode.Rep p min) s g k = Some a ->
  exists t s', s = t ++ s' /\ forallb p t = true /\
               min <= length t /\ k s' g = Some a.
Proof. simpl. apply unicode_greedy_sound. Qed.

Lemma unicode_exec_Group n p min s g k a :
  Unicode.exec (Unicode.Group n (Unicode.Rep p min)) s g k = Some a ->
  exists t s', s = t ++ s' /\ forallb p t = true /\
               min <= length t /\ k s' (<[n := t]> g) = Some a.
Proof.
  simpl. intros (t & s' & -> & Ht & Hmin & Hk)%unicode_greedy_sound.
  rewrite unicode_taken_app in Hk. by exists t, s'.
Qed.

Lemma unicode_exec_Str t s g k a :
  Unicode.exec (Unicode.Str t) s g k = Some a ->
  exists s', s = t ++ s' /\ k s' g = Some a.
Proof.
  revert s. induction t as [|c t IH]; intros s.
  - simpl. intros Hk. by exists s.
  - cbn [Unicode.Str]. rewrite unicode_exec_Cat.
    intros (s1 & -> & H)%unicode_exec_Lit.
    apply IH in H as (s' & -> & Hk). by exists s'.
Qed.

End UnicodeMatcher.

(** The match found by a search is a match at the start of what is left
    of the text at some position. *)
Lemma unicode_search_sound r s g :
  Unicode.search r s = Some g ->
  exists pre rest, s = pre ++ rest /\ Unicode.match_at r rest = Some g.
Proof.
  induction s as [|c s IH]; simpl.
  - destruct (Unicode.match_at r []) eqn:Hm; [|done]. intros [= ->].
    by exists [], [].
  - destruct (Unicode.match_at r (c :: s)) eqn:Hm.
    + intros [= ->]. by exists [], (c :: s).
    + intros Hs. destruct (IH Hs) as (pre & rest & -> & Hm').
      by exists (c :: pre), rest.
Qed.

(** Takes a success of the matcher on a pattern written out and cuts it
    into the facts about its items. *)
Ltac unicode_step H :=
  rewrite unicode_exec_Cat in H;
  lazymatch type of H with
  | Unicode.exec (Unicode.Str _) _ _ _ = _ =>
      apply unicode_exec_Str in H as (? & -> & H)
  | Unicode.exec (Unicode.Group _ _) _ _ _ = _ =>
      apply unicode_exec_Group in H as (? & ? & -> & ? & ? & H)
  | Unicode.exec (Unicode.Rep _ _) _ _ _ = _ =>
      apply unicode_exec_Rep in H as (? & ? & -> & ? & ? & H)
  | Unicode.exec (Unicode.Cls _) _ _ _ = _ =>
      apply unicode_exec_Cls in H as (? & ? & -> & ? & H)
  | Unicode.exec (Unicode.Lit _) _ _ _ = _ =>
      apply unicode_exec_Lit in H as (? & -> & H)
  end;
  cbv beta in H.

Ltac unicode_steps H := repeat unicode_step H.

(** *** What the patterns capture *)

Lemma unicode_clang_match s g :
  Unicode.match_at (Unicode.program Unicode.ClangCompilerVariant_.error_regex)
                   s = Some g ->
  exists file row col err,
    forallb Unicode.Char.digit row = true /\ 1 <= length row /\
    forallb Unicode.Char.digit col = true /\ 1 <= length col /\
    g = <["error" := err]> (<["col" := col]> (<["row" := row]>
          (<["file" := file]> ∅))).
Proof.
  unfold Unicode.match_at.
  cbn [Unicode.program Unicode.ClangCompilerVariant_.error_regex
       Unicode.cat_all fold_right].
  intros H. unicode_steps H. simpl in H. injection H as <-.
  eexists _, _, _, _. by repeat split.
Qed.

Lemma unicode_clang_cl_match s g :
  Unicode.match_at
    (Unicode.program Unicode.ClangClCompilerVariant_.error_regex) s = Some g ->
  exists file row col err,
    forallb Unicode.Char.digit row = true /\ 1 <= length row /\
    forallb Unicode.Char.digit col = true /\ 1 <= length col /\
    g = <["error" := err]> (<["col" := col]> (<["row" := row]>
          (<["file" := file]> ∅))).
Proof.
  unfold Unicode.match_at.
  cbn [Unicode.program Unicode.ClangClCompilerVariant_.error_regex
       Unicode.cat_all fold_right].
  intros H. unicode_steps H. simpl in H. injection H as <-.
  eexists _, _, _, _. by repeat split.
Qed.

Lemma unicode_pos_match s g :
  Unicode.match_at
    (Unicode.program Unicode.LibClangCompilerVariant_.pos_regex) s = Some g ->
  exists file row col,
    forallb Unicode.Char.digit row = true /\ 1 <= length row /\
    forallb Unicode.Char.digit col = true /\ 1 <= length col /\
    g = <["col" := col]> (<["row" := row]> (<["file" := file]> ∅)).
Proof.
  unfold Unicode.match_at.
  cbn [Unicode.program Unicode.LibClangCompilerVariant_.pos_regex
       Unicode.cat_all fold_right].
  intros H. unicode_steps H. simpl in H. injection H as <-.
  eexists _, _, _. by repeat split.
Qed.

Lemma unicode_msg_match s g :
  Unicode.match_at
    (Unicode.program Unicode.LibClangCompilerVariant_.msg_regex) s = Some g ->
  exists err, g = <["error" := err]> ∅.
Proof.
  unfold Unicode.match_at.
  cbn [Unicode.program Unicode.LibClangCompilerVariant_.msg_regex
       Unicode.cat_all fold_right].
  intros H. unicode_steps H. simpl in H. injection H as <-.
  by eexists.
Qed.

(** *** groupdict of the matches *)

Lemma unicode_groupdict_four re file row col err :
  Unicode.group_names (Unicode.program re) = ["file"; "row"; "col"; "error"] ->
  Unicode.Match_groupdict re
    (<["error" := err]> (<["col" := col]> (<["row" := row]>
       (<["file" := file]> ∅))))
  = Unicode.error_record file row col err.
Proof.
  intros Hn. unfold Unicode.Match_groupdict, Unicode.groupdict,
    Unicode.error_record. rewrite Hn.
  simpl. by simplify_map_eq.
Qed.

Lemma unicode_groupdict_pos_msg file row col err :
  Unicode.dict_update
    (Unicode.Match_groupdict Unicode.LibClangCompilerVariant_.pos_regex
       (<["col" := col]> (<["row" := row]> (<["file" := file]> ∅))))
    (Unicode.Match_groupdict Unicode.LibClangCompilerVariant_.msg_regex
       (<["error" := err]> ∅))
  = Unicode.error_record file row col err.
Proof.
  unfold Unicode.dict_update, Unicode.error_record.
  assert (Hp : Unicode.Match_groupdict
                 Unicode.LibClangCompilerVariant_.pos_regex
                 (<["col" := col]> (<["row" := row]> (<["file" := file]> ∅)))
               = {[ "file" := Unicode.VStr file; "row" := Unicode.VStr row;
                    "col" := Unicode.VStr col ]}).
  { unfold Unicode.Match_groupdict, Unicode.groupdict.
    change (Unicode.group_names
              (Unicode.program Unicode.LibClangCompilerVariant_.pos_regex))
      with ["file"; "row"; "col"].
    simpl. by simplify_map_eq. }
  assert (Hm : Unicode.Match_groupdict
                 Unicode.LibClangCompilerVariant_.msg_regex
                 (<["error" := err]> ∅)
               = {[ "error" := Unicode.VStr err ]}).
  { unfold Unicode.Match_groupdict, Unicode.groupdict.
    change (Unicode.group_names
              (Unicode.program Unicode.LibClangCompilerVariant_.msg_regex))
      with ["error"].
    simpl. by simplify_map_eq. }
  rewrite Hp, Hm. apply map_eq. intros k.
  destruct (decide (k = "error")) as [->|He]; [by simplify_map_eq|].
  rewrite lookup_union_r by by simplify_map_eq.
  destruct (decide (k = "file")) as [->|Hf]; [by simplify_map_eq|].
  destruct (decide (k = "row")) as [->|Hr]; [by simplify_map_eq|].
  destruct (decide (k = "col")) as [->|Hc]; by simplify_map_eq.
Qed.

(** *** The record of one line, of one diagnostic *)

Lemma unicode_clang_line_record line d :
  Unicode.line_record Unicode.ClangCompilerVariant_.error_regex line
  = Some d ->
  exists file row col err,
    d = Unicode.error_record file row col err /\
    forallb Unicode.Char.digit row = true /\ 1 <= length row /\
    forallb Unicode.Char.digit col = true /\ 1 <= length col.
Proof.
  unfold Unicode.line_record, Unicode.Pattern_search.
  destruct (Unicode.search _ line) as [g|] eqn:Hs; [|done]. intros [= <-].
  apply unicode_search_sound in Hs as (pre & rest & _ & Hm).
  apply unicode_clang_match in Hm
    as (file & row & col & err & Hr & Hr1 & Hc & Hc1 & ->).
  exists file, row, col, err.
  split; [by apply unicode_groupdict_four|done].
Qed.

Lemma unicode_clang_cl_line_record line d :
  Unicode.line_record Unicode.ClangClCompilerVariant_.error_regex line
  = Some d ->
  exists file row col err,
    d = Unicode.error_record file row col err /\
    forallb Unicode.Char.digit row = true /\ 1 <= length row /\
    forallb Unicode.Char.digit col = true /\ 1 <= length col.
Proof.
  unfold Unicode.line_record, Unicode.Pattern_search.
  destruct (Unicode.search _ line) as [g|] eqn:Hs; [|done]. intros [= <-].
  apply unicode_search_sound in Hs as (pre & rest & _ & Hm).
  apply unicode_clang_cl_match in Hm
    as (file & row & col & err & Hr & Hr1 & Hc & Hc1 & ->).
  exists file, row, col, err.
  split; [by apply unicode_groupdict_four|done].
Qed.

Lemma unicode_diag_record diag d :
  Unicode.diag_record Unicode.LibClangCompilerVariant_.pos_regex
                      Unicode.LibClangCompilerVariant_.msg_regex diag
  = Some d ->
  exists file row col err,
    d = Unicode.error_record file row col err /\
    forallb Unicode.Char.digit row = true /\ 1 <= length row /\
    forallb Unicode.Char.digit col = true /\ 1 <= length col.
Proof.
  unfold Unicode.diag_record, Unicode.Pattern_search.
  destruct (Unicode.search _ (Unicode.location diag)) as [pm|] eqn:Hp;
    [|done].
  destruct (Unicode.search _ (Unicode.spelling diag)) as [mm|] eqn:Hm;
    [|done].
  simpl. intros [= <-].
  apply unicode_search_sound in Hp as (pre & rest & _ & Hp).
  apply unicode_search_sound in Hm as (pre' & rest' & _ & Hm).
  apply unicode_pos_match in Hp
    as (file & row & col & Hr & Hr1 & Hc & Hc1 & ->).
  apply unicode_msg_match in Hm as (err & ->).
  exists file, row, col, err.
  split; [by apply unicode_groupdict_pos_msg|done].
Qed.

(** *** The loops *)

Lemma unicode_clang_loop_spec self re lines errors :
  Unicode.error_regex self = (Ok re, []) ->
  Unicode.clang_loop self lines errors
  = (Ok (errors ++ omap (Unicode.line_record re) lines), []).
Proof.
  intros Hre. revert errors.
  induction lines as [|line lines IH]; intros errors; simpl.
  - by rewrite List.app_nil_r.
  - rewrite Hre. unfold mbind, Unicode.M_bind, Unicode.bind,
      Unicode.line_record. simpl.
    destruct (Unicode.Pattern_search re line) as [m|]; simpl.
    + rewrite IH. by rewrite <- List.app_assoc.
    + by rewrite IH.
Qed.

Lemma unicode_libclang_loop_spec self pos_re msg_re ds errors :
  Unicode.pos_regex self = (Ok pos_re, []) ->
  Unicode.msg_regex self = (Ok msg_re, []) ->
  Unicode.libclang_loop self (map Unicode.ItemDiag ds) errors
  = (Ok (errors ++ omap (Unicode.diag_record pos_re msg_re) ds),
     concat (map (Unicode.diag_log pos_re msg_re) ds)).
Proof.
  intros Hpos Hmsg. revert errors.
  induction ds as [|d ds IH]; intros errors; simpl.
  - by rewrite List.app_nil_r.
  - rewrite Hpos, Hmsg.
    unfold mbind, Unicode.M_bind, Unicode.bind, Unicode.diag_record,
      Unicode.diag_log.
    simpl. destruct (Unicode.Pattern_search pos_re (Unicode.location d))
      as [pm|]; simpl.
    + destruct (Unicode.Pattern_search msg_re (Unicode.spelling d))
        as [mm|]; simpl.
      * rewrite IH. by rewrite <- List.app_assoc.
      * by rewrite IH.
    + by rewrite IH.
Qed.

(** *** errors_from_output, variant by variant *)

Lemma unicode_errors_from_output_Clang s :
  Unicode.errors_from_output ClangCompilerVariant (Unicode.Text s)
  = (Ok (omap (Unicode.line_record Unicode.ClangCompilerVariant_.error_regex)
              (Unicode.splitlines s)), []).
Proof.
  unfold Unicode.errors_from_output, mbind, Unicode.M_bind, Unicode.bind.
  simpl. unfold Unicode.ClangCompilerVariant_errors_from_output.
  unfold mbind, Unicode.M_bind, Unicode.bind. simpl.
  by rewrite (unicode_clang_loop_spec _
                Unicode.ClangCompilerVariant_.error_regex).
Qed.

Lemma unicode_errors_from_output_ClangCl s :
  Unicode.errors_from_output ClangClCompilerVariant (Unicode.Text s)
  = (Ok (omap (Unicode.line_record
                 Unicode.ClangClCompilerVariant_.error_regex)
              (Unicode.splitlines s)), []).
Proof.
  unfold Unicode.errors_from_output, mbind, Unicode.M_bind, Unicode.bind.
  simpl. unfold Unicode.ClangCompilerVariant_errors_from_output.
  unfold mbind, Unicode.M_bind, Unicode.bind. simpl.
  by rewrite (unicode_clang_loop_spec _
                Unicode.ClangClCompilerVariant_.error_regex).
Qed.

Lemma unicode_errors_from_output_LibClang ds :
  Unicode.errors_from_output LibClangCompilerVariant (Unicode.Diagnostics ds)
  = (Ok (omap (Unicode.diag_record Unicode.LibClangCompilerVariant_.pos_regex
                 Unicode.LibClangCompilerVariant_.msg_regex) ds),
     concat (map (Unicode.diag_log Unicode.LibClangCompilerVariant_.pos_regex
                    Unicode.LibClangCompilerVariant_.msg_regex) ds)).
Proof.
  unfold Unicode.errors_from_output, mbind, Unicode.M_bind, Unicode.bind.
  simpl. unfold Unicode.LibClangCompilerVariant_errors_from_output. simpl.
  by rewrite (unicode_libclang_loop_spec _
                Unicode.LibClangCompilerVariant_.pos_regex
                Unicode.LibClangCompilerVariant_.msg_regex).
Qed.

Lemma unicode_dom_error_record file row col err :
  dom (Unicode.error_record file row col err)
  = ({["file"; "row"; "col"; "error"]} : gset string).
Proof.
  unfold Unicode.error_record.
  rewrite !dom_insert_L, dom_singleton_L. set_solver.
Qed.

(** Below code point 256 the decimal digits are [0] to [9]. *)
Lemma unicode_digit_below_256 c :
  (c < 256)%N ->
  Unicode.Char.digit c = ((48 <=? c) && (c <=? 57))%N.
Proof.
  intros Hc. unfold Unicode.Char.digit, Unicode.Char.decimal_zeros.
  cbn [existsb].
  destruct (N.leb_spec 48 c), (N.leb_spec c 57); simpl.
  - replace (c <? 48 + 10)%N with true by (symmetry; apply N.ltb_lt; lia).
    done.
  - replace (c <? 48 + 10)%N with false by (symmetry; apply N.ltb_ge; lia).
    simpl.
    repeat match goal with
           | |- context [(?z <=? c)%N] =>
               replace (z <=? c)%N with false
                 by (symmetry; apply N.leb_gt; lia)
           end.
    done.
  - replace (48 <=? c)%N with false by (symmetry; apply N.leb_gt; lia).
    simpl.
    repeat match goal with
           | |- context [(?z <=? c)%N] =>
               replace (z <=? c)%N with false
                 by (symmetry; apply N.leb_gt; lia)
           end.
    done.
  - lia.
Qed.

(** Every record of a concrete variant on the input it is written for
    has the four fields, with row and col non-empty runs of decimal
    digits. *)
Lemma unicode_record_fields self o recs lg d :
  concrete self = true -> Unicode.expected_input self o = true ->
  Unicode.errors_from_output self o = (Ok recs, lg) -> In d recs ->
  exists file row col err,
    d = Unicode.error_record file row col err /\
    forallb Unicode.Char.digit row = true /\ 1 <= length row /\
    forallb Unicode.Char.digit col = true /\ 1 <= length col.
Proof.
  intros Hc Hin Hrun Hd.
  destruct self, o as [s|ds]; try done.
  - rewrite unicode_errors_from_output_Clang in Hrun. injection Hrun as <- _.
    apply list_elem_of_In, list_elem_of_omap in Hd as (line & _ & Hl).
    by apply unicode_clang_line_record in Hl.
  - rewrite unicode_errors_from_output_ClangCl in Hrun.
    injection Hrun as <- _.
    apply list_elem_of_In, list_elem_of_omap in Hd as (line & _ & Hl).
    by apply unicode_clang_cl_line_record in Hl.
  - rewrite unicode_errors_from_output_LibClang in Hrun.
    injection Hrun as <- _.
    apply list_elem_of_In, list_elem_of_omap in Hd as (diag & _ & Hl).
    by apply unicode_diag_record in Hl.
Qed.

Lemma unicode_digit_0_to_9 c :
  Unicode.Char.digit c = true -> (c < 256)%N ->
  Unicode.digit_0_to_9 c = true.
Proof.
  intros Hd Hc. by rewrite (unicode_digit_below_256 c Hc) in Hd.
Qed.

(** * The claims *)

(** C10: calling [errors_from_output] on the abstract base class
    [CompilerVariant] raises [NotImplementedError] for every input, the
    empty ones included; it never returns a list. *)
Theorem base_errors_from_output_not_implemented (o : output) :
  errors_from_output CompilerVariant o
  = (Raise (NotImplementedError "calling abstract method"), [])
  /\ forall recs lg, errors_from_output CompilerVariant o <> (Ok recs, lg).
Proof. split; [reflexivity|]. intros recs lg. discriminate. Qed.

(** C7: the [init_flags] of the ClangCl variant do not contain [-x c++],
    those of the Clang variant do, and both contain [-c] and
    [-fsyntax-only]. *)
Theorem init_flags_of_the_clang_family :
  exists clang clang_cl,
    init_flags ClangCompilerVariant = (Ok clang, []) /\
    init_flags ClangClCompilerVariant = (Ok clang_cl, []) /\
    ~ In "-x c++" clang_cl /\ In "-x c++" clang /\
    In "-c" clang /\ In "-fsyntax-only" clang /\
    In "-c" clang_cl /\ In "-fsyntax-only" clang_cl.
Proof.
  eexists _, _. split; [reflexivity|]. split; [reflexivity|].
  simpl. repeat split; auto.
  intros [H|[H|[]]]; discriminate.
Qed.

(** C3: on every input of the expected type (a text for Clang and
    ClangCl, a list of diagnostics for LibClang) each of the three
    concrete variants returns a list of records, possibly empty; it does
    not raise, whatever the lines or the diagnostics hold. *)
Theorem concrete_variants_total (self : cls) (o : output) :
  concrete self = true -> expected_input self o = true ->
  exists recs lg, errors_from_output self o = (Ok recs, lg).
Proof.
  intros Hc Hin.
  destruct (errors_from_output_entries self o Hc Hin) as [lg Hlg].
  by eexists _, lg.
Qed.

Lemma concrete_variants_total_witness :
  concrete LibClangCompilerVariant = true /\
  expected_input LibClangCompilerVariant
    (Diagnostics [{| location := "nowhere"; spelling := "" |}]) = true /\
  exists recs lg,
    errors_from_output LibClangCompilerVariant
      (Diagnostics [{| location := "nowhere"; spelling := "" |}])
    = (Ok recs, lg).
Proof.
  split; [reflexivity|]. split; [reflexivity|].
  apply (concrete_variants_total LibClangCompilerVariant); reflexivity.
Defined.

(** C8: for every concrete variant and every input of its type, the
    returned records are those of the matching entries (lines or
    diagnostics) in the order of the input: two matching entries at
    positions [i < j] have their records at positions [i' < j']. *)
Theorem output_order_mirrors_input (self : cls) (o : output) :
  concrete self = true -> expected_input self o = true ->
  exists recs lg,
    errors_from_output self o = (Ok recs, lg) /\
    recs = omap (entry_record self) (entries o) /\
    forall i j x y rx ry,
      i < j ->
      entries o !! i = Some x -> entries o !! j = Some y ->
      entry_record self x = Some rx -> entry_record self y = Some ry ->
      exists i' j', i' < j' /\ recs !! i' = Some rx /\ recs !! j' = Some ry.
Proof.
  intros Hc Hin.
  destruct (errors_from_output_entries self o Hc Hin) as [lg Hlg].
  eexists _, lg. split; [exact Hlg|]. split; [reflexivity|].
  intros i j x y rx ry Hij Hi Hj Hx Hy.
  exists (length (omap (entry_record self) (take i (entries o)))),
         (length (omap (entry_record self) (take j (entries o)))).
  split; [by eapply omap_take_lt|].
  split; by eapply omap_lookup.
Qed.

(** C1, as stated, fails: on the line of the claim the file field is not
    the text before the first [:row:col] triple, which is [a.cpp], but
    the text before the last one. *)
Lemma clang_file_is_not_up_to_first_triple :
  before_first_triple "a.cpp:1:2: b.cpp:3:4: error: msg" = Some "a.cpp" /\
  errors_from_output ClangCompilerVariant
    (Text "a.cpp:1:2: b.cpp:3:4: error: msg")
  = (Ok [error_record "a.cpp:1:2: b.cpp" "3" "4" "msg"], []) /\
  error_record "a.cpp:1:2: b.cpp" "3" "4" "msg" !! "file"
  <> Some (VStr "a.cpp") /\
  errors_from_output ClangCompilerVariant
    (Text "a.cpp:1:2: b.cpp:3:4: error: msg")
  <> (Ok [error_record "a.cpp" "1" "2" "msg"], []).
Proof.
  split; [by vm_compute|].
  assert (H : errors_from_output ClangCompilerVariant
                (Text "a.cpp:1:2: b.cpp:3:4: error: msg")
              = (Ok [error_record "a.cpp:1:2: b.cpp" "3" "4" "msg"], []))
    by by vm_compute.
  split; [exact H|]. split; [by vm_compute|].
  rewrite H. by intros [= ?].
Qed.

(** C1, amended: for every line of the input on which the Clang pattern
    matches, the file field is everything before the last [:row:col:]
    triple that [error: ] follows: the line reads [file:row:col:rest]
    with [error: ] in [rest], the record holds that file, row and col,
    and no other such reading of the line has a longer file. *)
Theorem clang_file_is_up_to_last_triple (output line : string)
        (d : ErrorRecord) :
  In line (splitlines output) ->
  line_record ClangCompilerVariant_.error_regex line = Some d ->
  exists file row col rest err,
    line = file +:+ ":" +:+ row +:+ ":" +:+ col +:+ ":" +:+ rest /\
    occurs "error: " rest /\
    all_chars Char.digit row = true /\ 1 <= String.length row /\
    all_chars Char.digit col = true /\ 1 <= String.length col /\
    d = error_record file row col err /\
    (exists recs, errors_from_output ClangCompilerVariant (Text output)
                  = (Ok recs, []) /\ In d recs) /\
    forall file' row' col' rest',
      line = file' +:+ ":" +:+ row' +:+ ":" +:+ col' +:+ ":" +:+ rest' ->
      all_chars Char.digit row' = true -> 1 <= String.length row' ->
      all_chars Char.digit col' = true -> 1 <= String.length col' ->
      occurs "error: " rest' ->
      String.length file' <= String.length file.
Proof.
  intros Hin Hrec.
  assert (Hd : In d (omap (line_record ClangCompilerVariant_.error_regex)
                          (splitlines output))).
  { apply list_elem_of_In, list_elem_of_omap. exists line.
    split; [by apply list_elem_of_In|done]. }
  pose proof (splitlines_all_any _ _ Hin) as Hany.
  unfold line_record, Pattern_search in Hrec.
  destruct (search _ line) as [g|] eqn:Hs; [|done].
  injection Hrec as <-.
  apply (clang_search_at_start _ _ Hany) in Hs.
  apply (clang_match_at_longest _ _ Hany) in Hs
    as (file & row & col & rest & err & Hline & Hr & Hr1 & Hc & Hc1 & Hocc
        & -> & Hmax).
  exists file, row, col, rest, err. repeat split; try done.
  rewrite errors_from_output_Clang. eexists. split; [reflexivity|].
  by rewrite groupdict_error_regex in Hd.
Qed.

Lemma clang_file_is_up_to_last_triple_witness :
  In "a.cpp:1:2: b.cpp:3:4: error: msg"
     (splitlines "a.cpp:1:2: b.cpp:3:4: error: msg") /\
  line_record ClangCompilerVariant_.error_regex
    "a.cpp:1:2: b.cpp:3:4: error: msg"
  = Some (error_record "a.cpp:1:2: b.cpp" "3" "4" "msg") /\
  exists file row col rest err,
    "a.cpp:1:2: b.cpp:3:4: error: msg"
    = file +:+ ":" +:+ row +:+ ":" +:+ col +:+ ":" +:+ rest /\
    occurs "error: " rest /\
    all_chars Char.digit row = true /\ 1 <= String.length row /\
    all_chars Char.digit col = true /\ 1 <= String.length col /\
    error_record "a.cpp:1:2: b.cpp" "3" "4" "msg"
    = error_record file row col err /\
    (exists recs,
        errors_from_output ClangCompilerVariant
          (Text "a.cpp:1:2: b.cpp:3:4: error: msg") = (Ok recs, []) /\
        In (error_record "a.cpp:1:2: b.cpp" "3" "4" "msg") recs) /\
    forall file' row' col' rest',
      "a.cpp:1:2: b.cpp:3:4: error: msg"
      = file' +:+ ":" +:+ row' +:+ ":" +:+ col' +:+ ":" +:+ rest' ->
      all_chars Char.digit row' = true -> 1 <= String.length row' ->
      all_chars Char.digit col' = true -> 1 <= String.length col' ->
      occurs "error: " rest' ->
      String.length file' <= String.length file.
Proof.
  assert (H1 : In "a.cpp:1:2: b.cpp:3:4: error: msg"
                  (splitlines "a.cpp:1:2: b.cpp:3:4: error: msg"))
    by (vm_compute; auto).
  assert (H2 : line_record ClangCompilerVariant_.error_regex
                 "a.cpp:1:2: b.cpp:3:4: error: msg"
               = Some (error_record "a.cpp:1:2: b.cpp" "3" "4" "msg"))
    by (vm_compute; reflexivity).
  split; [exact H1|]. split; [exact H2|].
  exact (clang_file_is_up_to_last_triple _ _ _ H1 H2).
Defined.

(** C5: an input that contains the line
    [foo.cpp:12:5: error: expected ';'] yields exactly one record for
    that line, with file [foo.cpp], row [12], col [5] and error
    [expected ';'], between the records of the lines before and after;
    and a line without [error:] (a note, a warning, an empty line)
    yields no record. *)
Theorem clang_error_line_and_other_lines (output : string)
        (before : list string) (line : string) (after : list string) :
  splitlines output = before ++ line :: after ->
  (line = "foo.cpp:12:5: error: expected ';'" ->
   errors_from_output ClangCompilerVariant (Text output)
   = (Ok (omap (line_record ClangCompilerVariant_.error_regex) before
          ++ error_record "foo.cpp" "12" "5" "expected ';'"
          :: omap (line_record ClangCompilerVariant_.error_regex) after),
      []))
  /\
  (~ occurs "error:" line ->
   line_record ClangCompilerVariant_.error_regex line = None /\
   errors_from_output ClangCompilerVariant (Text output)
   = (Ok (omap (line_record ClangCompilerVariant_.error_regex) before
          ++ omap (line_record ClangCompilerVariant_.error_regex) after),
      [])).
Proof.
  intros Hlines. rewrite errors_from_output_Clang, Hlines, omap_app.
  split.
  - intros ->.
    assert (H : line_record ClangCompilerVariant_.error_regex
                  "foo.cpp:12:5: error: expected ';'"
                = Some (error_record "foo.cpp" "12" "5" "expected ';'"))
      by (vm_compute; reflexivity).
    rewrite (omap_cons_Some _ _ _ _ H). reflexivity.
  - intros Hno.
    assert (H : line_record ClangCompilerVariant_.error_regex line = None).
    { destruct (line_record _ line) as [d|] eqn:Hd; [|done].
      exfalso. apply Hno.
      apply clang_line_record in Hd
        as (pre & file & row & col & ws & mid & err & post & -> & _).
      exists (pre +:+ file +:+ ":" +:+ row +:+ ":" +:+ col +:+ ":" +:+ ws
              +:+ mid), (" " +:+ err +:+ post).
      by rewrite !sapp_assoc. }
    split; [exact H|]. rewrite (omap_cons_None _ _ _ H). reflexivity.
Qed.

Lemma clang_error_line_and_other_lines_witness :
  splitlines ("note: candidate" +:+ String Char.LF
              ("foo.cpp:12:5: error: expected ';'" +:+ String Char.LF
               "foo.cpp:13:1: warning: unused"))
  = ["note: candidate"] ++ "foo.cpp:12:5: error: expected ';'"
    :: ["foo.cpp:13:1: warning: unused"] /\
  errors_from_output ClangCompilerVariant
    (Text ("note: candidate" +:+ String Char.LF
           ("foo.cpp:12:5: error: expected ';'" +:+ String Char.LF
            "foo.cpp:13:1: warning: unused")))
  = (Ok (omap (line_record ClangCompilerVariant_.error_regex)
              ["note: candidate"]
         ++ error_record "foo.cpp" "12" "5" "expected ';'"
         :: omap (line_record ClangCompilerVariant_.error_regex)
                 ["foo.cpp:13:1: warning: unused"]), []).
Proof.
  assert (H : splitlines ("note: candidate" +:+ String Char.LF
                ("foo.cpp:12:5: error: expected ';'" +:+ String Char.LF
                 "foo.cpp:13:1: warning: unused"))
              = ["note: candidate"] ++ "foo.cpp:12:5: error: expected ';'"
                :: ["foo.cpp:13:1: warning: unused"])
    by (vm_compute; reflexivity).
  split; [exact H|].
  exact (proj1 (clang_error_line_and_other_lines _ _ _ _ H) eq_refl).
Defined.

(** C6: an input that contains the line
    [foo.cpp(12,5): error: missing return] yields for the ClangCl
    variant one record for that line, with row [12] and col [5] (and
    file [foo.cpp], error [missing return]); the method that runs is the
    one of the Clang class, with the pattern of ClangCl. *)
Theorem clang_cl_error_line (output : string)
        (before after : list string) :
  splitlines output
  = before ++ "foo.cpp(12,5): error: missing return" :: after ->
  errors_from_output ClangClCompilerVariant (Text output)
  = (Ok (omap (line_record ClangClCompilerVariant_.error_regex) before
         ++ error_record "foo.cpp" "12" "5" "missing return"
         :: omap (line_record ClangClCompilerVariant_.error_regex) after),
     [])
  /\ errors_from_output ClangClCompilerVariant (Text output)
     = ClangCompilerVariant_errors_from_output ClangClCompilerVariant
         (Text output)
  /\ error_regex ClangClCompilerVariant
     = (Ok ClangClCompilerVariant_.error_regex, []).
Proof.
  intros Hlines. split; [|split; [|reflexivity]].
  - rewrite errors_from_output_ClangCl, Hlines, omap_app.
    assert (H : line_record ClangClCompilerVariant_.error_regex
                  "foo.cpp(12,5): error: missing return"
                = Some (error_record "foo.cpp" "12" "5" "missing return"))
      by (vm_compute; reflexivity).
    rewrite (omap_cons_Some _ _ _ _ H). reflexivity.
  - rewrite errors_from_output_ClangCl.
    rewrite (Clang_method_Text _ ClangClCompilerVariant_.error_regex);
      reflexivity.
Qed.

Lemma clang_cl_error_line_witness :
  splitlines "foo.cpp(12,5): error: missing return"
  = [] ++ "foo.cpp(12,5): error: missing return" :: [] /\
  errors_from_output ClangClCompilerVariant
    (Text "foo.cpp(12,5): error: missing return")
  = (Ok [error_record "foo.cpp" "12" "5" "missing return"], []).
Proof.
  assert (H : splitlines "foo.cpp(12,5): error: missing return"
              = [] ++ "foo.cpp(12,5): error: missing return" :: [])
    by (vm_compute; reflexivity).
  split; [exact H|].
  exact (proj1 (clang_cl_error_line _ _ _ H)).
Defined.

(** C9, as stated, fails where decimal digits are the ten characters 0
    to 9: on a line whose position is written in the Arabic-Indic digits
    U+0663 and U+0664 the Clang variant returns a record whose row is
    U+0663 and whose col is U+0664. *)
Lemma row_and_col_in_digits_of_another_script :
  Unicode.errors_from_output ClangCompilerVariant
    (Unicode.Text (Unicode.of_string "a.c:" ++ [0x663%N]
                   ++ Unicode.of_string ":" ++ [0x664%N]
                   ++ Unicode.of_string ": error: x"))
  = (Ok [Unicode.error_record (Unicode.of_string "a.c") [0x663%N] [0x664%N]
           (Unicode.of_string "x")], []) /\
  Unicode.error_record (Unicode.of_string "a.c") [0x663%N] [0x664%N]
    (Unicode.of_string "x") !! "row" = Some (Unicode.VStr [0x663%N]) /\
  Unicode.error_record (Unicode.of_string "a.c") [0x663%N] [0x664%N]
    (Unicode.of_string "x") !! "col" = Some (Unicode.VStr [0x664%N]) /\
  forallb Unicode.digit_0_to_9 [0x663%N] = false /\
  forallb Unicode.digit_0_to_9 [0x664%N] = false.
Proof.
  split; [by vm_compute|]. split; [by vm_compute|]. split; [by vm_compute|].
  split; reflexivity.
Qed.

(** C9, amended: every record returned by a concrete variant has exactly
    the four keys file, row, col and error, and its row and col are
    non-empty strings of Unicode decimal digits, the characters the
    digit class of a str pattern matches; those of them below code point
    256 are among 0 to 9. *)
Theorem records_have_four_keys_and_unicode_digits
        (self : cls) (o : Unicode.output)
        (recs : list Unicode.ErrorRecord) (lg : list Unicode.log_record)
        (d : Unicode.ErrorRecord) :
  concrete self = true -> Unicode.expected_input self o = true ->
  Unicode.errors_from_output self o = (Ok recs, lg) -> In d recs ->
  dom d = ({["file"; "row"; "col"; "error"]} : gset string) /\
  exists file row col err,
    d !! "file" = Some (Unicode.VStr file) /\
    d !! "error" = Some (Unicode.VStr err) /\
    d !! "row" = Some (Unicode.VStr row) /\
    d !! "col" = Some (Unicode.VStr col) /\
    forallb Unicode.Char.digit row = true /\ row <> [] /\
    forallb Unicode.Char.digit col = true /\ col <> [] /\
    forall c, In c (row ++ col) -> (c < 256)%N ->
              Unicode.digit_0_to_9 c = true.
Proof.
  intros Hc Hin Hrun Hd.
  destruct (unicode_record_fields self o recs lg d Hc Hin Hrun Hd)
    as (file & row & col & err & -> & Hr & Hr1 & Hcol & Hc1).
  split; [apply unicode_dom_error_record|].
  exists file, row, col, err. unfold Unicode.error_record.
  repeat split; try by simplify_map_eq.
  - by destruct row; [simpl in Hr1; lia|].
  - by destruct col; [simpl in Hc1; lia|].
  - intros c Hin' Hlt. apply unicode_digit_0_to_9; [|done].
    apply in_app_or in Hin' as [Hin'|Hin'].
    + by apply (proj1 (forallb_forall _ _) Hr).
    + by apply (proj1 (forallb_forall _ _) Hcol).
Qed.

Lemma records_have_four_keys_and_unicode_digits_witness :
  concrete ClangCompilerVariant = true /\
  Unicode.expected_input ClangCompilerVariant
    (Unicode.Text (Unicode.of_string "a.c:" ++ [0x663%N]
                   ++ Unicode.of_string ":12: error: x")) = true /\
  Unicode.errors_from_output ClangCompilerVariant
    (Unicode.Text (Unicode.of_string "a.c:" ++ [0x663%N]
                   ++ Unicode.of_string ":12: error: x"))
  = (Ok [Unicode.error_record (Unicode.of_string "a.c") [0x663%N]
           (Unicode.of_string "12") (Unicode.of_string "x")], []) /\
  In (Unicode.error_record (Unicode.of_string "a.c") [0x663%N]
        (Unicode.of_string "12") (Unicode.of_string "x"))
     [Unicode.error_record (Unicode.of_string "a.c") [0x663%N]
        (Unicode.of_string "12") (Unicode.of_string "x")] /\
  dom (Unicode.error_record (Unicode.of_string "a.c") [0x663%N]
         (Unicode.of_string "12") (Unicode.of_string "x"))
  = ({["file"; "row"; "col"; "error"]} : gset string).
Proof.
  assert (H : Unicode.errors_from_output ClangCompilerVariant
                (Unicode.Text (Unicode.of_string "a.c:" ++ [0x663%N]
                               ++ Unicode.of_string ":12: error: x"))
              = (Ok [Unicode.error_record (Unicode.of_string "a.c")
                       [0x663%N] (Unicode.of_string "12")
                       (Unicode.of_string "x")], []))
    by (vm_compute; reflexivity).
  split; [reflexivity|]. split; [reflexivity|]. split; [exact H|].
  split; [by left|].
  exact (proj1 (records_have_four_keys_and_unicode_digits
                  ClangCompilerVariant
                  (Unicode.Text (Unicode.of_string "a.c:" ++ [0x663%N]
                                 ++ Unicode.of_string ":12: error: x"))
                  [Unicode.error_record (Unicode.of_string "a.c")
                     [0x663%N] (Unicode.of_string "12")
                     (Unicode.of_string "x")] []
                  (Unicode.error_record (Unicode.of_string "a.c")
                     [0x663%N] (Unicode.of_string "12")
                     (Unicode.of_string "x"))
                  eq_refl eq_refl H (or_introl eq_refl))).
Defined.

(** C4: a diagnostic whose location does not match the position pattern
    (as when it lacks [line] or [column]) or whose spelling does not
    match the message pattern adds no record and raises nothing: the
    records returned are those of the diagnostics before it followed by
    those of the diagnostics after it, and one entry is logged. *)
Theorem libclang_unmatched_diagnostic_is_dropped
        (before after : list Diagnostic) (d : Diagnostic) :
  ~ occurs "line" (location d) \/ ~ occurs "column" (location d) \/
  Pattern_search LibClangCompilerVariant_.pos_regex (location d) = None \/
  Pattern_search LibClangCompilerVariant_.msg_regex (spelling d) = None ->
  exists recs1 recs2 lg1 lg lg2,
    errors_from_output LibClangCompilerVariant (Diagnostics before)
    = (Ok recs1, lg1) /\
    errors_from_output LibClangCompilerVariant (Diagnostics after)
    = (Ok recs2, lg2) /\
    errors_from_output LibClangCompilerVariant
      (Diagnostics (before ++ d :: after))
    = (Ok (recs1 ++ recs2), lg1 ++ lg ++ lg2) /\
    length lg = 1.
Proof.
  intros Hbad.
  assert (Hnone :
    Pattern_search LibClangCompilerVariant_.pos_regex (location d) = None \/
    Pattern_search LibClangCompilerVariant_.msg_regex (spelling d) = None).
  { destruct Hbad as [Hl|[Hc|[Hp|Hm]]]; [| |by left|by right]; left.
    - destruct (Pattern_search _ (location d)) as [g|] eqn:Hs; [|done].
      by apply pos_search_needs_line_and_column in Hs as [? _].
    - destruct (Pattern_search _ (location d)) as [g|] eqn:Hs; [|done].
      by apply pos_search_needs_line_and_column in Hs as [_ ?]. }
  apply diag_without_record in Hnone as [Hrec Hlog].
  rewrite !errors_from_output_LibClang.
  eexists _, _, _, _, _. split; [reflexivity|]. split; [reflexivity|].
  split; [|exact Hlog].
  rewrite omap_app, (omap_cons_None _ _ _ Hrec).
  rewrite map_app, concat_app. reflexivity.
Qed.

Lemma libclang_unmatched_diagnostic_is_dropped_witness :
  (~ occurs "line" "nowhere" \/ ~ occurs "column" "nowhere" \/
   Pattern_search LibClangCompilerVariant_.pos_regex "nowhere" = None \/
   Pattern_search LibClangCompilerVariant_.msg_regex "x" = None) /\
  exists recs1 recs2 lg1 lg lg2,
    errors_from_output LibClangCompilerVariant
      (Diagnostics [{| location := "'foo.cpp', line 7, column 3";
                       spelling := "expected expression" |}])
    = (Ok recs1, lg1) /\
    errors_from_output LibClangCompilerVariant (Diagnostics [])
    = (Ok recs2, lg2) /\
    errors_from_output LibClangCompilerVariant
      (Diagnostics ([{| location := "'foo.cpp', line 7, column 3";
                        spelling := "expected expression" |}]
                    ++ {| location := "nowhere"; spelling := "x" |} :: []))
    = (Ok (recs1 ++ recs2), lg1 ++ lg ++ lg2) /\
    length lg = 1.
Proof.
  assert (H : ~ occurs "line" "nowhere" \/ ~ occurs "column" "nowhere" \/
              Pattern_search LibClangCompilerVariant_.pos_regex "nowhere"
              = None \/
              Pattern_search LibClangCompilerVariant_.msg_regex "x" = None).
  { right. right. left. by vm_compute. }
  split; [exact H|].
  exact (libclang_unmatched_diagnostic_is_dropped
           [{| location := "'foo.cpp', line 7, column 3";
               spelling := "expected expression" |}] []
           {| location := "nowhere"; spelling := "x" |} H).
Defined.

(** C2, on the code: a spelling in double quotes loses the quote at its
    start and keeps the one at its end. *)
Theorem libclang_quoted_spelling_keeps_closing_quote :
  errors_from_output LibClangCompilerVariant
    (Diagnostics
       [{| location := "'foo.cpp', line 7, column 3";
           spelling := String Char.quote
                         ("expected expression" +:+ String Char.quote "") |}])
  = (Ok [error_record "foo.cpp" "7" "3"
           ("expected expression" +:+ String Char.quote "")], []).
Proof. by vm_compute. Qed.

Lemma output_order_mirrors_input_witness :
  concrete ClangCompilerVariant = true /\
  expected_input ClangCompilerVariant
    (Text ("a.c:1:2: error: x" +:+ String Char.LF "b.c:3:4: error: y"))
  = true /\
  exists recs lg,
    errors_from_output ClangCompilerVariant
      (Text ("a.c:1:2: error: x" +:+ String Char.LF "b.c:3:4: error: y"))
    = (Ok recs, lg) /\
    recs = omap (entry_record ClangCompilerVariant)
             (entries (Text ("a.c:1:2: error: x"
                             +:+ String Char.LF "b.c:3:4: error: y"))) /\
    forall i j x y rx ry,
      i < j ->
      entries (Text ("a.c:1:2: error: x"
                     +:+ String Char.LF "b.c:3:4: error: y")) !! i = Some x ->
      entries (Text ("a.c:1:2: error: x"
                     +:+ String Char.LF "b.c:3:4: error: y")) !! j = Some y ->
      entry_record ClangCompilerVariant x = Some rx ->
      entry_record ClangCompilerVariant y = Some ry ->
      exists i' j', i' < j' /\ recs !! i' = Some rx /\ recs !! j' = Some ry.
Proof.
  split; [reflexivity|]. split; [reflexivity|].
  exact (output_order_mirrors_input ClangCompilerVariant
           (Text ("a.c:1:2: error: x" +:+ String Char.LF "b.c:3:4: error: y"))
           eq_refl eq_refl).
Defined.

(** * Further properties *)

(** ** The matcher, item by item *)

Section ExecSteps.

Context {A : Type}.
Implicit Types (k : string -> gmap string string -> option A).

Lemma exec_Cat r1 r2 s g k :
  exec (Cat r1 r2) s g k = exec r1 s g (fun s1 g1 => exec r2 s1 g1 k).
Proof. reflexivity. Qed.

Lemma exec_Lit_Some c s g k a :
  exec (Lit c) s g k = Some a -> exists s', s = String c s' /\ k s' g = Some a.
Proof.
  destruct s as [|c' s]; simpl; [done|].
  destruct (Ascii.eqb_spec c' c) as [->|]; [|done]. by exists s.
Qed.

Lemma exec_Str_Some t s g k a :
  exec (Str t) s g k = Some a -> exists s', s = t +:+ s' /\ k s' g = Some a.
Proof.
  intros (s' & g' & Hm & Hk)%exec_sound.
  apply matches_Str_inv in Hm as [-> ->]. by exists s'.
Qed.

Lemma exec_Rep_Some p min s g k a :
  exec (Rep p min) s g k = Some a ->
  exists t s', s = t +:+ s' /\ all_chars p t = true /\
               min <= String.length t /\ k s' g = Some a.
Proof. simpl. apply greedy_sound. Qed.

Lemma exec_GroupRep_Some n p min s g k a :
  exec (Group n (Rep p min)) s g k = Some a ->
  exists t s', s = t +:+ s' /\ all_chars p t = true /\
               min <= String.length t /\ k s' (<[n := t]> g) = Some a.
Proof.
  simpl. intros (t & s' & -> & Ht & Hmin & Hk)%greedy_sound.
  rewrite taken_app in Hk. by exists t, s'.
Qed.

Lemma exec_Rep_longest p min s g k a :
  exec (Rep p min) s g k = Some a ->
  exists t s', s = t +:+ s' /\ all_chars p t = true /\
               min <= String.length t /\ k s' g = Some a /\
               forall t2 s2, s = t2 +:+ s2 -> all_chars p t2 = true ->
                             String.length t < String.length t2 ->
                             k s2 g = None.
Proof. simpl. apply greedy_longest. Qed.

(** The run a group settles on is the longest on which what follows
    succeeds. *)
Lemma exec_GroupRep_longest n p min s g k a :
  exec (Group n (Rep p min)) s g k = Some a ->
  exists t s', s = t +:+ s' /\ all_chars p t = true /\
               min <= String.length t /\ k s' (<[n := t]> g) = Some a /\
               forall t2 s2, s = t2 +:+ s2 -> all_chars p t2 = true ->
                             String.length t < String.length t2 ->
                             k s2 (<[n := t2]> g) = None.
Proof.
  simpl. intros (t & s' & -> & Ht & Hmin & Hk & Hmax)%greedy_longest.
  rewrite taken_app in Hk. exists t, s'. repeat split; try done.
  intros t2 s2 Heq Ht2 Hlen. pose proof (Hmax t2 s2 Heq Ht2 Hlen) as Hn.
  by rewrite Heq, taken_app in Hn.
Qed.

End ExecSteps.

(** A group that ends the pattern, on a text it can take whole, takes it
    whole. *)
Lemma exec_last_group n p s g g' :
  all_chars p s = true ->
  exec (Cat (Group n (Rep p 0)) Eps) s g (fun _ h => Some h) = Some g' ->
  g' = <[n := s]> g.
Proof.
  intros Hs. rewrite exec_Cat.
  intros (t & s' & -> & Ht & _ & Hk & Hmax)%exec_GroupRep_longest.
  simpl in Hk. injection Hk as <-.
  destruct s' as [|c s']; [by rewrite sapp_nil_r|].
  specialize (Hmax (t +:+ String c s') "" ltac:(by rewrite sapp_nil_r) Hs).
  rewrite length_sapp in Hmax. simpl in Hmax. by specialize (Hmax ltac:(lia)).
Qed.

(** ** The end of the text patterns

    On a text without line feed the end of the pattern takes the whole
    text, and the error group is what follows the last [error: ]. *)
Lemma error_tail_exec s g g' :
  all_chars Char.any s = true ->
  exec error_tail s g (fun _ h => Some h) = Some g' ->
  exists ws mid err,
    s = ws +:+ mid +:+ "error: " +:+ err /\
    all_chars Char.space ws = true /\
    ~ occurs "error: " err /\
    g' = <["error" := err]> g.
Proof.
  intros Hany. unfold error_tail. cbn [cat_all fold_right].
  rewrite exec_Cat. intros (ws & s1 & -> & Hws & _ & H1)%exec_Rep_Some.
  rewrite exec_Cat in H1.
  apply exec_Rep_longest in H1 as (mid & s2 & -> & Hmid & _ & H2 & Hmax).
  rewrite exec_Cat in H2. apply exec_Str_Some in H2 as (err & -> & H3).
  rewrite !all_chars_app in Hany.
  apply andb_prop in Hany as [_ Hany]. apply andb_prop in Hany as [_ Hany].
  apply andb_prop in Hany as [_ Herr].
  apply exec_last_group in H3 as ->; [|done].
  exists ws, mid, err. repeat split; try done.
  intros (a & b & ->).
  rewrite !all_chars_app in Herr.
  apply andb_prop in Herr as [Ha Hb]. apply andb_prop in Hb as [_ Hb].
  assert (Hnone := Hmax (mid +:+ "error: " +:+ a) ("error: " +:+ b)).
  cbv beta in Hnone. rewrite !sapp_assoc in Hnone.
  specialize (Hnone eq_refl).
  rewrite !all_chars_app, Hmid, Ha in Hnone. specialize (Hnone eq_refl).
  rewrite !length_sapp in Hnone.
  assert (Hlen : String.length mid
                 < String.length mid
                   + (String.length "error: " + String.length a))
    by (simpl; lia).
  specialize (Hnone Hlen). clear Hmax Hlen.
  assert (Hm : matches (Cat (Str "error: ")
                            (Cat (Group "error" (Rep Char.any 0)) Eps))
                       ("error: " +:+ b) g "" (<["error" := b]> g)).
  { econstructor; [apply matches_Str_intro|].
    econstructor; [|constructor].
    rewrite <- (sapp_nil_r b) at 1. apply matches_GroupRep_intro; [done|lia]. }
  eapply (exec_complete _ _ _ _ _ (fun _ h => Some h)) in Hm; [|done].
  rewrite Hnone in Hm. by destruct Hm.
Qed.

(** ** Patterns that start with the file group *)

Section FileGroup.

Variables (n : string) (r : regex).

(** On a text without line feed the search stops at the start: the file
    group takes whatever a match further right would skip. *)
Lemma search_at_start_any line g :
  all_chars Char.any line = true ->
  search (Cat (Group n (Rep Char.any 0)) r) line = Some g ->
  match_at (Cat (Group n (Rep Char.any 0)) r) line = Some g.
Proof.
  intros Hany Hs.
  destruct (match_at _ line) as [g0|] eqn:Hm.
  { by rewrite (search_at_start _ _ _ Hm) in Hs. }
  exfalso. apply search_sound in Hs as (pre & rest & post & -> & Hr).
  apply matches_Cat_inv in Hr as (s1 & g1 & Hf & Ht).
  apply matches_GroupRep_inv in Hf as (file & -> & Hfile & _ & ->).
  rewrite all_chars_app in Hany. apply andb_prop in Hany as [Hpre _].
  destruct (matches_any_groups _ _ _ _ _ (<[n := pre +:+ file]> ∅) Ht)
    as [h' Ht'].
  assert (Hfull : matches (Cat (Group n (Rep Char.any 0)) r)
                          ((pre +:+ file) +:+ s1) ∅ post h').
  { econstructor; [|exact Ht'].
    apply matches_GroupRep_intro; [|lia].
    by rewrite all_chars_app, Hpre, Hfile. }
  apply match_at_complete in Hfull as [g2 Hg2].
  rewrite sapp_assoc in Hg2. congruence.
Qed.

(** The file group is the longest start of the text after which the
    rest of the pattern matches. *)
Lemma file_group_longest line g :
  match_at (Cat (Group n (Rep Char.any 0)) r) line = Some g ->
  exists file s',
    line = file +:+ s' /\ all_chars Char.any file = true /\
    exec r s' (<[n := file]> ∅) (fun _ h => Some h) = Some g /\
    forall file' s2 h s'' h',
      line = file' +:+ s2 -> all_chars Char.any file' = true ->
      matches r s2 h s'' h' ->
      String.length file' <= String.length file.
Proof.
  unfold match_at. rewrite exec_Cat.
  intros (file & s' & -> & Hf & _ & Hk & Hmax)%exec_GroupRep_longest.
  exists file, s'. repeat split; try done.
  intros file' s2 h s'' h' Heq Hf' Hm.
  destruct (Nat.le_gt_cases (String.length file') (String.length file))
    as [|Hlt]; [done|exfalso].
  specialize (Hmax file' s2 Heq Hf' Hlt). cbv beta in Hmax.
  destruct (matches_any_groups _ _ _ _ _ (<[n := file']> ∅) Hm) as [h2 Hm2].
  eapply (exec_complete _ _ _ _ _ (fun _ h => Some h)) in Hm2; [|done].
  rewrite Hmax in Hm2. by destruct Hm2.
Qed.

(** Where the rest of the pattern matches up to the end of the text,
    after a start without line feed, the search finds a match. *)
Lemma file_group_found file s' h h' :
  all_chars Char.any file = true ->
  matches r s' h "" h' ->
  is_Some (search (Cat (Group n (Rep Char.any 0)) r) (file +:+ s')).
Proof.
  intros Hf Hm.
  destruct (matches_any_groups _ _ _ _ _ (<[n := file]> ∅) Hm) as [h2 Hm2].
  apply (search_complete _ "" _ "" h2).
  econstructor; [|exact Hm2]. apply matches_GroupRep_intro; [done|lia].
Qed.

End FileGroup.

(** ** The Clang pattern, line by line *)

Lemma clang_after_file_split :
  clang_after_file
  = Cat (Lit ":") (Cat (Group "row" (Rep Char.digit 1))
      (Cat (Lit ":") (Cat (Group "col" (Rep Char.digit 1))
         (Cat (Lit ":") error_tail)))).
Proof. reflexivity. Qed.

Lemma clang_after_file_exec s g g' :
  all_chars Char.any s = true ->
  exec clang_after_file s g (fun _ h => Some h) = Some g' ->
  exists row col ws mid err,
    s = ":" +:+ row +:+ ":" +:+ col +:+ ":" +:+ ws +:+ mid +:+ "error: "
        +:+ err /\
    all_chars Char.digit row = true /\ 1 <= String.length row /\
    all_chars Char.digit col = true /\ 1 <= String.length col /\
    all_chars Char.space ws = true /\
    ~ occurs "error: " err /\
    g' = <["error" := err]> (<["col" := col]> (<["row" := row]> g)).
Proof.
  intros Hany. rewrite clang_after_file_split, exec_Cat.
  intros (s1 & -> & H)%exec_Lit_Some. rewrite exec_Cat in H.
  apply exec_GroupRep_Some in H as (row & s2 & -> & Hr & Hr1 & H).
  rewrite exec_Cat in H. apply exec_Lit_Some in H as (s3 & -> & H).
  rewrite exec_Cat in H.
  apply exec_GroupRep_Some in H as (col & s4 & -> & Hc & Hc1 & H).
  rewrite exec_Cat in H. apply exec_Lit_Some in H as (s5 & -> & H).
  assert (Hany5 : all_chars Char.any s5 = true).
  { simpl in Hany. rewrite !all_chars_app in Hany. simpl in Hany.
    rewrite !all_chars_app in Hany. simpl in Hany.
    repeat (apply andb_prop in Hany as [_ Hany]). done. }
  apply error_tail_exec in H as (ws & mid & err & -> & Hws & Hlast & ->);
    [|done].
  exists row, col, ws, mid, err. by repeat split.
Qed.

(** The record of a line without line feed, exactly: the line is read
    from its first to its last character, the file is everything before
    the last [:row:col:] that a text with [error: ] follows, and the
    error is what follows the last [error: ]. *)
Lemma clang_line_record_exact line d :
  all_chars Char.any line = true ->
  line_record ClangCompilerVariant_.error_regex line = Some d ->
  exists file row col ws mid err,
    line = file +:+ ":" +:+ row +:+ ":" +:+ col +:+ ":" +:+ ws +:+ mid
           +:+ "error: " +:+ err /\
    all_chars Char.digit row = true /\ 1 <= String.length row /\
    all_chars Char.digit col = true /\ 1 <= String.length col /\
    all_chars Char.space ws = true /\
    ~ occurs "error: " err /\
    d = error_record file row col err /\
    forall file' row' col' rest',
      line = file' +:+ ":" +:+ row' +:+ ":" +:+ col' +:+ ":" +:+ rest' ->
      all_chars Char.digit row' = true -> 1 <= String.length row' ->
      all_chars Char.digit col' = true -> 1 <= String.length col' ->
      occurs "error: " rest' ->
      String.length file' <= String.length file.
Proof.
  intros Hany. unfold line_record, Pattern_search.
  destruct (search _ line) as [g|] eqn:Hs; [|done]. intros [= <-].
  rewrite clang_program_split in Hs.
  apply search_at_start_any in Hs; [|done].
  apply file_group_longest in Hs as (file & s' & Hline & _ & Hk & Hmax).
  assert (Hany' : all_chars Char.any s' = true).
  { rewrite Hline, all_chars_app in Hany. by apply andb_prop in Hany as [_ ?]. }
  apply clang_after_file_exec in Hk
    as (row & col & ws & mid & err & -> & Hr & Hr1 & Hc & Hc1 & Hws & Hl & ->);
    [|done].
  exists file, row, col, ws, mid, err.
  split; [done|].
  repeat split; first [done | by apply groupdict_error_regex | idtac].
  intros file' row' col' rest' Heq Hr' Hr1' Hc' Hc1' (a & b & ->).
  assert (Hall : all_chars Char.any
                   (file' +:+ ":" +:+ row' +:+ ":" +:+ col' +:+ ":" +:+ a
                    +:+ "error: " +:+ b) = true)
    by by rewrite <- Heq.
  rewrite !all_chars_app in Hall.
  apply andb_prop in Hall as [Hf' Hall].
  do 5 apply andb_prop in Hall as [_ Hall].
  apply andb_prop in Hall as [Ha Hall]. apply andb_prop in Hall as [_ Hb].
  destruct (clang_after_file_matches row' col' a b ∅)
    as [g' Hm]; try done.
  by eapply (Hmax file' _ _ _ _ Heq Hf' Hm).
Qed.

(** A line of the shape has a record. *)
Lemma clang_line_record_found file row col rest :
  all_chars Char.any (file +:+ ":" +:+ row +:+ ":" +:+ col +:+ ":" +:+ rest)
  = true ->
  all_chars Char.digit row = true -> 1 <= String.length row ->
  all_chars Char.digit col = true -> 1 <= String.length col ->
  occurs "error: " rest ->
  is_Some (line_record ClangCompilerVariant_.error_regex
             (file +:+ ":" +:+ row +:+ ":" +:+ col +:+ ":" +:+ rest)).
Proof.
  intros Hany Hr Hr1 Hc Hc1 (a & b & ->).
  rewrite !all_chars_app in Hany.
  apply andb_prop in Hany as [Hf Hany].
  do 5 apply andb_prop in Hany as [_ Hany].
  apply andb_prop in Hany as [Ha Hany]. apply andb_prop in Hany as [_ Hb].
  destruct (clang_after_file_matches row col a b ∅ Hr Hr1 Hc Hc1 Ha Hb)
    as [g' Hm].
  unfold line_record, Pattern_search. rewrite clang_program_split.
  destruct (file_group_found "file" clang_after_file file _ _ _ Hf Hm)
    as [g Hg].
  rewrite Hg. by eexists.
Qed.

(** ** The ClangCl pattern, line by line *)

Lemma clang_cl_program_split :
  program ClangClCompilerVariant_.error_regex
  = Cat (Group "file" (Rep Char.any 0)) clang_cl_after_file.
Proof. reflexivity. Qed.

Lemma clang_cl_after_file_split :
  clang_cl_after_file
  = Cat (Lit "(") (Cat (Group "row" (Rep Char.digit 1))
      (Cat (Lit ",") (Cat (Group "col" (Rep Char.digit 1))
         (Cat (Lit ")") (Cat (Rep Char.space 0)
            (Cat (Lit ":") error_tail)))))).
Proof. reflexivity. Qed.

Lemma clang_cl_after_file_exec s g g' :
  all_chars Char.any s = true ->
  exec clang_cl_after_file s g (fun _ h => Some h) = Some g' ->
  exists row col ws1 ws2 mid err,
    s = "(" +:+ row +:+ "," +:+ col +:+ ")" +:+ ws1 +:+ ":" +:+ ws2 +:+ mid
        +:+ "error: " +:+ err /\
    all_chars Char.digit row = true /\ 1 <= String.length row /\
    all_chars Char.digit col = true /\ 1 <= String.length col /\
    all_chars Char.space ws1 = true /\ all_chars Char.space ws2 = true /\
    ~ occurs "error: " err /\
    g' = <["error" := err]> (<["col" := col]> (<["row" := row]> g)).
Proof.
  intros Hany. rewrite clang_cl_after_file_split, exec_Cat.
  intros (s1 & -> & H)%exec_Lit_Some. rewrite exec_Cat in H.
  apply exec_GroupRep_Some in H as (row & s2 & -> & Hr & Hr1 & H).
  rewrite exec_Cat in H. apply exec_Lit_Some in H as (s3 & -> & H).
  rewrite exec_Cat in H.
  apply exec_GroupRep_Some in H as (col & s4 & -> & Hc & Hc1 & H).
  rewrite exec_Cat in H. apply exec_Lit_Some in H as (s5 & -> & H).
  rewrite exec_Cat in H.
  apply exec_Rep_Some in H as (ws1 & s6 & -> & Hws1 & _ & H).
  rewrite exec_Cat in H. apply exec_Lit_Some in H as (s7 & -> & H).
  assert (Hany7 : all_chars Char.any s7 = true).
  { simpl in Hany. rewrite !all_chars_app in Hany. simpl in Hany.
    rewrite !all_chars_app in Hany. simpl in Hany.
    rewrite !all_chars_app in Hany. simpl in Hany.
    repeat (apply andb_prop in Hany as [_ Hany]). done. }
  apply error_tail_exec in H as (ws2 & mid & err & -> & Hws2 & Hlast & ->);
    [|done].
  exists row, col, ws1, ws2, mid, err. by repeat split.
Qed.

(** What follows the file group matches every text [(row,col)], white
    space, [:] and a rest that holds [error: ] and no line feed. *)
Lemma clang_cl_after_file_matches row col ws a b g :
  all_chars Char.digit row = true -> 1 <= String.length row ->
  all_chars Char.digit col = true -> 1 <= String.length col ->
  all_chars Char.space ws = true ->
  all_chars Char.any a = true -> all_chars Char.any b = true ->
  exists g',
    matches clang_cl_after_file
            ("(" +:+ row +:+ "," +:+ col +:+ ")" +:+ ws +:+ ":" +:+ a
             +:+ "error: " +:+ b)
            g "" g'.
Proof.
  intros Hr Hr1 Hc Hc1 Hws Ha Hb. eexists.
  unfold clang_cl_after_file. cbn [cat_all fold_right].
  eapply matches_Cat; [apply matches_Lit|].
  eapply matches_Cat; [by apply matches_GroupRep_intro|].
  eapply matches_Cat; [apply matches_Lit|].
  eapply matches_Cat; [by apply matches_GroupRep_intro|].
  eapply matches_Cat; [apply matches_Lit|].
  eapply matches_Cat; [apply matches_Rep_intro; [done|lia]|].
  eapply matches_Cat; [apply matches_Lit|].
  eapply matches_Cat; [by apply (matches_Rep_intro Char.space 0 "")|].
  eapply matches_Cat; [apply matches_Rep_intro; [done|lia]|].
  eapply matches_Cat; [apply matches_Str_intro|].
  eapply matches_Cat; [|apply matches_Eps].
  rewrite <- (sapp_nil_r b) at 1.
  apply matches_GroupRep_intro; [done|lia].
Qed.

(** The record of a line without line feed under the ClangCl pattern:
    the line is read whole, the file is everything before the last
    [(row,col)] that white space, [:] and a text with [error: ] follow,
    and the error is what follows the last [error: ]. *)
Lemma clang_cl_line_record_exact line d :
  all_chars Char.any line = true ->
  line_record ClangClCompilerVariant_.error_regex line = Some d ->
  exists file row col ws1 ws2 mid err,
    line = file +:+ "(" +:+ row +:+ "," +:+ col +:+ ")" +:+ ws1 +:+ ":"
           +:+ ws2 +:+ mid +:+ "error: " +:+ err /\
    all_chars Char.digit row = true /\ 1 <= String.length row /\
    all_chars Char.digit col = true /\ 1 <= String.length col /\
    all_chars Char.space ws1 = true /\ all_chars Char.space ws2 = true /\
    ~ occurs "error: " err /\
    d = error_record file row col err /\
    forall file' row' col' ws' rest',
      line = file' +:+ "(" +:+ row' +:+ "," +:+ col' +:+ ")" +:+ ws' +:+ ":"
             +:+ rest' ->
      all_chars Char.digit row' = true -> 1 <= String.length row' ->
      all_chars Char.digit col' = true -> 1 <= String.length col' ->
      all_chars Char.space ws' = true ->
      occurs "error: " rest' ->
      String.length file' <= String.length file.
Proof.
  intros Hany. unfold line_record, Pattern_search.
  destruct (search _ line) as [g|] eqn:Hs; [|done]. intros [= <-].
  rewrite clang_cl_program_split in Hs.
  apply search_at_start_any in Hs; [|done].
  apply file_group_longest in Hs as (file & s' & Hline & _ & Hk & Hmax).
  assert (Hany' : all_chars Char.any s' = true).
  { rewrite Hline, all_chars_app in Hany. by apply andb_prop in Hany as [_ ?]. }
  apply clang_cl_after_file_exec in Hk
    as (row & col & ws1 & ws2 & mid & err & -> & Hr & Hr1 & Hc & Hc1 & Hws1
        & Hws2 & Hl & ->); [|done].
  exists file, row, col, ws1, ws2, mid, err.
  split; [done|].
  repeat split; first [done | by apply groupdict_error_regex | idtac].
  intros file' row' col' ws' rest' Heq Hr' Hr1' Hc' Hc1' Hws' (a & b & ->).
  assert (Hall : all_chars Char.any
                   (file' +:+ "(" +:+ row' +:+ "," +:+ col' +:+ ")" +:+ ws'
                    +:+ ":" +:+ a +:+ "error: " +:+ b) = true)
    by by rewrite <- Heq.
  rewrite !all_chars_app in Hall.
  apply andb_prop in Hall as [Hf' Hall].
  do 7 apply andb_prop in Hall as [_ Hall].
  apply andb_prop in Hall as [Ha Hall]. apply andb_prop in Hall as [_ Hb].
  destruct (clang_cl_after_file_matches row' col' ws' a b ∅)
    as [g' Hm]; try done.
  by eapply (Hmax file' _ _ _ _ Heq Hf' Hm).
Qed.

Lemma clang_cl_line_record_found file row col ws rest :
  all_chars Char.any (file +:+ "(" +:+ row +:+ "," +:+ col +:+ ")" +:+ ws
                      +:+ ":" +:+ rest) = true ->
  all_chars Char.digit row = true -> 1 <= String.length row ->
  all_chars Char.digit col = true -> 1 <= String.length col ->
  all_chars Char.space ws = true ->
  occurs "error: " rest ->
  is_Some (line_record ClangClCompilerVariant_.error_regex
             (file +:+ "(" +:+ row +:+ "," +:+ col +:+ ")" +:+ ws +:+ ":"
              +:+ rest)).
Proof.
  intros Hany Hr Hr1 Hc Hc1 Hws (a & b & ->).
  rewrite !all_chars_app in Hany.
  apply andb_prop in Hany as [Hf Hany].
  do 7 apply andb_prop in Hany as [_ Hany].
  apply andb_prop in Hany as [Ha Hany]. apply andb_prop in Hany as [_ Hb].
  destruct (clang_cl_after_file_matches row col ws a b ∅
              Hr Hr1 Hc Hc1 Hws Ha Hb) as [g' Hm].
  unfold line_record, Pattern_search. rewrite clang_cl_program_split.
  destruct (file_group_found "file" clang_cl_after_file file _ _ _ Hf Hm)
    as [g Hg].
  rewrite Hg. by eexists.
Qed.

(** ** Joining two texts with a line boundary *)

Lemma splitlines_from_LF cur b :
  splitlines_from cur (String Char.LF b) = cur :: splitlines b.
Proof. by destruct b. Qed.

Lemma splitlines_from_CRLF cur b :
  splitlines_from cur (String Char.CR (String Char.LF b))
  = cur :: splitlines b.
Proof. reflexivity. Qed.

Lemma splitlines_from_break cur c s :
  Char.linebreak c = true ->
  splitlines_from cur (String c s)
  = match s with
    | String c' s'' =>
        if Ascii.eqb c Char.CR && Ascii.eqb c' Char.LF
        then cur :: splitlines_from "" s''
        else cur :: splitlines_from "" s
    | EmptyString => [cur]
    end.
Proof. intros Hc. simpl. rewrite Hc. by destruct s. Qed.

Lemma splitlines_from_char cur c s :
  Char.linebreak c = false ->
  splitlines_from cur (String c s) = splitlines_from (cur +:+ String c "") s.
Proof. intros Hc. simpl. by rewrite Hc. Qed.

Section Join.

(** The boundary put between the two texts: a line feed, or a carriage
    return and a line feed. *)
Variables (s0 : ascii) (sep' : string).
Hypothesis sep_boundary : forall cur b,
  splitlines_from cur (String s0 sep' +:+ b) = cur :: splitlines b.
Hypothesis sep_after_CR : s0 = Char.LF -> sep' = "".

(** The lines of [a], the boundary and [b] are the lines of [a], then
    possibly an empty line, then the lines of [b]. *)
Lemma splitlines_from_join n : forall a cur b,
  String.length a <= n ->
  exists extra,
    Forall (fun l => l = "") extra /\
    splitlines_from cur (a +:+ String s0 sep' +:+ b)
    = splitlines_from cur a ++ extra ++ splitlines b.
Proof.
  induction n as [|n IH]; intros a cur b Hlen.
  - destruct a; simpl in Hlen; [|lia]. rewrite sapp_nil_l, sep_boundary.
    destruct cur; [by exists [""]; split; [repeat constructor|]|].
    by exists [].
  - destruct a as [|c a].
    { rewrite sapp_nil_l, sep_boundary.
      destruct cur; [by exists [""]; split; [repeat constructor|]|].
      by exists []. }
    rewrite sapp_cons. simpl in Hlen.
    destruct (Char.linebreak c) eqn:Hc.
    + rewrite !(splitlines_from_break _ _ _ Hc).
      destruct a as [|c' a].
      * rewrite sapp_nil_l, sapp_cons.
        destruct (Ascii.eqb c Char.CR && Ascii.eqb s0 Char.LF) eqn:Hm.
        -- apply andb_prop in Hm as [_ Hs0]. apply Ascii.eqb_eq in Hs0.
           rewrite (sep_after_CR Hs0), sapp_nil_l. by exists [].
        -- rewrite <- sapp_cons, sep_boundary. exists [""].
           split; [repeat constructor|done].
      * rewrite sapp_cons. simpl in Hlen.
        destruct (Ascii.eqb c Char.CR && Ascii.eqb c' Char.LF).
        -- destruct (IH a "" b ltac:(lia)) as (extra & Hex & ->).
           by exists extra.
        -- destruct (IH (String c' a) "" b ltac:(simpl; lia))
             as (extra & Hex & Heq).
           rewrite sapp_cons in Heq. rewrite Heq. by exists extra.
    + rewrite !(splitlines_from_char _ _ _ Hc).
      destruct (IH a (cur +:+ String c "") b ltac:(lia)) as (extra & Hex & ->).
      by exists extra.
Qed.

End Join.

Lemma omap_empty_lines (re : Pattern) (extra : list string) :
  line_record re "" = None ->
  Forall (fun l => l = "") extra -> omap (line_record re) extra = [].
Proof.
  intros Hnone. induction 1 as [|l extra -> _ IH]; [done|].
  by rewrite (omap_cons_None _ _ _ Hnone).
Qed.

Lemma omap_splitlines_join_LF (re : Pattern) a b :
  line_record re "" = None ->
  omap (line_record re) (splitlines (a +:+ String Char.LF b))
  = omap (line_record re) (splitlines a)
    ++ omap (line_record re) (splitlines b).
Proof.
  intros Hnone. unfold splitlines at 1 2.
  destruct (splitlines_from_join Char.LF "" splitlines_from_LF
              ltac:(done) (String.length a) a "" b ltac:(lia))
    as (extra & Hex & Heq).
  change (String Char.LF "" +:+ b) with (String Char.LF b) in Heq.
  rewrite Heq.
  by rewrite !omap_app, (omap_empty_lines re extra Hnone Hex).
Qed.

Lemma omap_splitlines_join_CRLF (re : Pattern) a b :
  line_record re "" = None ->
  omap (line_record re)
       (splitlines (a +:+ String Char.CR (String Char.LF b)))
  = omap (line_record re) (splitlines a)
    ++ omap (line_record re) (splitlines b).
Proof.
  intros Hnone. unfold splitlines at 1 2.
  destruct (splitlines_from_join Char.CR (String Char.LF "")
              splitlines_from_CRLF ltac:(by vm_compute)
              (String.length a) a "" b ltac:(lia))
    as (extra & Hex & Heq).
  change (String Char.CR (String Char.LF "") +:+ b)
    with (String Char.CR (String Char.LF b)) in Heq.
  rewrite Heq.
  by rewrite !omap_app, (omap_empty_lines re extra Hnone Hex).
Qed.

(** ** When the patterns of LibClang match *)

Lemma all_chars_false p s :
  all_chars p s = false ->
  exists pre c rest, s = pre +:+ String c rest /\ p c = false.
Proof.
  induction s as [|c s IH]; simpl; [done|].
  destruct (p c) eqn:Hc; simpl.
  - intros (pre & c' & rest & -> & Hc')%IH. by exists (String c pre), c', rest.
  - intros _. by exists "", c, s.
Qed.

(** The message pattern needs one character that is no line feed. *)
Lemma msg_search_found s :
  all_chars (Char.only Char.LF) s = false ->
  is_Some (Pattern_search LibClangCompilerVariant_.msg_regex s).
Proof.
  intros (pre & c & rest & -> & Hc)%all_chars_false.
  unfold Pattern_search.
  apply (search_complete _ pre (String c rest) rest (<["error" := String c ""]> ∅)).
  cbn [program LibClangCompilerVariant_.msg_regex cat_all fold_right].
  eapply matches_Cat; [by apply (matches_Rep_intro _ 0 "")|].
  eapply matches_Cat.
  { apply (matches_GroupRep_intro "error" Char.any 1 (String c "") rest).
    - simpl. unfold Char.any. unfold Char.only in Hc. by rewrite Hc.
    - simpl. lia. }
  eapply matches_Cat; [by apply (matches_Rep_intro _ 0 "")|].
  constructor.
Qed.

Lemma msg_search_none s :
  all_chars (Char.only Char.LF) s = true ->
  Pattern_search LibClangCompilerVariant_.msg_regex s = None.
Proof.
  intros Hall. unfold Pattern_search.
  destruct (search _ s) as [g|] eqn:Hs; [|done]. exfalso.
  apply search_sound in Hs as (pre & rest & s' & -> & Hm).
  apply msg_regex_shape in Hm as (q1 & err & q2 & -> & _ & Herr & Hlen & _).
  rewrite !all_chars_app in Hall.
  apply andb_prop in Hall as [_ Hall]. apply andb_prop in Hall as [_ Hall].
  apply andb_prop in Hall as [Hall _].
  destruct err as [|c err]; simpl in *; [lia|].
  apply andb_prop in Hall as [Hc _]. apply andb_prop in Herr as [Hc' _].
  unfold Char.any in Hc'. unfold Char.only in Hc. by rewrite Hc in Hc'.
Qed.

(** The position pattern matches every location that holds a quoted
    file, then [line], a number, [, column] and a number. *)
Lemma pos_search_found pre file mid sp1 row sp2 col post :
  all_chars Char.any file = true -> 1 <= String.length file ->
  all_chars Char.any mid = true ->
  Char.space sp1 = true -> Char.space sp2 = true ->
  all_chars Char.digit row = true -> 1 <= String.length row ->
  all_chars Char.digit col = true -> 1 <= String.length col ->
  is_Some (Pattern_search LibClangCompilerVariant_.pos_regex
             (pre +:+ "'" +:+ file +:+ "'" +:+ mid +:+ "line"
              +:+ String sp1 row +:+ ", " +:+ "column" +:+ String sp2 col
              +:+ post)).
Proof.
  intros Hf Hf1 Hmid Hsp1 Hsp2 Hr Hr1 Hc Hc1. unfold Pattern_search.
  eapply (search_complete _ pre _ post).
  cbn [program LibClangCompilerVariant_.pos_regex cat_all fold_right].
  eapply matches_Cat; [apply matches_Lit|].
  eapply matches_Cat; [by apply matches_GroupRep_intro|].
  eapply matches_Cat; [apply matches_Lit|].
  eapply matches_Cat; [apply matches_Rep_intro; [done|lia]|].
  eapply matches_Cat; [apply matches_Str_intro|].
  rewrite (sapp_cons sp1 row).
  eapply matches_Cat; [by apply matches_Cls|].
  eapply matches_Cat; [by apply matches_GroupRep_intro|].
  eapply matches_Cat; [apply matches_Str_intro|].
  eapply matches_Cat; [apply matches_Str_intro|].
  rewrite (sapp_cons sp2 col).
  eapply matches_Cat; [by apply matches_Cls|].
  eapply matches_Cat; [by apply matches_GroupRep_intro|].
  constructor.
Qed.

(** A diagnostic on which both patterns match has a record and leaves
    no log. *)
Lemma diag_with_record pos_re msg_re d pm mm :
  Pattern_search pos_re (location d) = Some pm ->
  Pattern_search msg_re (spelling d) = Some mm ->
  diag_record pos_re msg_re d
  = Some (dict_update (Match_groupdict pos_re pm) (Match_groupdict msg_re mm))
  /\ diag_log pos_re msg_re d = [].
Proof. unfold diag_record, diag_log. by intros -> ->. Qed.

Lemma diag_record_log_length pos_re msg_re ds :
  length (omap (diag_record pos_re msg_re) ds)
  + length (concat (map (diag_log pos_re msg_re) ds))
  = length ds.
Proof.
  induction ds as [|d ds IH]; [done|].
  cbn [map concat omap list_omap]. rewrite length_app.
  unfold diag_record at 1, diag_log at 1.
  destruct (Pattern_search pos_re (location d)) as [pm|]; simpl; [|lia].
  destruct (Pattern_search msg_re (spelling d)) as [mm|]; simpl; lia.
Qed.

(** ** Running the matcher forwards *)

(** [greedy] stops at a run on which the continuation succeeds when it
    fails on every longer one. *)
Lemma greedy_at {A} p min t s' (k : string -> option A) a :
  all_chars p t = true -> min <= String.length t ->
  k s' = Some a ->
  (forall t2 s2, t +:+ s' = t2 +:+ s2 -> all_chars p t2 = true ->
                 String.length t < String.length t2 -> k s2 = None) ->
  greedy p min (t +:+ s') k = Some a.
Proof.
  intros Ht Hmin Hk Hnone.
  destruct (greedy_complete p min t s' k Ht Hmin ltac:(by rewrite Hk))
    as [a' Ha'].
  rewrite Ha'. f_equal.
  apply greedy_longest in Ha' as (t1 & s1 & Heq & Ht1 & _ & Hk1 & Hmax).
  destruct (Nat.lt_trichotomy (String.length t) (String.length t1))
    as [Hlt|[Hlen|Hgt]].
  - rewrite (Hnone t1 s1 Heq Ht1 Hlt) in Hk1. done.
  - apply sapp_inv_length in Heq as [_ <-]; [|done]. congruence.
  - rewrite (Hmax t s' eq_refl Ht Hgt) in Hk. done.
Qed.

Section ExecForward.

Context {A : Type}.
Implicit Types (k : string -> gmap string string -> option A).

Lemma exec_Cat_Lit_eq c r s g k :
  exec (Cat (Lit c) r) (String c s) g k = exec r s g k.
Proof. simpl. by rewrite Ascii.eqb_refl. Qed.

Lemma exec_Cat_Lit_ne c r s g k :
  match s with String c' _ => Ascii.eqb c' c = false | EmptyString => True end ->
  exec (Cat (Lit c) r) s g k = None.
Proof. destruct s as [|c' s]; simpl; [done|]. by intros ->. Qed.

Lemma exec_Cat_Cls_eq p c r s g k :
  p c = true -> exec (Cat (Cls p) r) (String c s) g k = exec r s g k.
Proof. simpl. by intros ->. Qed.

Lemma exec_Cat_Str_eq t r s g k :
  exec (Cat (Str t) r) (t +:+ s) g k = exec r s g k.
Proof.
  rewrite exec_Cat. revert s. induction t as [|c t IH]; intros s; [done|].
  rewrite sapp_cons. cbn [Str]. rewrite exec_Cat_Lit_eq. apply IH.
Qed.

Lemma exec_Cat_Rep_eq p min r s g k :
  exec (Cat (Rep p min) r) s g k
  = greedy p min s (fun s' => exec r s' g k).
Proof. reflexivity. Qed.

End ExecForward.

(** The search passes over a start in which the first character of the
    pattern does not occur. *)
Lemma search_skip c r pre s :
  all_chars (fun x => negb (Ascii.eqb x c)) pre = true ->
  search (Cat (Lit c) r) (pre +:+ s) = search (Cat (Lit c) r) s.
Proof.
  induction pre as [|x pre IH]; [done|]. intros Hall.
  cbn [all_chars] in Hall. apply andb_prop in Hall as [Hx Hpre].
  apply negb_true_iff in Hx.
  rewrite sapp_cons. cbn [search]. unfold match_at at 1.
  rewrite exec_Cat_Lit_ne by done. by apply IH.
Qed.

(** Two ways of cutting one text, again: the second cut falls inside the
    first part or after it. *)
Lemma sapp_eq_cases t s a b :
  t +:+ s = a +:+ b ->
  (exists u, u <> "" /\ a = t +:+ u /\ s = u +:+ b) \/
  (exists v, t = a +:+ v /\ b = v +:+ s).
Proof.
  intros Heq.
  destruct (Nat.le_gt_cases (String.length a) (String.length t)) as [Hle|Hgt].
  - right. symmetry in Heq.
    destruct (sapp_eq_app _ _ _ _ Heq Hle) as (v & -> & ->). by exists v.
  - left. destruct (sapp_eq_app _ _ _ _ Heq ltac:(lia)) as (u & -> & ->).
    exists u. split; [|done]. intros ->.
    rewrite length_sapp in Hgt. simpl in Hgt. lia.
Qed.

(** A text that begins with [l] does not begin inside a number. *)
Lemma digits_then_not_l (u rest s3 : string) :
  u <> "" -> all_chars Char.digit u = true ->
  u +:+ rest <> "line" +:+ s3.
Proof.
  destruct u as [|c u]; [done|]. intros _ [Hc _]%andb_prop.
  rewrite sapp_cons. intros [= -> _]. by vm_compute in Hc.
Qed.

Lemma all_chars_suffix p t s : all_chars p (t +:+ s) = true -> all_chars p s = true.
Proof. rewrite all_chars_app. by intros [_ ?]%andb_prop. Qed.

(** ** The position pattern on the usual rendering of a location *)

(** Cuts a literal text in two in every possible way. *)
Ltac cut_literal Hw :=
  repeat match type of Hw with
         | _ = ?t +:+ _ =>
             is_var t; destruct t as [|? t];
             [rewrite sapp_nil_l in Hw
             |rewrite sapp_cons in Hw; injection Hw as <- Hw]
         end;
  try (symmetry in Hw; apply sapp_eq_nil in Hw as [-> ->]);
  try subst.

(** After [, line row, column col] and a rest without [line], no later
    place of the text starts with [line]. *)
Lemma line_only_once row col post t2 s3 :
  all_chars Char.digit row = true -> all_chars Char.digit col = true ->
  ~ occurs "line" post ->
  ", line " +:+ row +:+ ", column " +:+ col +:+ post
  = t2 +:+ "line" +:+ s3 ->
  String.length t2 <= 2.
Proof.
  intros Hr Hc Hpost Heq. symmetry in Heq.
  apply sapp_eq_cases in Heq as [(u & Hu & Hw & Hs)|(v & -> & Heq)].
  { cut_literal Hw; try congruence; simpl; try lia;
      rewrite ?sapp_cons, ?sapp_nil_l in Hs; discriminate. }
  exfalso. symmetry in Heq.
  apply sapp_eq_cases in Heq as [(u & Hu & -> & Hs)|(v' & -> & Heq)].
  { rewrite all_chars_app in Hr. apply andb_prop in Hr as [_ Hr].
    by eapply digits_then_not_l. }
  symmetry in Heq.
  apply sapp_eq_cases in Heq as [(u & Hu & Hw & Hs)|(v'' & -> & Heq)].
  { cut_literal Hw; try congruence;
      rewrite ?sapp_cons, ?sapp_nil_l in Hs; discriminate. }
  symmetry in Heq.
  apply sapp_eq_cases in Heq as [(u & Hu & -> & Hs)|(v3 & -> & Heq)].
  { rewrite all_chars_app in Hc. apply andb_prop in Hc as [_ Hc].
    by eapply digits_then_not_l. }
  apply Hpost. by exists v3, s3.
Qed.

Lemma all_chars_impl (p q : ascii -> bool) s :
  (forall c, p c = true -> q c = true) ->
  all_chars p s = true -> all_chars q s = true.
Proof.
  intros Hpq. induction s as [|c s IH]; [done|]. simpl.
  intros [Hc Hs]%andb_prop. by rewrite (Hpq c Hc), IH.
Qed.

Lemma digit_is_no_apostrophe c :
  Char.digit c = true -> negb (Ascii.eqb c "'") = true.
Proof.
  intros Hc. destruct (Ascii.eqb_spec c "'") as [->|]; [|done].
  by vm_compute in Hc.
Qed.

(** On [pre'file', line row, column col post], where no apostrophe
    stands in [pre] or in [post], [post] holds no [line] and does not go
    on with a digit, the position pattern captures [file], [row] and
    [col]. *)
Lemma pos_search_standard pre file row col post :
  all_chars (fun x => negb (Ascii.eqb x "'")) pre = true ->
  all_chars Char.any file = true -> 1 <= String.length file ->
  all_chars Char.digit row = true -> 1 <= String.length row ->
  all_chars Char.digit col = true -> 1 <= String.length col ->
  all_chars (fun x => negb (Ascii.eqb x "'")) post = true ->
  ~ occurs "line" post ->
  match post with
  | String c _ => Char.digit c = false
  | EmptyString => True
  end ->
  Pattern_search LibClangCompilerVariant_.pos_regex
    (pre +:+ "'" +:+ file +:+ "', line " +:+ row +:+ ", column " +:+ col
     +:+ post)
  = Some (<["col" := col]> (<["row" := row]> (<["file" := file]> ∅))).
Proof.
  intros Hpre Hf Hf1 Hr Hr1 Hc Hc1 Hpost Hline Hstop.
  unfold Pattern_search.
  cbn [program LibClangCompilerVariant_.pos_regex cat_all fold_right].
  rewrite search_skip by done. apply search_at_start. unfold match_at.
  change ("'" +:+ file +:+ "', line " +:+ row +:+ ", column " +:+ col
          +:+ post)
    with (String "'" (file +:+ "', line " +:+ row +:+ ", column " +:+ col
                      +:+ post)).
  rewrite exec_Cat_Lit_eq, exec_Cat_GroupRep. apply greedy_at; [done..| |].
  - rewrite taken_app.
    change ("', line " +:+ row +:+ ", column " +:+ col +:+ post)
      with (String "'" (", " +:+ "line" +:+ String " "
              (row +:+ ", " +:+ "column" +:+ String " " (col +:+ post)))).
    rewrite exec_Cat_Lit_eq, exec_Cat_Rep_eq.
    apply greedy_at; [done|simpl; lia| |].
    + rewrite exec_Cat_Str_eq, exec_Cat_Cls_eq by done.
      rewrite exec_Cat_GroupRep. apply greedy_whole_run; [done..|].
      rewrite taken_app, !exec_Cat_Str_eq, exec_Cat_Cls_eq by done.
      rewrite exec_Cat_GroupRep. apply greedy_whole_run; [done..|].
      by rewrite taken_app.
    + intros t2 s2 Heq _ Hlen.
      destruct (exec _ s2 _ _) as [g|] eqn:E; [exfalso|done].
      rewrite exec_Cat in E. apply exec_Str_Some in E as (s3 & -> & _).
      change (", " +:+ "line" +:+ String " "
                (row +:+ ", " +:+ "column" +:+ String " " (col +:+ post)))
        with (", line " +:+ row +:+ ", column " +:+ col +:+ post) in Heq.
      apply line_only_once in Heq; try done. simpl in Hlen. lia.
  - intros t2 s2 Heq _ Hlen. apply exec_Cat_Lit_ne.
    destruct (sapp_eq_app _ _ _ _ Heq ltac:(lia)) as (u & -> & Hs).
    destruct u as [|c u].
    { rewrite length_sapp in Hlen. simpl in Hlen. lia. }
    change ("', line " +:+ row +:+ ", column " +:+ col +:+ post)
      with (String "'" (", line " +:+ row +:+ ", column " +:+ col +:+ post))
      in Hs.
    rewrite sapp_cons in Hs. injection Hs as _ Hs.
    assert (Hall : all_chars (fun x => negb (Ascii.eqb x "'"))
                     (", line " +:+ row +:+ ", column " +:+ col +:+ post)
                   = true).
    { rewrite !all_chars_app, Hpost.
      rewrite (all_chars_impl _ _ row digit_is_no_apostrophe Hr).
      by rewrite (all_chars_impl _ _ col digit_is_no_apostrophe Hc). }
    assert (Hall' : all_chars (fun x => negb (Ascii.eqb x "'")) (u +:+ s2)
                    = true) by (rewrite <- Hs; exact Hall).
    clear Hall. apply all_chars_suffix in Hall' as Hall.
    destruct s2 as [|c2 s2]; [done|]. simpl in Hall.
    apply andb_prop in Hall as [Hc2 _]. by apply negb_true_iff in Hc2.
Qed.

Lemma pos_groupdict file row col :
  Match_groupdict LibClangCompilerVariant_.pos_regex
    (<["col" := col]> (<["row" := row]> (<["file" := file]> ∅)))
  = {[ "file" := VStr file; "row" := VStr row; "col" := VStr col ]}.
Proof.
  unfold Match_groupdict, groupdict.
  cbn [program LibClangCompilerVariant_.pos_regex cat_all fold_right
       group_names app Str map].
  simpl. by simplify_map_eq.
Qed.

Lemma msg_groupdict text :
  Match_groupdict LibClangCompilerVariant_.msg_regex (<["error" := text]> ∅)
  = {[ "error" := VStr text ]}.
Proof.
  unfold Match_groupdict, groupdict.
  cbn [program LibClangCompilerVariant_.msg_regex cat_all fold_right
       group_names app map].
  simpl. by simplify_map_eq.
Qed.

Lemma dict_update_error_record file row col err :
  dict_update {[ "file" := VStr file; "row" := VStr row; "col" := VStr col ]}
              {[ "error" := VStr err ]}
  = error_record file row col err.
Proof.
  unfold dict_update, error_record. apply map_eq. intros k.
  destruct (decide (k = "error")) as [->|He]; [by simplify_map_eq|].
  rewrite lookup_union_r by by simplify_map_eq.
  destruct (decide (k = "file")) as [->|Hf]; [by simplify_map_eq|].
  destruct (decide (k = "row")) as [->|Hr]; [by simplify_map_eq|].
  destruct (decide (k = "col")) as [->|Hc]; by simplify_map_eq.
Qed.

(** ** Reading a line in one way only *)

(** A run of characters of a class does not start with a character
    outside of it. *)
Lemma run_starts_in_class p c w x y :
  w <> "" -> all_chars p w = true -> p c = false ->
  w +:+ x <> String c y.
Proof.
  destruct w as [|c' w]; [done|]. intros _ [Hc' _]%andb_prop Hc.
  rewrite sapp_cons. intros [= -> _]. congruence.
Qed.

(** Two runs of a class that end at the same delimiter are the same. *)
Lemma run_unique p c a b x y :
  all_chars p a = true -> all_chars p b = true -> p c = false ->
  a +:+ String c x = b +:+ String c y -> a = b /\ x = y.
Proof.
  intros Ha Hb Hc Heq.
  apply sapp_eq_cases in Heq as [(u & Hu & -> & Hx)|(v & -> & Hy)].
  - rewrite all_chars_app in Hb. apply andb_prop in Hb as [_ Hb].
    symmetry in Hx. destruct (run_starts_in_class p c _ _ _ Hu Hb Hc Hx).
  - destruct v as [|c' v].
    + rewrite sapp_nil_r. rewrite sapp_nil_l in Hy. by injection Hy as ->.
    + rewrite all_chars_app in Ha. apply andb_prop in Ha as [_ Ha].
      symmetry in Hy.
      destruct (run_starts_in_class p c (String c' v) _ _ ltac:(done) Ha Hc Hy).
Qed.

(** What follows the last [error: ] of a text is well defined. *)
Lemma last_error_unique a b x y :
  a +:+ "error: " +:+ x = b +:+ "error: " +:+ y ->
  ~ occurs "error: " x -> ~ occurs "error: " y -> x = y.
Proof.
  assert (Hhalf : forall a b x y,
             a +:+ "error: " +:+ x = b +:+ "error: " +:+ y ->
             ~ occurs "error: " x ->
             String.length a <= String.length b -> x = y).
  { clear. intros a b x y Heq Hx Hlen.
    destruct (sapp_eq_app _ _ _ _ Heq Hlen) as (u & -> & Hu).
    destruct u as [|c u]; [by injection Hu|].
    exfalso. symmetry in Hu.
    apply sapp_eq_cases in Hu as [(w & Hw & Hlit & Hs)|(v & Hv & ->)].
    - rewrite sapp_cons in Hlit. injection Hlit as <- Hlit.
      cut_literal Hlit; try congruence;
        rewrite ?sapp_cons, ?sapp_nil_l in Hs; discriminate.
    - apply Hx. by exists v, y. }
  intros Heq Hx Hy.
  destruct (Nat.le_ge_cases (String.length a) (String.length b)).
  - by eapply Hhalf.
  - symmetry. symmetry in Heq. by eapply Hhalf.
Qed.

(** No number followed by [:] starts where a text without [:] is
    followed by [error: ]. *)
Lemma number_not_before_error r x gap y :
  all_chars Char.digit r = true -> 1 <= String.length r ->
  ~ occurs ":" gap ->
  r +:+ ":" +:+ x <> gap +:+ "error: " +:+ y.
Proof.
  intros Hr Hr1 Hgap Heq.
  apply sapp_eq_cases in Heq as [(u & Hu & -> & Hx)|(v & -> & Hy)].
  - destruct u as [|c u]; [done|]. injection Hx as <- _.
    apply Hgap. by exists r, u.
  - destruct v as [|c v].
    + rewrite sapp_nil_l in Hy. discriminate.
    + rewrite sapp_cons in Hy. injection Hy as <- _.
      rewrite all_chars_app in Hr. apply andb_prop in Hr as [_ Hr].
      simpl in Hr. by vm_compute in Hr.
Qed.

(** In [:row:col:gap error: msg], where [gap] holds no [:] and [msg] no
    [error: ], the pattern cannot start again further right. *)
Lemma clang_no_later_triple row col gap msg u r' c' rest' :
  all_chars Char.digit row = true -> all_chars Char.digit col = true ->
  ~ occurs ":" gap -> ~ occurs "error: " msg ->
  all_chars Char.digit r' = true -> 1 <= String.length r' ->
  all_chars Char.digit c' = true -> 1 <= String.length c' ->
  occurs "error: " rest' ->
  ":" +:+ row +:+ ":" +:+ col +:+ ":" +:+ gap +:+ "error: " +:+ msg
  = u +:+ ":" +:+ r' +:+ ":" +:+ c' +:+ ":" +:+ rest' ->
  u = "".
Proof.
  intros Hrow Hcol Hgap Hmsg Hr Hr1 Hc Hc1 (a & b & ->) Heq.
  destruct u as [|x u]; [done|exfalso].
  rewrite !sapp_cons, !sapp_nil_l in Heq. injection Heq as <- Heq.
  symmetry in Heq.
  apply sapp_eq_cases in Heq as [(w & Hw & -> & Hs)|(v & -> & Heq)].
  { rewrite all_chars_app in Hrow. apply andb_prop in Hrow as [_ Hw'].
    symmetry in Hs.
    by destruct (run_starts_in_class Char.digit ":" _ _ _ Hw Hw' eq_refl Hs). }
  destruct v as [|x v].
  { rewrite sapp_nil_l in Heq. injection Heq as Heq.
    apply (run_unique Char.digit ":") in Heq as [_ Heq]; [|done..].
    symmetry in Heq. by apply number_not_before_error in Heq. }
  rewrite sapp_cons in Heq. injection Heq as <- Heq. symmetry in Heq.
  apply sapp_eq_cases in Heq as [(w & Hw & -> & Hs)|(v' & -> & Heq)].
  { rewrite all_chars_app in Hcol. apply andb_prop in Hcol as [_ Hw'].
    symmetry in Hs.
    by destruct (run_starts_in_class Char.digit ":" _ _ _ Hw Hw' eq_refl Hs). }
  destruct v' as [|x v'].
  { rewrite sapp_nil_l in Heq. injection Heq as Heq.
    symmetry in Heq. by apply number_not_before_error in Heq. }
  rewrite sapp_cons in Heq. injection Heq as <- Heq. symmetry in Heq.
  apply sapp_eq_cases in Heq as [(w & Hw & -> & Hs)|(v2 & -> & Heq)].
  { destruct w as [|x w]; [done|]. injection Hs as <- _.
    apply Hgap. by exists v', w. }
  symmetry in Heq.
  apply (sapp_eq_cases _ _ "error: " msg) in Heq
    as [(w & Hw & Hlit & Hs)|(v3 & -> & ->)].
  { cut_literal Hlit; try congruence;
      rewrite ?sapp_cons, ?sapp_nil_l in Hs; try discriminate.
    injection Hs as Hs. destruct r' as [|x r'].
    { simpl in Hr1. lia. }
    rewrite sapp_cons in Hs. injection Hs as -> _.
    simpl in Hr. by vm_compute in Hr. }
  apply Hmsg.
  exists (v3 +:+ ":" +:+ r' +:+ ":" +:+ c' +:+ ":" +:+ a), b.
  by rewrite !sapp_assoc.
Qed.

(** The record of the usual Clang line [file:row:col:gap error: msg],
    where [gap] holds no [:] and [msg] no [error: ]. *)
Lemma clang_line_record_standard file row col gap msg :
  all_chars Char.any (file +:+ ":" +:+ row +:+ ":" +:+ col +:+ ":" +:+ gap
                      +:+ "error: " +:+ msg) = true ->
  all_chars Char.digit row = true -> 1 <= String.length row ->
  all_chars Char.digit col = true -> 1 <= String.length col ->
  ~ occurs ":" gap -> ~ occurs "error: " msg ->
  line_record ClangCompilerVariant_.error_regex
    (file +:+ ":" +:+ row +:+ ":" +:+ col +:+ ":" +:+ gap +:+ "error: "
     +:+ msg)
  = Some (error_record file row col msg).
Proof.
  intros Hany Hr Hr1 Hc Hc1 Hgap Hmsg.
  assert (Hocc : occurs "error: " (gap +:+ "error: " +:+ msg))
    by by exists gap, msg.
  destruct (clang_line_record_found file row col _ Hany Hr Hr1 Hc Hc1 Hocc)
    as [d Hd].
  rewrite Hd. f_equal.
  destruct (clang_line_record_exact _ _ Hany Hd)
    as (file' & row' & col' & ws & mid & err & Hline & Hr' & Hr1' & Hc' & Hc1'
        & _ & Herr & -> & Hmax).
  specialize (Hmax file row col _ eq_refl Hr Hr1 Hc Hc1 Hocc).
  destruct (sapp_eq_app _ _ _ _ Hline Hmax) as (u & -> & Heq).
  assert (u = "") as ->.
  { eapply (clang_no_later_triple row col gap msg u row' col'
              (ws +:+ mid +:+ "error: " +:+ err)); try done.
    exists (ws +:+ mid), err. by rewrite sapp_assoc. }
  rewrite sapp_nil_l in Heq. rewrite sapp_nil_r.
  injection Heq as Heq.
  apply (run_unique Char.digit ":") in Heq as [-> Heq]; [|done..].
  apply (run_unique Char.digit ":") in Heq as [-> Heq]; [|done..].
  rewrite <- (sapp_assoc ws mid) in Heq.
  by rewrite (last_error_unique _ _ _ _ Heq Hmsg Herr).
Qed.

(** In [(row,col)ws:gap error: msg], where [gap] holds no [(] and [msg]
    no [error: ], the ClangCl pattern cannot start again further
    right. *)
Lemma clang_cl_no_later_pair row col ws gap msg u r' c' ws' rest' :
  all_chars Char.digit row = true -> all_chars Char.digit col = true ->
  all_chars Char.space ws = true ->
  ~ occurs "(" gap -> ~ occurs "error: " msg ->
  occurs "error: " rest' ->
  "(" +:+ row +:+ "," +:+ col +:+ ")" +:+ ws +:+ ":" +:+ gap +:+ "error: "
  +:+ msg
  = u +:+ "(" +:+ r' +:+ "," +:+ c' +:+ ")" +:+ ws' +:+ ":" +:+ rest' ->
  u = "".
Proof.
  intros Hrow Hcol Hws Hgap Hmsg (a & b & ->) Heq.
  destruct u as [|x u]; [done|exfalso].
  rewrite !sapp_cons, !sapp_nil_l in Heq. injection Heq as <- Heq.
  symmetry in Heq.
  apply sapp_eq_cases in Heq as [(w & Hw & -> & Hs)|(v & -> & Heq)].
  { rewrite all_chars_app in Hrow. apply andb_prop in Hrow as [_ Hw'].
    symmetry in Hs.
    by destruct (run_starts_in_class Char.digit "(" _ _ _ Hw Hw' eq_refl Hs). }
  destruct v as [|x v]; [rewrite sapp_nil_l in Heq; discriminate|].
  rewrite sapp_cons in Heq. injection Heq as <- Heq. symmetry in Heq.
  apply sapp_eq_cases in Heq as [(w & Hw & -> & Hs)|(v' & -> & Heq)].
  { rewrite all_chars_app in Hcol. apply andb_prop in Hcol as [_ Hw'].
    symmetry in Hs.
    by destruct (run_starts_in_class Char.digit "(" _ _ _ Hw Hw' eq_refl Hs). }
  destruct v' as [|x v']; [rewrite sapp_nil_l in Heq; discriminate|].
  rewrite sapp_cons in Heq. injection Heq as <- Heq. symmetry in Heq.
  apply sapp_eq_cases in Heq as [(w & Hw & -> & Hs)|(v2 & -> & Heq)].
  { rewrite all_chars_app in Hws. apply andb_prop in Hws as [_ Hw'].
    symmetry in Hs.
    by destruct (run_starts_in_class Char.space "(" _ _ _ Hw Hw' eq_refl Hs). }
  destruct v2 as [|x v2]; [rewrite sapp_nil_l in Heq; discriminate|].
  rewrite sapp_cons in Heq. injection Heq as <- Heq. symmetry in Heq.
  apply sapp_eq_cases in Heq as [(w & Hw & -> & Hs)|(v3 & -> & Heq)].
  { destruct w as [|x w]; [done|]. injection Hs as <- _.
    apply Hgap. by exists v2, w. }
  symmetry in Heq.
  apply (sapp_eq_cases _ _ "error: " msg) in Heq
    as [(w & Hw & Hlit & Hs)|(v4 & -> & ->)].
  { cut_literal Hlit; try congruence;
      rewrite ?sapp_cons, ?sapp_nil_l in Hs; discriminate. }
  apply Hmsg.
  exists (v4 +:+ "(" +:+ r' +:+ "," +:+ c' +:+ ")" +:+ ws' +:+ ":" +:+ a), b.
  by rewrite !sapp_assoc.
Qed.

(** The record of the usual ClangCl line [file(row,col)ws:gap error:
    msg], where [gap] holds no [(] and [msg] no [error: ]. *)
Lemma clang_cl_line_record_standard file row col ws gap msg :
  all_chars Char.any (file +:+ "(" +:+ row +:+ "," +:+ col +:+ ")" +:+ ws
                      +:+ ":" +:+ gap +:+ "error: " +:+ msg) = true ->
  all_chars Char.digit row = true -> 1 <= String.length row ->
  all_chars Char.digit col = true -> 1 <= String.length col ->
  all_chars Char.space ws = true ->
  ~ occurs "(" gap -> ~ occurs "error: " msg ->
  line_record ClangClCompilerVariant_.error_regex
    (file +:+ "(" +:+ row +:+ "," +:+ col +:+ ")" +:+ ws +:+ ":" +:+ gap
     +:+ "error: " +:+ msg)
  = Some (error_record file row col msg).
Proof.
  intros Hany Hr Hr1 Hc Hc1 Hws Hgap Hmsg.
  assert (Hocc : occurs "error: " (gap +:+ "error: " +:+ msg))
    by by exists gap, msg.
  destruct (clang_cl_line_record_found file row col ws _
              Hany Hr Hr1 Hc Hc1 Hws Hocc) as [d Hd].
  rewrite Hd. f_equal.
  destruct (clang_cl_line_record_exact _ _ Hany Hd)
    as (file' & row' & col' & ws1 & ws2 & mid & err & Hline & Hr' & Hr1' & Hc'
        & Hc1' & Hws1 & _ & Herr & -> & Hmax).
  specialize (Hmax file row col ws _ eq_refl Hr Hr1 Hc Hc1 Hws Hocc).
  destruct (sapp_eq_app _ _ _ _ Hline Hmax) as (u & -> & Heq).
  assert (u = "") as ->.
  { eapply (clang_cl_no_later_pair row col ws gap msg u row' col' ws1
              (ws2 +:+ mid +:+ "error: " +:+ err)); try done.
    exists (ws2 +:+ mid), err. by rewrite sapp_assoc. }
  rewrite sapp_nil_l in Heq. rewrite sapp_nil_r.
  injection Heq as Heq.
  apply (run_unique Char.digit ",") in Heq as [-> Heq]; [|done..].
  apply (run_unique Char.digit ")") in Heq as [-> Heq]; [|done..].
  apply (run_unique Char.space ":") in Heq as [-> Heq]; [|done..].
  rewrite <- (sapp_assoc ws2 mid) in Heq.
  by rewrite (last_error_unique _ _ _ _ Heq Hmsg Herr).
Qed.

(** * More on the parsers *)

(** X1: every record the Clang variant returns comes from one line of
    the output, read from its first to its last character as
    [file:row:col:], white space, any text, [error: ] and the error.
    The file is everything before the last [:row:col:] that is followed
    in this way, and the error is what follows the last [error: ] of the
    line. *)
Theorem clang_record_reads_the_whole_line (output : string)
        (recs : list ErrorRecord) (lg : list log_record) (d : ErrorRecord) :
  errors_from_output ClangCompilerVariant (Text output) = (Ok recs, lg) ->
  In d recs ->
  exists line file row col ws mid err,
    In line (splitlines output) /\
    line = file +:+ ":" +:+ row +:+ ":" +:+ col +:+ ":" +:+ ws +:+ mid
           +:+ "error: " +:+ err /\
    all_chars Char.digit row = true /\ 1 <= String.length row /\
    all_chars Char.digit col = true /\ 1 <= String.length col /\
    all_chars Char.space ws = true /\
    ~ occurs "error: " err /\
    d = error_record file row col err /\
    forall file' row' col' rest',
      line = file' +:+ ":" +:+ row' +:+ ":" +:+ col' +:+ ":" +:+ rest' ->
      all_chars Char.digit row' = true -> 1 <= String.length row' ->
      all_chars Char.digit col' = true -> 1 <= String.length col' ->
      occurs "error: " rest' ->
      String.length file' <= String.length file.
Proof.
  rewrite errors_from_output_Clang. intros [= <- _] Hd.
  apply list_elem_of_In, list_elem_of_omap in Hd as (line & Hin & Hrec).
  apply list_elem_of_In in Hin.
  pose proof (splitlines_all_any _ _ Hin) as Hany.
  apply clang_line_record_exact in Hrec
    as (file & row & col & ws & mid & err & Hline & Hr & Hr1 & Hc & Hc1 & Hws
        & Hlast & Hd & Hmax); [|done].
  by exists line, file, row, col, ws, mid, err.
Qed.

Lemma clang_record_reads_the_whole_line_witness :
  errors_from_output ClangCompilerVariant
    (Text "a.c:1:2: error: x error: y")
  = (Ok [error_record "a.c" "1" "2" "y"], []) /\
  In (error_record "a.c" "1" "2" "y") [error_record "a.c" "1" "2" "y"] /\
  exists line file row col ws mid err,
    In line (splitlines "a.c:1:2: error: x error: y") /\
    line = file +:+ ":" +:+ row +:+ ":" +:+ col +:+ ":" +:+ ws +:+ mid
           +:+ "error: " +:+ err /\
    all_chars Char.digit row = true /\ 1 <= String.length row /\
    all_chars Char.digit col = true /\ 1 <= String.length col /\
    all_chars Char.space ws = true /\
    ~ occurs "error: " err /\
    error_record "a.c" "1" "2" "y" = error_record file row col err /\
    forall file' row' col' rest',
      line = file' +:+ ":" +:+ row' +:+ ":" +:+ col' +:+ ":" +:+ rest' ->
      all_chars Char.digit row' = true -> 1 <= String.length row' ->
      all_chars Char.digit col' = true -> 1 <= String.length col' ->
      occurs "error: " rest' ->
      String.length file' <= String.length file.
Proof.
  assert (H1 : errors_from_output ClangCompilerVariant
                 (Text "a.c:1:2: error: x error: y")
               = (Ok [error_record "a.c" "1" "2" "y"], []))
    by (vm_compute; reflexivity).
  assert (H2 : In (error_record "a.c" "1" "2" "y")
                  [error_record "a.c" "1" "2" "y"]) by by left.
  split; [exact H1|]. split; [exact H2|].
  exact (clang_record_reads_the_whole_line
           "a.c:1:2: error: x error: y"
           [error_record "a.c" "1" "2" "y"] []
           (error_record "a.c" "1" "2" "y") H1 H2).
Defined.

(** X2: a line of the output that reads [file:row:col:] followed by a
    text with [error: ] is never dropped by the Clang variant: it yields
    a record, in its place among the records of the other lines, whose
    file field is at least as long as [file]. *)
Theorem clang_shaped_line_is_kept (output : string) (before : list string)
        (file row col rest : string) (after : list string) :
  splitlines output
  = before ++ (file +:+ ":" +:+ row +:+ ":" +:+ col +:+ ":" +:+ rest)
    :: after ->
  all_chars Char.digit row = true -> 1 <= String.length row ->
  all_chars Char.digit col = true -> 1 <= String.length col ->
  occurs "error: " rest ->
  exists file' row' col' err',
    String.length file <= String.length file' /\
    errors_from_output ClangCompilerVariant (Text output)
    = (Ok (omap (line_record ClangCompilerVariant_.error_regex) before
           ++ error_record file' row' col' err'
           :: omap (line_record ClangCompilerVariant_.error_regex) after),
       []).
Proof.
  intros Hlines Hr Hr1 Hc Hc1 Hocc.
  assert (Hany : all_chars Char.any
                   (file +:+ ":" +:+ row +:+ ":" +:+ col +:+ ":" +:+ rest)
                 = true).
  { apply (splitlines_all_any output). rewrite Hlines.
    apply in_or_app. right. by left. }
  destruct (clang_line_record_found file row col rest Hany Hr Hr1 Hc Hc1 Hocc)
    as [d Hd].
  destruct (clang_line_record_exact _ _ Hany Hd)
    as (file' & row' & col' & ws & mid & err & _ & _ & _ & _ & _ & _ & _ & ->
        & Hmax).
  exists file', row', col', err. split.
  - by apply (Hmax file row col rest).
  - rewrite errors_from_output_Clang, Hlines, omap_app.
    by rewrite (omap_cons_Some _ _ _ _ Hd).
Qed.

Lemma clang_shaped_line_is_kept_witness :
  splitlines ("note: x" +:+ String Char.LF "a.c:1:2: b.c:3:4: error: y")
  = ["note: x"]
    ++ ("a.c" +:+ ":" +:+ "1" +:+ ":" +:+ "2" +:+ ":"
        +:+ " b.c:3:4: error: y") :: [] /\
  exists file' row' col' err',
    String.length "a.c" <= String.length file' /\
    errors_from_output ClangCompilerVariant
      (Text ("note: x" +:+ String Char.LF "a.c:1:2: b.c:3:4: error: y"))
    = (Ok (omap (line_record ClangCompilerVariant_.error_regex) ["note: x"]
           ++ error_record file' row' col' err'
           :: omap (line_record ClangCompilerVariant_.error_regex) []),
       []).
Proof.
  assert (H : splitlines
                ("note: x" +:+ String Char.LF "a.c:1:2: b.c:3:4: error: y")
              = ["note: x"]
                ++ ("a.c" +:+ ":" +:+ "1" +:+ ":" +:+ "2" +:+ ":"
                    +:+ " b.c:3:4: error: y") :: [])
    by (vm_compute; reflexivity).
  split; [exact H|].
  apply (clang_shaped_line_is_kept _ _ "a.c" "1" "2" " b.c:3:4: error: y" _ H);
    [reflexivity|simpl; lia|reflexivity|simpl; lia|].
  by exists " b.c:3:4: ", "y".
Defined.

(** X3: every record the ClangCl variant returns comes from one line of
    the output, read whole as [file(row,col)], white space, [:], white
    space, any text, [error: ] and the error.  The file is everything
    before the last [(row,col)] that is followed in this way, and the
    error is what follows the last [error: ] of the line. *)
Theorem clang_cl_file_is_up_to_last_pair (output : string)
        (recs : list ErrorRecord) (lg : list log_record) (d : ErrorRecord) :
  errors_from_output ClangClCompilerVariant (Text output) = (Ok recs, lg) ->
  In d recs ->
  exists line file row col ws1 ws2 mid err,
    In line (splitlines output) /\
    line = file +:+ "(" +:+ row +:+ "," +:+ col +:+ ")" +:+ ws1 +:+ ":"
           +:+ ws2 +:+ mid +:+ "error: " +:+ err /\
    all_chars Char.digit row = true /\ 1 <= String.length row /\
    all_chars Char.digit col = true /\ 1 <= String.length col /\
    all_chars Char.space ws1 = true /\ all_chars Char.space ws2 = true /\
    ~ occurs "error: " err /\
    d = error_record file row col err /\
    forall file' row' col' ws' rest',
      line = file' +:+ "(" +:+ row' +:+ "," +:+ col' +:+ ")" +:+ ws' +:+ ":"
             +:+ rest' ->
      all_chars Char.digit row' = true -> 1 <= String.length row' ->
      all_chars Char.digit col' = true -> 1 <= String.length col' ->
      all_chars Char.space ws' = true ->
      occurs "error: " rest' ->
      String.length file' <= String.length file.
Proof.
  rewrite errors_from_output_ClangCl. intros [= <- _] Hd.
  apply list_elem_of_In, list_elem_of_omap in Hd as (line & Hin & Hrec).
  apply list_elem_of_In in Hin.
  pose proof (splitlines_all_any _ _ Hin) as Hany.
  apply clang_cl_line_record_exact in Hrec
    as (file & row & col & ws1 & ws2 & mid & err & Hline & Hr & Hr1 & Hc
        & Hc1 & Hws1 & Hws2 & Hlast & Hd & Hmax); [|done].
  by exists line, file, row, col, ws1, ws2, mid, err.
Qed.

Lemma clang_cl_file_is_up_to_last_pair_witness :
  errors_from_output ClangClCompilerVariant
    (Text "a(1,2).c(3,4) : error: x")
  = (Ok [error_record "a(1,2).c" "3" "4" "x"], []) /\
  In (error_record "a(1,2).c" "3" "4" "x")
     [error_record "a(1,2).c" "3" "4" "x"] /\
  exists line file row col ws1 ws2 mid err,
    In line (splitlines "a(1,2).c(3,4) : error: x") /\
    line = file +:+ "(" +:+ row +:+ "," +:+ col +:+ ")" +:+ ws1 +:+ ":"
           +:+ ws2 +:+ mid +:+ "error: " +:+ err /\
    all_chars Char.digit row = true /\ 1 <= String.length row /\
    all_chars Char.digit col = true /\ 1 <= String.length col /\
    all_chars Char.space ws1 = true /\ all_chars Char.space ws2 = true /\
    ~ occurs "error: " err /\
    error_record "a(1,2).c" "3" "4" "x" = error_record file row col err /\
    forall file' row' col' ws' rest',
      line = file' +:+ "(" +:+ row' +:+ "," +:+ col' +:+ ")" +:+ ws' +:+ ":"
             +:+ rest' ->
      all_chars Char.digit row' = true -> 1 <= String.length row' ->
      all_chars Char.digit col' = true -> 1 <= String.length col' ->
      all_chars Char.space ws' = true ->
      occurs "error: " rest' ->
      String.length file' <= String.length file.
Proof.
  assert (H1 : errors_from_output ClangClCompilerVariant
                 (Text "a(1,2).c(3,4) : error: x")
               = (Ok [error_record "a(1,2).c" "3" "4" "x"], []))
    by (vm_compute; reflexivity).
  assert (H2 : In (error_record "a(1,2).c" "3" "4" "x")
                  [error_record "a(1,2).c" "3" "4" "x"]) by by left.
  split; [exact H1|]. split; [exact H2|].
  exact (clang_cl_file_is_up_to_last_pair
           "a(1,2).c(3,4) : error: x"
           [error_record "a(1,2).c" "3" "4" "x"] []
           (error_record "a(1,2).c" "3" "4" "x") H1 H2).
Defined.

(** X4: a line of the output that reads [file(row,col)], white space,
    [:] and a text with [error: ] is never dropped by the ClangCl
    variant: it yields a record, in its place among the records of the
    other lines, whose file field is at least as long as [file]. *)
Theorem clang_cl_shaped_line_is_kept (output : string)
        (before : list string) (file row col ws rest : string)
        (after : list string) :
  splitlines output
  = before ++ (file +:+ "(" +:+ row +:+ "," +:+ col +:+ ")" +:+ ws +:+ ":"
               +:+ rest) :: after ->
  all_chars Char.digit row = true -> 1 <= String.length row ->
  all_chars Char.digit col = true -> 1 <= String.length col ->
  all_chars Char.space ws = true ->
  occurs "error: " rest ->
  exists file' row' col' err',
    String.length file <= String.length file' /\
    errors_from_output ClangClCompilerVariant (Text output)
    = (Ok (omap (line_record ClangClCompilerVariant_.error_regex) before
           ++ error_record file' row' col' err'
           :: omap (line_record ClangClCompilerVariant_.error_regex) after),
       []).
Proof.
  intros Hlines Hr Hr1 Hc Hc1 Hws Hocc.
  assert (Hany : all_chars Char.any
                   (file +:+ "(" +:+ row +:+ "," +:+ col +:+ ")" +:+ ws
                    +:+ ":" +:+ rest) = true).
  { apply (splitlines_all_any output). rewrite Hlines.
    apply in_or_app. right. by left. }
  destruct (clang_cl_line_record_found file row col ws rest
              Hany Hr Hr1 Hc Hc1 Hws Hocc) as [d Hd].
  destruct (clang_cl_line_record_exact _ _ Hany Hd)
    as (file' & row' & col' & ws1 & ws2 & mid & err & _ & _ & _ & _ & _ & _
        & _ & _ & -> & Hmax).
  exists file', row', col', err. split.
  - by apply (Hmax file row col ws rest).
  - rewrite errors_from_output_ClangCl, Hlines, omap_app.
    by rewrite (omap_cons_Some _ _ _ _ Hd).
Qed.

Lemma clang_cl_shaped_line_is_kept_witness :
  splitlines "C:\src\a.c(3,4): fatal error: no file"
  = [] ++ ("C:\src\a.c" +:+ "(" +:+ "3" +:+ "," +:+ "4" +:+ ")" +:+ ""
           +:+ ":" +:+ " fatal error: no file") :: [] /\
  exists file' row' col' err',
    String.length "C:\src\a.c" <= String.length file' /\
    errors_from_output ClangClCompilerVariant
      (Text "C:\src\a.c(3,4): fatal error: no file")
    = (Ok (omap (line_record ClangClCompilerVariant_.error_regex) []
           ++ error_record file' row' col' err'
           :: omap (line_record ClangClCompilerVariant_.error_regex) []),
       []).
Proof.
  assert (H : splitlines "C:\src\a.c(3,4): fatal error: no file"
              = [] ++ ("C:\src\a.c" +:+ "(" +:+ "3" +:+ "," +:+ "4" +:+ ")"
                       +:+ "" +:+ ":" +:+ " fatal error: no file") :: [])
    by (vm_compute; reflexivity).
  split; [exact H|].
  apply (clang_cl_shaped_line_is_kept _ _ "C:\src\a.c" "3" "4" ""
           " fatal error: no file" _ H);
    [reflexivity|simpl; lia|reflexivity|simpl; lia|reflexivity|].
  by exists " fatal ", "no file".
Defined.

(** X5: for both text variants, parsing two outputs joined by a line
    feed, or by a carriage return and a line feed, gives the records of
    the first followed by the records of the second. *)
Theorem clang_family_joined_outputs (a b : string) :
  (exists ra rb,
      errors_from_output ClangCompilerVariant (Text a) = (Ok ra, []) /\
      errors_from_output ClangCompilerVariant (Text b) = (Ok rb, []) /\
      errors_from_output ClangCompilerVariant
        (Text (a +:+ String Char.LF b)) = (Ok (ra ++ rb), []) /\
      errors_from_output ClangCompilerVariant
        (Text (a +:+ String Char.CR (String Char.LF b)))
      = (Ok (ra ++ rb), [])) /\
  (exists ra rb,
      errors_from_output ClangClCompilerVariant (Text a) = (Ok ra, []) /\
      errors_from_output ClangClCompilerVariant (Text b) = (Ok rb, []) /\
      errors_from_output ClangClCompilerVariant
        (Text (a +:+ String Char.LF b)) = (Ok (ra ++ rb), []) /\
      errors_from_output ClangClCompilerVariant
        (Text (a +:+ String Char.CR (String Char.LF b)))
      = (Ok (ra ++ rb), [])).
Proof.
  split.
  - rewrite !errors_from_output_Clang. eexists _, _.
    split; [reflexivity|]. split; [reflexivity|].
    rewrite omap_splitlines_join_LF, omap_splitlines_join_CRLF;
      [done|by vm_compute..].
  - rewrite !errors_from_output_ClangCl. eexists _, _.
    split; [reflexivity|]. split; [reflexivity|].
    rewrite omap_splitlines_join_LF, omap_splitlines_join_CRLF;
      [done|by vm_compute..].
Qed.

Lemma length_omap_le {X Y} (f : X -> option Y) (l : list X) :
  length (omap f l) <= length l.
Proof.
  induction l as [|x l IH]; [done|].
  destruct (f x) as [y|] eqn:Hx.
  - rewrite (omap_cons_Some _ _ _ _ Hx). simpl. lia.
  - rewrite (omap_cons_None _ _ _ Hx). simpl. lia.
Qed.

(** X6: the text variants log nothing and return at most one record per
    line of the output. *)
Theorem clang_family_one_record_per_line_at_most (s : string) :
  (exists recs,
      errors_from_output ClangCompilerVariant (Text s) = (Ok recs, []) /\
      length recs <= length (splitlines s)) /\
  (exists recs,
      errors_from_output ClangClCompilerVariant (Text s) = (Ok recs, []) /\
      length recs <= length (splitlines s)).
Proof.
  split.
  - rewrite errors_from_output_Clang. eexists. split; [reflexivity|].
    apply length_omap_le.
  - rewrite errors_from_output_ClangCl. eexists. split; [reflexivity|].
    apply length_omap_le.
Qed.

(** X7: the LibClang variant answers every diagnostic with exactly one
    record or exactly one log entry: the records and the log entries
    together are as many as the diagnostics. *)
Theorem libclang_record_or_log_per_diagnostic (ds : list Diagnostic) :
  exists recs lg,
    errors_from_output LibClangCompilerVariant (Diagnostics ds)
    = (Ok recs, lg) /\
    length recs + length lg = length ds.
Proof.
  rewrite errors_from_output_LibClang. eexists _, _.
  split; [reflexivity|]. apply diag_record_log_length.
Qed.

(** X8: what is logged for a dropped diagnostic.  When the location does
    not match, the entry holds the text of the position pattern and the
    location, whatever the spelling is; when the location matches and
    the spelling is made of line feeds only (or is empty), the entry
    holds the text of the message pattern and the spelling.  The entry
    stands between the entries of the diagnostics before and after. *)
Theorem libclang_log_names_pattern_and_text
        (before after : list Diagnostic) (d : Diagnostic) :
  Pattern_search LibClangCompilerVariant_.pos_regex (location d) = None \/
  all_chars (Char.only Char.LF) (spelling d) = true ->
  exists recs1 recs2 lg1 lg2,
    errors_from_output LibClangCompilerVariant (Diagnostics before)
    = (Ok recs1, lg1) /\
    errors_from_output LibClangCompilerVariant (Diagnostics after)
    = (Ok recs2, lg2) /\
    errors_from_output LibClangCompilerVariant
      (Diagnostics (before ++ d :: after))
    = (Ok (recs1 ++ recs2),
       lg1 ++
       match Pattern_search LibClangCompilerVariant_.pos_regex (location d)
       with
       | None =>
           {| log_fmt := "regex %s failed to match location: %s";
              log_args := [pattern LibClangCompilerVariant_.pos_regex;
                           location d] |}
       | Some _ =>
           {| log_fmt := "regex %s failed to match error: %s";
              log_args := [pattern LibClangCompilerVariant_.msg_regex;
                           spelling d] |}
       end :: lg2).
Proof.
  intros Hbad. rewrite !errors_from_output_LibClang.
  eexists _, _, _, _. split; [reflexivity|]. split; [reflexivity|].
  rewrite omap_app, map_app, concat_app. cbn [map concat].
  assert (Hd : diag_record LibClangCompilerVariant_.pos_regex
                 LibClangCompilerVariant_.msg_regex d = None /\
               diag_log LibClangCompilerVariant_.pos_regex
                 LibClangCompilerVariant_.msg_regex d
               = [match Pattern_search LibClangCompilerVariant_.pos_regex
                          (location d)
                  with
                  | None =>
                      {| log_fmt := "regex %s failed to match location: %s";
                         log_args := [pattern LibClangCompilerVariant_.pos_regex;
                                      location d] |}
                  | Some _ =>
                      {| log_fmt := "regex %s failed to match error: %s";
                         log_args := [pattern LibClangCompilerVariant_.msg_regex;
                                      spelling d] |}
                  end]).
  { unfold diag_record, diag_log.
    destruct (Pattern_search LibClangCompilerVariant_.pos_regex (location d))
      as [pm|]; [|done].
    destruct Hbad as [|Hlf]; [done|].
    by rewrite (msg_search_none _ Hlf). }
  destruct Hd as [Hrec Hlog].
  rewrite (omap_cons_None _ _ _ Hrec), Hlog. reflexivity.
Qed.

Lemma libclang_log_names_pattern_and_text_witness :
  (Pattern_search LibClangCompilerVariant_.pos_regex
     "'foo.cpp', line 7, column 3" = None \/
   all_chars (Char.only Char.LF) "" = true) /\
  exists recs1 recs2 lg1 lg2,
    errors_from_output LibClangCompilerVariant (Diagnostics [])
    = (Ok recs1, lg1) /\
    errors_from_output LibClangCompilerVariant (Diagnostics [])
    = (Ok recs2, lg2) /\
    errors_from_output LibClangCompilerVariant
      (Diagnostics ([] ++ {| location := "'foo.cpp', line 7, column 3";
                             spelling := "" |} :: []))
    = (Ok (recs1 ++ recs2),
       lg1 ++
       match Pattern_search LibClangCompilerVariant_.pos_regex
               "'foo.cpp', line 7, column 3"
       with
       | None =>
           {| log_fmt := "regex %s failed to match location: %s";
              log_args := [pattern LibClangCompilerVariant_.pos_regex;
                           "'foo.cpp', line 7, column 3"] |}
       | Some _ =>
           {| log_fmt := "regex %s failed to match error: %s";
              log_args := [pattern LibClangCompilerVariant_.msg_regex;
                           ""] |}
       end :: lg2).
Proof.
  assert (H : Pattern_search LibClangCompilerVariant_.pos_regex
                "'foo.cpp', line 7, column 3" = None \/
              all_chars (Char.only Char.LF) "" = true)
    by (right; reflexivity).
  split; [exact H|].
  exact (libclang_log_names_pattern_and_text [] []
           {| location := "'foo.cpp', line 7, column 3"; spelling := "" |} H).
Defined.

(** X9: the message pattern fails on a spelling exactly when the
    spelling has no character other than line feeds; the empty spelling
    is one of these. *)
Theorem msg_regex_fails_only_on_line_feeds (spelling : string) :
  Pattern_search LibClangCompilerVariant_.msg_regex spelling = None <->
  all_chars (Char.only Char.LF) spelling = true.
Proof.
  split.
  - intros Hnone.
    destruct (all_chars (Char.only Char.LF) spelling) eqn:Hall; [done|].
    apply msg_search_found in Hall as [g Hg]. congruence.
  - apply msg_search_none.
Qed.

Lemma msg_groupdict_error text :
  Match_groupdict LibClangCompilerVariant_.msg_regex (<["error" := text]> ∅)
  !! "error" = Some (VStr text).
Proof.
  unfold Match_groupdict, groupdict.
  cbn [program LibClangCompilerVariant_.msg_regex cat_all fold_right
       group_names app map list_to_map].
  by simplify_map_eq.
Qed.

(** ** The message pattern on a spelling of one line *)

Lemma all_quotes_snoc quotes :
  all_chars (Char.only Char.quote) quotes = true ->
  quotes +:+ String Char.quote "" = String Char.quote quotes.
Proof.
  induction quotes as [|c q IH]; [done|].
  cbn [all_chars]. intros [Hc Hq]%andb_prop.
  unfold Char.only in Hc. apply Ascii.eqb_eq in Hc as ->.
  rewrite sapp_cons. by rewrite (IH Hq).
Qed.

(** On a spelling of double quotes only the pattern gives back its last
    quote: the group needs one character, and the quotes before it go to
    the start of the pattern. *)
Lemma msg_regex_on_quotes_only quotes :
  all_chars (Char.only Char.quote) quotes = true ->
  Pattern_search LibClangCompilerVariant_.msg_regex
    (quotes +:+ String Char.quote "")
  = Some (<["error" := String Char.quote ""]> ∅).
Proof.
  intros Hq. unfold Pattern_search. apply search_at_start.
  unfold match_at.
  cbn [program LibClangCompilerVariant_.msg_regex cat_all fold_right exec].
  apply greedy_at; [done|lia|by vm_compute|].
  intros t2 s2 Heq _ Hlen.
  assert (Hl : String.length (quotes +:+ String Char.quote "")
               = String.length (t2 +:+ s2)) by by rewrite Heq.
  rewrite !length_sapp in Hl. simpl in Hl.
  destruct s2 as [|c s2]; [done|]. simpl in Hl. lia.
Qed.

(** A spelling of one line that is not empty always matches: the error
    is the spelling without the quotes at its start, and one quote when
    nothing else is there. *)
Lemma msg_search_one_line quotes text :
  all_chars (Char.only Char.quote) quotes = true ->
  all_chars Char.any text = true ->
  (forall rest, text <> String Char.quote rest) ->
  quotes +:+ text <> "" ->
  Pattern_search LibClangCompilerVariant_.msg_regex (quotes +:+ text)
  = Some (<["error" := match text with
                       | EmptyString => String Char.quote ""
                       | String _ _ => text
                       end]> ∅).
Proof.
  intros Hq Hany Hfirst Hne.
  destruct text as [|c rest].
  - rewrite sapp_nil_r in Hne |- *.
    destruct quotes as [|q qs]; [done|].
    cbn [all_chars] in Hq. apply andb_prop in Hq as [Hq1 Hqs].
    unfold Char.only in Hq1. apply Ascii.eqb_eq in Hq1 as ->.
    rewrite <- (all_quotes_snoc qs Hqs).
    by apply msg_regex_on_quotes_only.
  - apply msg_regex_keeps_all_but_leading_quotes; try done.
    unfold Char.only. destruct (Ascii.eqb_spec c Char.quote) as [->|]; [|done].
    by destruct (Hfirst rest).
Qed.

(** X10: for a diagnostic whose location matches and whose spelling is
    not empty and holds no line feed, the error is the spelling without
    the double quotes at its start, whatever stands at its end; a
    spelling of double quotes only gives one double quote as error. *)
Theorem libclang_error_is_spelling_without_leading_quotes
        (before after : list Diagnostic) (d : Diagnostic)
        (quotes text : string) :
  Pattern_search LibClangCompilerVariant_.pos_regex (location d) <> None ->
  spelling d = quotes +:+ text ->
  all_chars (Char.only Char.quote) quotes = true ->
  all_chars Char.any text = true ->
  (forall rest, text <> String Char.quote rest) ->
  spelling d <> "" ->
  exists recs1 recs2 rec lg1 lg2,
    errors_from_output LibClangCompilerVariant (Diagnostics before)
    = (Ok recs1, lg1) /\
    errors_from_output LibClangCompilerVariant (Diagnostics after)
    = (Ok recs2, lg2) /\
    errors_from_output LibClangCompilerVariant
      (Diagnostics (before ++ d :: after))
    = (Ok (recs1 ++ rec :: recs2), lg1 ++ lg2) /\
    rec !! "error" = Some (VStr match text with
                                | EmptyString => String Char.quote ""
                                | String _ _ => text
                                end).
Proof.
  intros Hpos Hsp Hq Hany Hfirst Hne.
  destruct (Pattern_search LibClangCompilerVariant_.pos_regex (location d))
    as [pm|] eqn:Hpm; [clear Hpos|done].
  assert (Hmsg := msg_search_one_line quotes text Hq Hany Hfirst
                    ltac:(by rewrite <- Hsp)).
  rewrite <- Hsp in Hmsg.
  destruct (diag_with_record _ _ _ _ _ Hpm Hmsg) as [Hrec Hlog].
  rewrite !errors_from_output_LibClang.
  eexists _, _, _, _, _. split; [reflexivity|]. split; [reflexivity|].
  rewrite omap_app, map_app, concat_app. cbn [map concat].
  rewrite (omap_cons_Some _ _ _ _ Hrec), Hlog. split; [reflexivity|].
  unfold dict_update. apply lookup_union_Some_l, msg_groupdict_error.
Qed.

Lemma libclang_error_is_spelling_without_leading_quotes_witness :
  Pattern_search LibClangCompilerVariant_.pos_regex
    "'foo.cpp', line 7, column 3" <> None /\
  String Char.quote (String Char.quote "")
  = String Char.quote (String Char.quote "") +:+ "" /\
  exists recs1 recs2 rec lg1 lg2,
    errors_from_output LibClangCompilerVariant (Diagnostics [])
    = (Ok recs1, lg1) /\
    errors_from_output LibClangCompilerVariant (Diagnostics [])
    = (Ok recs2, lg2) /\
    errors_from_output LibClangCompilerVariant
      (Diagnostics
         ([] ++ {| location := "'foo.cpp', line 7, column 3";
                   spelling := String Char.quote (String Char.quote "") |}
             :: []))
    = (Ok (recs1 ++ rec :: recs2), lg1 ++ lg2) /\
    rec !! "error" = Some (VStr (String Char.quote "")).
Proof.
  assert (H1 : Pattern_search LibClangCompilerVariant_.pos_regex
                 "'foo.cpp', line 7, column 3" <> None)
    by (vm_compute; discriminate).
  split; [exact H1|]. split; [reflexivity|].
  apply (libclang_error_is_spelling_without_leading_quotes [] []
           {| location := "'foo.cpp', line 7, column 3";
              spelling := String Char.quote (String Char.quote "") |}
           (String Char.quote (String Char.quote "")) "" H1);
    [reflexivity|reflexivity|reflexivity|discriminate|discriminate].
Defined.

(** X11: a diagnostic whose location holds a quoted file, then [line], a
    number, [, column] and a number, the file and what stands between
    it and [line] without line feed, and whose spelling has a character
    that is no line feed, is never dropped by the LibClang variant: it
    yields a record with the four fields, in its place among the
    records of the other diagnostics, and leaves no log entry. *)
Theorem libclang_shaped_diagnostic_is_kept
        (before after : list Diagnostic) (d : Diagnostic)
        (pre file mid : string) (sp1 : ascii) (row : string) (sp2 : ascii)
        (col post : string) :
  location d = pre +:+ "'" +:+ file +:+ "'" +:+ mid +:+ "line"
               +:+ String sp1 row +:+ ", " +:+ "column" +:+ String sp2 col
               +:+ post ->
  all_chars Char.any file = true -> 1 <= String.length file ->
  all_chars Char.any mid = true ->
  Char.space sp1 = true -> Char.space sp2 = true ->
  all_chars Char.digit row = true -> 1 <= String.length row ->
  all_chars Char.digit col = true -> 1 <= String.length col ->
  all_chars (Char.only Char.LF) (spelling d) = false ->
  exists recs1 recs2 lg1 lg2 file' row' col' err',
    errors_from_output LibClangCompilerVariant (Diagnostics before)
    = (Ok recs1, lg1) /\
    errors_from_output LibClangCompilerVariant (Diagnostics after)
    = (Ok recs2, lg2) /\
    errors_from_output LibClangCompilerVariant
      (Diagnostics (before ++ d :: after))
    = (Ok (recs1 ++ error_record file' row' col' err' :: recs2),
       lg1 ++ lg2).
Proof.
  intros Hloc Hf Hf1 Hmid Hsp1 Hsp2 Hr Hr1 Hc Hc1 Hsp.
  destruct (pos_search_found pre file mid sp1 row sp2 col post
              Hf Hf1 Hmid Hsp1 Hsp2 Hr Hr1 Hc Hc1) as [pm Hpm].
  rewrite <- Hloc in Hpm.
  destruct (msg_search_found _ Hsp) as [mm Hmm].
  destruct (diag_with_record _ _ _ _ _ Hpm Hmm) as [Hrec Hlog].
  destruct (libclang_diag_record _ _ Hrec)
    as (_ & file' & _ & _ & row' & _ & col' & _ & _ & _ & err' & _ & _ & _ & _
        & _ & _ & _ & _ & _ & _ & _ & Hd).
  rewrite Hd in Hrec.
  rewrite !errors_from_output_LibClang.
  exists (omap (diag_record LibClangCompilerVariant_.pos_regex
                            LibClangCompilerVariant_.msg_regex) before),
         (omap (diag_record LibClangCompilerVariant_.pos_regex
                            LibClangCompilerVariant_.msg_regex) after),
         (concat (map (diag_log LibClangCompilerVariant_.pos_regex
                                LibClangCompilerVariant_.msg_regex) before)),
         (concat (map (diag_log LibClangCompilerVariant_.pos_regex
                                LibClangCompilerVariant_.msg_regex) after)),
         file', row', col', err'.
  split; [reflexivity|]. split; [reflexivity|].
  rewrite omap_app, map_app, concat_app. cbn [map concat].
  by rewrite (omap_cons_Some _ _ _ _ Hrec), Hlog.
Qed.

Lemma libclang_shaped_diagnostic_is_kept_witness :
  "<SourceLocation file 'a.c', line 7, column 3>"
  = "<SourceLocation file " +:+ "'" +:+ "a.c" +:+ "'" +:+ ", " +:+ "line"
    +:+ String " " "7" +:+ ", " +:+ "column" +:+ String " " "3" +:+ ">" /\
  exists recs1 recs2 lg1 lg2 file' row' col' err',
    errors_from_output LibClangCompilerVariant (Diagnostics [])
    = (Ok recs1, lg1) /\
    errors_from_output LibClangCompilerVariant (Diagnostics [])
    = (Ok recs2, lg2) /\
    errors_from_output LibClangCompilerVariant
      (Diagnostics
         ([] ++ {| location := "<SourceLocation file 'a.c', line 7, column 3>";
                   spelling := "expected expression" |} :: []))
    = (Ok (recs1 ++ error_record file' row' col' err' :: recs2),
       lg1 ++ lg2).
Proof.
  split; [reflexivity|].
  apply (libclang_shaped_diagnostic_is_kept [] []
           {| location := "<SourceLocation file 'a.c', line 7, column 3>";
              spelling := "expected expression" |}
           "<SourceLocation file " "a.c" ", " " " "7" " " "3" ">");
    [reflexivity|reflexivity|simpl; lia|reflexivity|reflexivity|reflexivity
    |reflexivity|simpl; lia|reflexivity|simpl; lia|reflexivity].
Defined.

(** X12: the LibClang variant treats the diagnostics one by one: on two
    lists put end to end it returns the records of the first followed
    by those of the second, and likewise for the log. *)
Theorem libclang_parses_diagnostics_one_by_one (ds1 ds2 : list Diagnostic) :
  exists recs1 lg1 recs2 lg2,
    errors_from_output LibClangCompilerVariant (Diagnostics ds1)
    = (Ok recs1, lg1) /\
    errors_from_output LibClangCompilerVariant (Diagnostics ds2)
    = (Ok recs2, lg2) /\
    errors_from_output LibClangCompilerVariant (Diagnostics (ds1 ++ ds2))
    = (Ok (recs1 ++ recs2), lg1 ++ lg2).
Proof.
  rewrite !errors_from_output_LibClang. eexists _, _, _, _.
  split; [reflexivity|]. split; [reflexivity|].
  by rewrite omap_app, map_app, concat_app.
Qed.

(** X13: a parser handed the input of the other kind.  The text
    variants raise [AttributeError] on a list of diagnostics, empty or
    not, because a list has no [splitlines]; the LibClang variant raises
    [AttributeError] on a text that is not empty, because a character
    has no [location], and returns no record on the empty text. *)
Theorem wrong_input_kind_raises_attribute_error
        (ds : list Diagnostic) (c : ascii) (s : string) :
  errors_from_output ClangCompilerVariant (Diagnostics ds)
  = (Raise (AttributeError "splitlines"), []) /\
  errors_from_output ClangClCompilerVariant (Diagnostics ds)
  = (Raise (AttributeError "splitlines"), []) /\
  errors_from_output LibClangCompilerVariant (Text (String c s))
  = (Raise (AttributeError "location"), []) /\
  errors_from_output LibClangCompilerVariant (Text "") = (Ok [], []).
Proof. repeat split; reflexivity. Qed.

(** X14: which class has which attribute.  [init_flags] and
    [error_regex] are found on the Clang and ClangCl classes only,
    [pos_regex] and [msg_regex] on the LibClang class only; everywhere
    else reading the attribute raises [AttributeError] with its name. *)
Theorem attributes_of_the_variants (self : cls) :
  (init_flags self = (Raise (AttributeError "init_flags"), []) <->
   self <> ClangCompilerVariant /\ self <> ClangClCompilerVariant) /\
  (error_regex self = (Raise (AttributeError "error_regex"), []) <->
   self <> ClangCompilerVariant /\ self <> ClangClCompilerVariant) /\
  (pos_regex self = (Raise (AttributeError "pos_regex"), []) <->
   self <> LibClangCompilerVariant) /\
  (msg_regex self = (Raise (AttributeError "msg_regex"), []) <->
   self <> LibClangCompilerVariant) /\
  ((exists fl, init_flags self = (Ok fl, [])) <->
   (exists re, error_regex self = (Ok re, []))) /\
  ((exists re, pos_regex self = (Ok re, [])) <->
   (exists re, msg_regex self = (Ok re, []))).
Proof.
  destruct self; repeat split;
    try (intros; discriminate); try (intros [? ?]; congruence);
    try congruence; try (intros _; by eexists); try (by intros [? [=]]).
Qed.

Lemma not_occurs_char c s :
  ~ occurs (String c "") s ->
  all_chars (fun x => negb (Ascii.eqb x c)) s = true.
Proof.
  induction s as [|x s IH]; [done|]. intros Hno. simpl.
  destruct (Ascii.eqb_spec x c) as [->|Hne]; simpl.
  - destruct Hno. by exists "", s.
  - apply IH. intros (a & b & ->). apply Hno. by exists (String x a), b.
Qed.

(** X15: the usual rendering of a location,
    [pre'file', line row, column col post], with a file that is not
    empty and holds no line feed and with row and col non-empty runs of
    digits.  When no apostrophe stands in [pre] or [post], [post] holds
    no [line] and does not start with a digit, and the spelling is not
    empty and holds no line feed, the LibClang variant returns for the
    diagnostic the record of [file], [row], [col] and the spelling
    without the double quotes at its start; a spelling of double quotes
    only gives one double quote as error. *)
Theorem libclang_standard_location_fields
        (before after : list Diagnostic) (d : Diagnostic)
        (pre file row col post quotes text : string) :
  location d = pre +:+ "'" +:+ file +:+ "', line " +:+ row +:+ ", column "
               +:+ col +:+ post ->
  ~ occurs "'" pre ->
  all_chars Char.any file = true -> 1 <= String.length file ->
  all_chars Char.digit row = true -> 1 <= String.length row ->
  all_chars Char.digit col = true -> 1 <= String.length col ->
  ~ occurs "'" post -> ~ occurs "line" post ->
  (forall c rest, post = String c rest -> Char.digit c = false) ->
  spelling d = quotes +:+ text ->
  all_chars (Char.only Char.quote) quotes = true ->
  all_chars Char.any text = true ->
  (forall rest, text <> String Char.quote rest) ->
  spelling d <> "" ->
  exists recs1 recs2 lg1 lg2,
    errors_from_output LibClangCompilerVariant (Diagnostics before)
    = (Ok recs1, lg1) /\
    errors_from_output LibClangCompilerVariant (Diagnostics after)
    = (Ok recs2, lg2) /\
    errors_from_output LibClangCompilerVariant
      (Diagnostics (before ++ d :: after))
    = (Ok (recs1 ++ error_record file row col
                      match text with
                      | EmptyString => String Char.quote ""
                      | String _ _ => text
                      end :: recs2), lg1 ++ lg2).
Proof.
  intros Hloc Hpre Hf Hf1 Hr Hr1 Hc Hc1 Hpost Hline Hstop
         Hsp Hq Hany Hfirst Hne.
  assert (Hpos : Pattern_search LibClangCompilerVariant_.pos_regex
                   (location d)
                 = Some (<["col" := col]> (<["row" := row]>
                           (<["file" := file]> ∅)))).
  { rewrite Hloc.
    apply pos_search_standard; try done; try by apply not_occurs_char.
    destruct post as [|c rest]; [done|]. by apply (Hstop c rest). }
  assert (Hmsg := msg_search_one_line quotes text Hq Hany Hfirst
                    ltac:(by rewrite <- Hsp)).
  rewrite <- Hsp in Hmsg.
  destruct (diag_with_record _ _ _ _ _ Hpos Hmsg) as [Hrec Hlog].
  rewrite pos_groupdict, msg_groupdict, dict_update_error_record in Hrec.
  rewrite !errors_from_output_LibClang.
  eexists _, _, _, _. split; [reflexivity|]. split; [reflexivity|].
  rewrite omap_app, map_app, concat_app. cbn [map concat].
  by rewrite (omap_cons_Some _ _ _ _ Hrec), Hlog.
Qed.

Lemma occurs_char_all c s :
  all_chars (fun x => negb (Ascii.eqb x c)) s = true ->
  ~ occurs (String c "") s.
Proof.
  intros Hall (a & b & ->). rewrite all_chars_app in Hall.
  apply andb_prop in Hall as [_ Hall]. rewrite sapp_cons in Hall.
  simpl in Hall. by rewrite Ascii.eqb_refl in Hall.
Qed.

Lemma occurs_length sub s : occurs sub s -> String.length sub <= String.length s.
Proof. intros (a & b & ->). rewrite !length_sapp. lia. Qed.

Lemma libclang_standard_location_fields_witness :
  "<SourceLocation file 'a b.c', line 12, column 5>"
  = "<SourceLocation file " +:+ "'" +:+ "a b.c" +:+ "', line " +:+ "12"
    +:+ ", column " +:+ "5" +:+ ">" /\
  exists recs1 recs2 lg1 lg2,
    errors_from_output LibClangCompilerVariant (Diagnostics [])
    = (Ok recs1, lg1) /\
    errors_from_output LibClangCompilerVariant (Diagnostics [])
    = (Ok recs2, lg2) /\
    errors_from_output LibClangCompilerVariant
      (Diagnostics
         ([] ++ {| location :=
                     "<SourceLocation file 'a b.c', line 12, column 5>";
                   spelling := "expected ';'" |} :: []))
    = (Ok (recs1 ++ error_record "a b.c" "12" "5" "expected ';'" :: recs2),
       lg1 ++ lg2).
Proof.
  split; [reflexivity|].
  apply (libclang_standard_location_fields [] []
           {| location := "<SourceLocation file 'a b.c', line 12, column 5>";
              spelling := "expected ';'" |}
           "<SourceLocation file " "a b.c" "12" "5" ">" "" "expected ';'");
    [reflexivity|by apply occurs_char_all|reflexivity|simpl; lia
    |reflexivity|simpl; lia|reflexivity|simpl; lia
    |by apply occurs_char_all
    |intros Ho%occurs_length; simpl in Ho; lia
    |by intros c rest [= <- _]|reflexivity|reflexivity|reflexivity
    |discriminate|discriminate].
Defined.

(** X16: the usual Clang line, [file:row:col:gap error: msg].  When
    [gap] (the text between the position and [error: ], as a space or
    [ fatal ]) holds no [:] and [msg] holds no further [error: ], the
    Clang variant returns for the line exactly the record of [file],
    [row], [col] and [msg], whatever [file] holds (a drive letter with
    its colon included). *)
Theorem clang_standard_line_fields (output : string) (before : list string)
        (file row col gap msg : string) (after : list string) :
  splitlines output
  = before ++ (file +:+ ":" +:+ row +:+ ":" +:+ col +:+ ":" +:+ gap
               +:+ "error: " +:+ msg) :: after ->
  all_chars Char.digit row = true -> 1 <= String.length row ->
  all_chars Char.digit col = true -> 1 <= String.length col ->
  ~ occurs ":" gap -> ~ occurs "error: " msg ->
  errors_from_output ClangCompilerVariant (Text output)
  = (Ok (omap (line_record ClangCompilerVariant_.error_regex) before
         ++ error_record file row col msg
         :: omap (line_record ClangCompilerVariant_.error_regex) after),
     []).
Proof.
  intros Hlines Hr Hr1 Hc Hc1 Hgap Hmsg.
  assert (Hany : all_chars Char.any
                   (file +:+ ":" +:+ row +:+ ":" +:+ col +:+ ":" +:+ gap
                    +:+ "error: " +:+ msg) = true).
  { apply (splitlines_all_any output). rewrite Hlines.
    apply in_or_app. right. by left. }
  pose proof (clang_line_record_standard file row col gap msg
                Hany Hr Hr1 Hc Hc1 Hgap Hmsg) as Hd.
  rewrite errors_from_output_Clang, Hlines, omap_app.
  by rewrite (omap_cons_Some _ _ _ _ Hd).
Qed.

Lemma clang_standard_line_fields_witness :
  splitlines "C:\a.c:12:5: fatal error: bad"
  = [] ++ ("C:\a.c" +:+ ":" +:+ "12" +:+ ":" +:+ "5" +:+ ":" +:+ " fatal "
           +:+ "error: " +:+ "bad") :: [] /\
  errors_from_output ClangCompilerVariant
    (Text "C:\a.c:12:5: fatal error: bad")
  = (Ok (omap (line_record ClangCompilerVariant_.error_regex) []
         ++ error_record "C:\a.c" "12" "5" "bad"
         :: omap (line_record ClangCompilerVariant_.error_regex) []),
     []).
Proof.
  assert (H : splitlines "C:\a.c:12:5: fatal error: bad"
              = [] ++ ("C:\a.c" +:+ ":" +:+ "12" +:+ ":" +:+ "5" +:+ ":"
                       +:+ " fatal " +:+ "error: " +:+ "bad") :: [])
    by (vm_compute; reflexivity).
  split; [exact H|].
  apply (clang_standard_line_fields _ _ "C:\a.c" "12" "5" " fatal " "bad"
           _ H);
    [reflexivity|simpl; lia|reflexivity|simpl; lia
    |by apply occurs_char_all
    |intros Ho%occurs_length; simpl in Ho; lia].
Defined.

(** X17: the usual ClangCl line, [file(row,col)ws:gap error: msg], with
    white space [ws].  When [gap] holds no [(] and [msg] holds no
    further [error: ], the ClangCl variant returns for the line exactly
    the record of [file], [row], [col] and [msg]. *)
Theorem clang_cl_standard_line_fields (output : string)
        (before : list string) (file row col ws gap msg : string)
        (after : list string) :
  splitlines output
  = before ++ (file +:+ "(" +:+ row +:+ "," +:+ col +:+ ")" +:+ ws +:+ ":"
               +:+ gap +:+ "error: " +:+ msg) :: after ->
  all_chars Char.digit row = true -> 1 <= String.length row ->
  all_chars Char.digit col = true -> 1 <= String.length col ->
  all_chars Char.space ws = true ->
  ~ occurs "(" gap -> ~ occurs "error: " msg ->
  errors_from_output ClangClCompilerVariant (Text output)
  = (Ok (omap (line_record ClangClCompilerVariant_.error_regex) before
         ++ error_record file row col msg
         :: omap (line_record ClangClCompilerVariant_.error_regex) after),
     []).
Proof.
  intros Hlines Hr Hr1 Hc Hc1 Hws Hgap Hmsg.
  assert (Hany : all_chars Char.any
                   (file +:+ "(" +:+ row +:+ "," +:+ col +:+ ")" +:+ ws
                    +:+ ":" +:+ gap +:+ "error: " +:+ msg) = true).
  { apply (splitlines_all_any output). rewrite Hlines.
    apply in_or_app. right. by left. }
  pose proof (clang_cl_line_record_standard file row col ws gap msg
                Hany Hr Hr1 Hc Hc1 Hws Hgap Hmsg) as Hd.
  rewrite errors_from_output_ClangCl, Hlines, omap_app.
  by rewrite (omap_cons_Some _ _ _ _ Hd).
Qed.

Lemma clang_cl_standard_line_fields_witness :
  splitlines "C:\a(1).c(12,5) : error: bad"
  = [] ++ ("C:\a(1).c" +:+ "(" +:+ "12" +:+ "," +:+ "5" +:+ ")" +:+ " "
           +:+ ":" +:+ " " +:+ "error: " +:+ "bad") :: [] /\
  errors_from_output ClangClCompilerVariant
    (Text "C:\a(1).c(12,5) : error: bad")
  = (Ok (omap (line_record ClangClCompilerVariant_.error_regex) []
         ++ error_record "C:\a(1).c" "12" "5" "bad"
         :: omap (line_record ClangClCompilerVariant_.error_regex) []),
     []).
Proof.
  assert (H : splitlines "C:\a(1).c(12,5) : error: bad"
              = [] ++ ("C:\a(1).c" +:+ "(" +:+ "12" +:+ "," +:+ "5" +:+ ")"
                       +:+ " " +:+ ":" +:+ " " +:+ "error: " +:+ "bad") :: [])
    by (vm_compute; reflexivity).
  split; [exact H|].
  apply (clang_cl_standard_line_fields _ _ "C:\a(1).c" "12" "5" " " " " "bad"
           _ H);
    [reflexivity|simpl; lia|reflexivity|simpl; lia|reflexivity
    |by apply occurs_char_all
    |intros Ho%occurs_length; simpl in Ho; lia].
Defined.
